(** * Minecraft Server Manager: the process supervisor of [server.js]

    A shallow embedding of the Express handlers of the manager (instance
    registry, process supervisor, log reader, command channel) together
    with the Node library calls they rely on ([path], [fs],
    [child_process], [String.prototype]).

    Each handler is a function from the state of the manager to a response
    and a new state. The state holds the live mapping [procMap], the child
    objects it refers to, the registry file and the rest of the disk.
    What the handler cannot know in advance comes in as an argument: the
    pid of a spawned child, the text [Math.random().toString(36)] gives,
    the exit code of a process. Output and close events of the children
    are steps of their own. [spawn] is modelled on its success path, and a
    write to a child's stdin does not throw, so the [catch] branches of
    [stop] and [command] are never taken; the one of [logs] is (a
    directory where the log file should be). [fs.mkdirSync] and
    [fs.writeFileSync] throw when an entry of the wrong kind stands at
    their path; a throw inside a handler without [catch] reaches the
    default error handler of Express, which answers 500. *)

From Stdlib Require Import ZArith NArith Ascii String List Bool Lia.
From stdpp Require Import base option list gmap strings pretty.

Local Open Scope string_scope.

(** ** Characters and strings

    A JavaScript string is modelled as a [string] of 8-bit code units
    (ASCII / Latin-1 text). The content of a file is a [string] too, of
    its bytes; the text a buffer decodes to is held as described with
    [toString_utf8] below. *)

Module Str.

Definition code (c : ascii) : N := N_of_ascii c.

Definition LF : ascii := ascii_of_N 10.
Definition CR : ascii := ascii_of_N 13.
Definition slash : ascii := ascii_of_N 47.
Definition dash : ascii := ascii_of_N 45.

(** ["\n"] *)
Definition nl : string := String LF EmptyString.

Definition is_digit (c : ascii) : bool := (48 <=? code c)%N && (code c <=? 57)%N.
Definition is_lower (c : ascii) : bool := (97 <=? code c)%N && (code c <=? 122)%N.
Definition is_upper (c : ascii) : bool := (65 <=? code c)%N && (code c <=? 90)%N.

(** The class [[a-z0-9]] of the slug regex. *)
Definition is_alnum (c : ascii) : bool := is_lower c || is_digit c.

(** WhiteSpace and LineTerminator code points below 256, those
    [String.prototype.trim] strips. *)
Definition is_ws (c : ascii) : bool :=
  ((9 <=? code c)%N && (code c <=? 13)%N) || (code c =? 32)%N || (code c =? 160)%N.

Definition lower_char (c : ascii) : ascii :=
  if is_upper c then ascii_of_N (code c + 32) else c.

(** [s.toLowerCase()]. Only ASCII letters change here; the code units
    above 127 lie outside [[a-z0-9]] before and after lowering, so the
    slug of a name does not depend on them. *)
Fixpoint toLowerCase (s : string) : string :=
  match s with
  | EmptyString => EmptyString
  | String c s' => String (lower_char c) (toLowerCase s')
  end.

Fixpoint trimStart (s : string) : string :=
  match s with
  | EmptyString => EmptyString
  | String c s' => if is_ws c then trimStart s' else s
  end.

Fixpoint trimEnd (s : string) : string :=
  match s with
  | EmptyString => EmptyString
  | String c s' =>
      match trimEnd s' with
      | EmptyString => if is_ws c then EmptyString else String c EmptyString
      | t => String c t
      end
  end.

(** [s.trim()] *)
Definition trim (s : string) : string := trimEnd (trimStart s).

(** [s.substring(a, b)] for [a <= b]. *)
Definition substring (a b : nat) (s : string) : string :=
  String.substring a (b - a) s.

(** [s.split(sep)] for a one-character separator. *)
Fixpoint split_on (sep : ascii) (s : string) : list string :=
  match s with
  | EmptyString => [EmptyString]
  | String c s' =>
      if Ascii.eqb c sep then EmptyString :: split_on sep s'
      else match split_on sep s' with
           | x :: r => String c x :: r
           | [] => [String c EmptyString]
           end
  end.

(** [l.join(sep)] *)
Fixpoint join (sep : string) (l : list string) : string :=
  match l with
  | [] => EmptyString
  | [x] => x
  | x :: r => x ++ sep ++ join sep r
  end.

(** [l.slice(-n)]: the last [n] elements, all of them when there are
    fewer. *)
Definition slice_last {A} (n : nat) (l : list A) : list A :=
  drop (length l - n) l.

Fixpoint endsWith (c : ascii) (s : string) : bool :=
  match s with
  | EmptyString => false
  | String d EmptyString => Ascii.eqb d c
  | String _ s' => endsWith c s'
  end.

Definition startsWith (c : ascii) (s : string) : bool :=
  match s with
  | String d _ => Ascii.eqb d c
  | EmptyString => false
  end.

Definition is_empty (s : string) : bool :=
  match s with EmptyString => true | _ => false end.

End Str.

(** ** Node's [path] module (POSIX flavour) *)

Module Path.

Definition is_dot (s : string) : bool := String.eqb s ".".
Definition is_dotdot (s : string) : bool := String.eqb s "..".

(** [normalizeString]: the segments of a path are folded over a stack,
    kept here with its top first. Empty and ["."] segments are skipped,
    [".."] pops a segment, or is kept when nothing can be popped and the
    path is relative. *)
Fixpoint norm_go (allowAboveRoot : bool) (stack segs : list string) : list string :=
  match segs with
  | [] => stack
  | seg :: rest =>
      if Str.is_empty seg || is_dot seg then norm_go allowAboveRoot stack rest
      else if is_dotdot seg then
        match stack with
        | top :: below =>
            if is_dotdot top
            then norm_go allowAboveRoot
                   (if allowAboveRoot then seg :: stack else stack) rest
            else norm_go allowAboveRoot below rest
        | [] =>
            norm_go allowAboveRoot
              (if allowAboveRoot then [seg] else []) rest
        end
      else norm_go allowAboveRoot (seg :: stack) rest
  end.

Definition normalizeString (allowAboveRoot : bool) (p : string) : string :=
  Str.join "/" (rev (norm_go allowAboveRoot [] (Str.split_on Str.slash p))).

(** [path.normalize(p)] *)
Definition normalize (p : string) : string :=
  if Str.is_empty p then "."
  else
    let isAbsolute := Str.startsWith Str.slash p in
    let trailingSeparator := Str.endsWith Str.slash p in
    let body := normalizeString (negb isAbsolute) p in
    if Str.is_empty body then
      if isAbsolute then "/" else if trailingSeparator then "./" else "."
    else
      let body := if trailingSeparator then body ++ "/" else body in
      if isAbsolute then "/" ++ body else body.

(** [path.join(...parts)] *)
Definition join (parts : list string) : string :=
  match filter (λ a, Str.is_empty a = false) parts with
  | [] => "."
  | joined => normalize (Str.join "/" joined)
  end.

Fixpoint last_nonempty (l : list string) : string :=
  match l with
  | [] => EmptyString
  | x :: r =>
      match last_nonempty r with
      | EmptyString => x
      | y => y
      end
  end.

(** [path.basename(p)]: trailing separators are dropped, the text after
    the last remaining separator is returned. *)
Definition basename (p : string) : string :=
  last_nonempty (Str.split_on Str.slash p).

(** A path segment that [normalize] keeps as it is: not empty, not ["."],
    not [".."], without separator. *)
Fixpoint no_slash (s : string) : bool :=
  match s with
  | EmptyString => true
  | String c s' => negb (Ascii.eqb c Str.slash) && no_slash s'
  end.

Definition clean (seg : string) : bool :=
  negb (Str.is_empty seg) && negb (is_dot seg) && negb (is_dotdot seg)
  && no_slash seg.

(** The absolute, normalized path with the segments [segs]. *)
Definition absolute (segs : list string) : string := "/" ++ Str.join "/" segs.

End Path.

(** ** Data model *)

(** One instance record of [servers.json]. JSON numbers are taken as
    integers, the values the dashboard sends. *)
Module Server.
Record t := mk {
  id : string;
  name : string;
  port : Z;
  maxMemoryMB : Z;
  jar : string;
  dir : string
}.
End Server.

(** What [servers.json] holds: text [JSON.parse] rejects, or the array of
    records [saveServers] wrote. *)
Inductive document :=
| Unparseable
| Parsed (servers : list Server.t).

(** A file system entry; the file system maps absolute paths to entries. *)
Inductive node :=
| Dir
| File (content : string).

(** The [ChildProcess] object [spawn] returns, with what the handlers
    registered on it have captured: [owner] is the [id] the close observer
    deletes, [logStream] the file its write stream appends to. [stdin]
    lists the chunks written so far, oldest first. *)
Record child := mkChild {
  owner : string;
  pid : Z;
  command : string;
  args : list string;
  cwd : string;
  stdin : list string;
  logStream : string;
  closed : bool
}.

(** The manager: [procMap] maps an id to a reference into [children], the
    store of every child object spawned so far; [stateFile] and [disk] are
    the data directory; [console] is what [console.error] printed. *)
Record state := mkState {
  procMap : gmap string nat;
  children : list child;
  stateFile : option document;
  disk : gmap string node;
  console : list string
}.

(** The JSON body of [POST /api/servers]; [None] is an absent or [null]
    field. *)
Record create_body := mkBody {
  b_name : option string;
  b_port : option Z;
  b_maxMemoryMB : option Z;
  b_jar : option string
}.

Inductive payload :=
| Ok                                        (* { ok: true } *)
| OkPid (p : Z)                             (* { ok: true, pid } *)
| Record_ (s : Server.t)                    (* the record itself *)
| Listing (l : list (Server.t * bool))      (* records with their running flag *)
| Plain (text : string)                     (* a text body *)
| Error (msg : string)                      (* { error: msg } *)
| ErrorDetails (msg : string)               (* { error: msg, details } *)
| ErrorPage.                                (* the page Express makes of a throw *)

(** An HTTP response: status code and body. *)
Inductive response := Res (status : nat) (body : payload).

(** The names the specification gives to the error responses. *)
Inductive ErrorKind := NotFound | Conflict | InvalidState | InvalidArgument | IOError.

Definition kind_of (r : response) : option ErrorKind :=
  match r with
  | Res 404 (Error "Not found") => Some NotFound
  | Res 400 (Error "Already running") => Some Conflict
  | Res 400 (Error "Stop the server first") => Some Conflict
  | Res 400 (Error "JAR missing on disk") => Some InvalidState
  | Res 400 (Error "Not running") => Some InvalidState
  | Res 400 (Error "command required") => Some InvalidArgument
  | Res 400 (Error "name, port, jar are required") => Some InvalidArgument
  | Res 400 (Error "JAR not found. Upload it first.") => Some NotFound
  | Res 500 (ErrorDetails _) => Some IOError
  | _ => None
  end.

Definition succeeded (r : response) : bool :=
  match r with
  | Res 200 (Error _) | Res 200 (ErrorDetails _) => false
  | Res 200 _ => true
  | _ => false
  end.

(** JavaScript truthiness of a body field. *)
Definition str_falsy (o : option string) : bool :=
  match o with Some s => Str.is_empty s | None => true end.
Definition num_falsy (o : option Z) : bool :=
  match o with Some n => (n =? 0)%Z | None => true end.

(** A number or [null] inside a template literal. *)
Definition show_code (code : option Z) : string :=
  match code with Some n => pretty n | None => "null" end.

(** ** State updates and [fs] *)

Definition set_procMap (m : gmap string nat) (st : state) : state :=
  mkState m (children st) (stateFile st) (disk st) (console st).
Definition set_children (l : list child) (st : state) : state :=
  mkState (procMap st) l (stateFile st) (disk st) (console st).
Definition set_stateFile (d : option document) (st : state) : state :=
  mkState (procMap st) (children st) d (disk st) (console st).
Definition set_disk (fs : gmap string node) (st : state) : state :=
  mkState (procMap st) (children st) (stateFile st) fs (console st).
Definition console_error (line : string) (st : state) : state :=
  mkState (procMap st) (children st) (stateFile st) (disk st) (console st ++ [line]).

Module Fs.

Definition existsSync (p : string) (fs : gmap string node) : bool :=
  bool_decide (is_Some (fs !! p)).

(** [p] lies below the directory [d]. *)
Definition under (d p : string) : bool := String.prefix (d ++ "/") p.

(** [fs.mkdirSync(p, { recursive: true })]: nothing happens when the
    directory [p] exists, and the call throws ([None], EEXIST) when a file
    stands at [p]. The handlers only ever look paths up one by one, so the
    ancestors of [p] are not recorded. *)
Definition mkdirSync (p : string) (fs : gmap string node)
  : option (gmap string node) :=
  match fs !! p with
  | Some Dir => Some fs
  | Some (File _) => None
  | None => Some (<[p := Dir]> fs)
  end.

(** [fs.writeFileSync(p, content)]: the file is created or replaced, and
    the call throws ([None], EISDIR) when a directory stands at [p]. *)
Definition writeFileSync (p content : string) (fs : gmap string node)
  : option (gmap string node) :=
  match fs !! p with
  | Some Dir => None
  | _ => Some (<[p := File content]> fs)
  end.

(** [fs.unlink(p)] of a file. *)
Definition unlink (p : string) (fs : gmap string node) : gmap string node :=
  delete p fs.

(** [fs.rmSync(d, { recursive: true, force: true })] *)
Definition rmSync (d : string) (fs : gmap string node) : gmap string node :=
  filter (λ kv, kv.1 ≠ d ∧ under d kv.1 = false) fs.

Definition content_of (p : string) (fs : gmap string node) : string :=
  match fs !! p with
  | Some (File c) => c
  | _ => EmptyString
  end.

(** Opening [p] with flag ['a']: the file is created when missing. *)
Definition open_append (p : string) (fs : gmap string node) : gmap string node :=
  match fs !! p with
  | Some _ => fs
  | None => <[p := File EmptyString]> fs
  end.

(** A write on a stream opened with flag ['a']. *)
Definition append (p data : string) (fs : gmap string node) : gmap string node :=
  <[p := File (content_of p fs ++ data)]> fs.

(** The paths recorded below [d]. *)
Definition entries_under (d : string) (fs : gmap string node) : gset string :=
  dom (filter (λ kv, under d kv.1 = true) fs).

End Fs.

(** ** [generateId] *)

(** [.replace(/[^a-z0-9]+/g, '-')]: every maximal run of characters
    outside [[a-z0-9]] becomes one dash. [in_run] tells that the run the
    scan is in has been replaced. *)
Fixpoint squash (in_run : bool) (s : string) : string :=
  match s with
  | EmptyString => EmptyString
  | String c s' =>
      if Str.is_alnum c then String c (squash false s')
      else if in_run then squash true s'
      else String Str.dash (squash true s')
  end.

Definition drop_first_dash (s : string) : string :=
  match s with
  | String c s' => if Ascii.eqb c Str.dash then s' else s
  | EmptyString => s
  end.

Fixpoint drop_last_dash (s : string) : string :=
  match s with
  | EmptyString => EmptyString
  | String c EmptyString => if Ascii.eqb c Str.dash then EmptyString else s
  | String c s' => String c (drop_last_dash s')
  end.

(** [.replace(/^-|-$/g, '')] *)
Definition strip_dashes (s : string) : string := drop_last_dash (drop_first_dash s).

Definition slug (name : string) : string :=
  strip_dashes (squash false (Str.toLowerCase name)).

(** [generateId(name)]; [r] is the text [Math.random().toString(36)]
    produced in this call. *)
Definition generateId (name r : string) : string :=
  let rand := Str.substring 2 7 r in
  slug name ++ "-" ++ rand.

(** The shape of [Math.random().toString(36)]: ["0"], or ["0."] followed
    by digits in base 36. *)
Fixpoint all_alnum (s : string) : bool :=
  match s with
  | EmptyString => true
  | String c s' => Str.is_alnum c && all_alnum s'
  end.

(** The characters an id is made of: [[a-z0-9]] and the dash. *)
Fixpoint id_chars (s : string) : bool :=
  match s with
  | EmptyString => true
  | String c s' => (Str.is_alnum c || Ascii.eqb c Str.dash) && id_chars s'
  end.

Definition radix36 (r : string) : bool :=
  match r with
  | String z EmptyString => Ascii.eqb z (ascii_of_N 48)
  | String z (String d digits) =>
      Ascii.eqb z (ascii_of_N 48) && Ascii.eqb d (ascii_of_N 46) && all_alnum digits
  | EmptyString => false
  end.

(** ** The log reader's line splitting *)

(** [.split(/\r?\n/)]: a line end is a line feed, with the carriage
    return in front of it if there is one. [keep] puts the character into
    the line that follows; it takes a unit so that it is only evaluated
    where it is used. *)
Fixpoint split_lines (s : string) : list string :=
  match s with
  | EmptyString => [EmptyString]
  | String c s' =>
      let keep (_ : unit) :=
        match split_lines s' with
        | x :: r => String c x :: r
        | [] => [String c EmptyString]
        end in
      if Ascii.eqb c Str.LF then EmptyString :: split_lines s'
      else if Ascii.eqb c Str.CR then
        match s' with
        | String c' s'' =>
            if Ascii.eqb c' Str.LF then EmptyString :: split_lines s'' else keep tt
        | EmptyString => keep tt
        end
      else keep tt
  end.

(** The final [n] bytes of a file, all of it when it is shorter. *)
Definition last_bytes (n : N) (s : string) : string :=
  let size := N.min (N.of_nat (String.length s)) n in
  let position := (N.of_nat (String.length s) - size)%N in
  String.substring (N.to_nat position) (N.to_nat size) s.

(** ** [buffer.toString('utf8')]

    The bytes of a buffer are decoded as UTF-8, every ill-formed sequence
    giving U+FFFD. The text that results is held here by its own UTF-8
    encoding, the bytes [res.send] puts into the body: a well-formed
    sequence stands for itself, U+FFFD is the three bytes EF BF BD. Line
    feed and carriage return are single bytes that occur in no longer
    sequence, so splitting this encoding at line ends is splitting the
    text. *)

(** U+FFFD in UTF-8. *)
Definition replacement : string :=
  String (ascii_of_N 239) (String (ascii_of_N 191) (String (ascii_of_N 189) "")).

(** The decoder between two characters, or inside a sequence: the bytes
    [seen] so far, the number [needed] of bytes still to come, and the
    range the next byte must lie in. *)
Inductive utf8_state :=
| Fresh
| Pending (seen : string) (needed : nat) (lower upper : N).

(** A byte met between two characters: an ASCII byte is a character, a
    lead byte opens a sequence of two, three or four bytes (C0, C1 and F5
    to FF lead nothing; E0, ED, F0 and F4 narrow the range of the byte
    that follows, which shuts out overlong forms, surrogates and code
    points above U+10FFFF), any other byte is ill-formed. *)
Definition utf8_lead (c : ascii) : string * utf8_state :=
  let n := Str.code c in
  if (n <=? 127)%N then (String c "", Fresh)
  else if (194 <=? n)%N && (n <=? 223)%N
  then ("", Pending (String c "") 1 128 191)
  else if (224 <=? n)%N && (n <=? 239)%N
  then ("", Pending (String c "") 2
              (if (n =? 224)%N then 160%N else 128%N)
              (if (n =? 237)%N then 159%N else 191%N))
  else if (240 <=? n)%N && (n <=? 244)%N
  then ("", Pending (String c "") 3
              (if (n =? 240)%N then 144%N else 128%N)
              (if (n =? 244)%N then 143%N else 191%N))
  else (replacement, Fresh).

(** The decoder of the Encoding Standard. Inside a sequence a byte out of
    range ends the sequence with U+FFFD and is then read again as the
    first byte of what follows; a sequence cut off by the end of the
    buffer gives U+FFFD. *)
Fixpoint utf8_decode (state : utf8_state) (bytes : string) : string :=
  match bytes with
  | EmptyString =>
      match state with
      | Fresh => EmptyString
      | Pending _ _ _ _ => replacement
      end
  | String c rest =>
      match state with
      | Fresh =>
          (utf8_lead c).1 ++ utf8_decode (utf8_lead c).2 rest
      | Pending seen needed lower upper =>
          if (lower <=? Str.code c)%N && (Str.code c <=? upper)%N then
            match needed with
            | S (S n) => utf8_decode (Pending (seen ++ String c "") (S n) 128 191) rest
            | _ => (seen ++ String c "") ++ utf8_decode Fresh rest
            end
          else
            replacement ++ (utf8_lead c).1 ++ utf8_decode (utf8_lead c).2 rest
      end
  end.

Definition toString_utf8 (buffer : string) : string := utf8_decode Fresh buffer.

(** [Math.min(stat.size, 1024 * 1024)] bytes from the end, decoded, split,
    the last 2000 pieces joined again. *)
Definition read_tail (content : string) : string :=
  let buffer := last_bytes (1024 * 1024) content in
  let lines := split_lines (toString_utf8 buffer) in
  Str.join Str.nl (Str.slice_last 2000 lines).

(** ** The handlers of [server.js] *)

Section Manager.

(** The directory [server.js] is installed in. *)
Variable __dirname : string.

Definition DATA_DIR : string := Path.join [__dirname; "data"].
Definition JAR_DIR : string := Path.join [DATA_DIR; "jars"].
Definition SERVERS_DIR : string := Path.join [DATA_DIR; "servers"].

(** The registry file. What it holds is the [stateFile] field of the
    state, kept apart from the other files as the document it parses to. *)
Definition STATE_FILE : string := Path.join [DATA_DIR; "servers.json"].

(** Start-up: the three folders are ensured, no process is mapped. *)
Definition ensure_folder (d : string) (fs : gmap string node) : gmap string node :=
  if Fs.existsSync d fs then fs else default fs (Fs.mkdirSync d fs).

Definition boot (file : option document) (fs : gmap string node) : state :=
  mkState ∅ [] file
    (ensure_folder SERVERS_DIR (ensure_folder JAR_DIR (ensure_folder DATA_DIR fs))) [].

(** [loadServers()]: an absent file and a file that does not parse both
    give the empty array; the parse failure is printed. *)
Definition loadServers (st : state) : list Server.t * state :=
  match stateFile st with
  | None => ([], st)
  | Some Unparseable => ([], console_error "Failed to parse servers.json:" st)
  | Some (Parsed servers) => (servers, st)
  end.

Definition saveServers (servers : list Server.t) (st : state) : state :=
  set_stateFile (Some (Parsed servers)) st.

(** The records a handler running in [st] gets from [loadServers]. *)
Definition registry (st : state) : list Server.t := (loadServers st).1.

(** [servers.find(x => x.id === id)] *)
Definition find_server (id : string) (servers : list Server.t) : option Server.t :=
  List.find (λ x, String.eqb (Server.id x) id) servers.

Definition getServer (id : string) (st : state) : option Server.t * state :=
  let '(servers, st) := loadServers st in
  (find_server id servers, st).

(** [GET /api/servers] *)
Definition list_servers (st : state) : response * state :=
  let '(servers, st) := loadServers st in
  (Res 200 (Listing (map (λ s, (s, bool_decide (is_Some (procMap st !! Server.id s)))) servers)), st).

(** The default [server.properties] of a new instance. *)
Definition default_properties (port : Z) : string :=
  "server-port=" ++ pretty port ++ Str.nl
  ++ "max-players=20" ++ Str.nl
  ++ "enable-jmx-monitoring=false" ++ Str.nl.

(** [POST /api/servers]; [r] is the text [Math.random().toString(36)]
    gives inside [generateId]. A throw of [mkdirSync] or [writeFileSync]
    ends the handler with what was written so far, and Express answers
    500. *)
Definition create (body : create_body) (r : string) (st : state) : response * state :=
  if str_falsy (b_name body) || num_falsy (b_port body) || str_falsy (b_jar body)
  then (Res 400 (Error "name, port, jar are required"), st)
  else
    let name := default EmptyString (b_name body) in
    let port := default 0%Z (b_port body) in
    let jar := default EmptyString (b_jar body) in
    let jarPath := Path.join [JAR_DIR; Path.basename jar] in
    if negb (Fs.existsSync jarPath (disk st))
    then (Res 400 (Error "JAR not found. Upload it first."), st)
    else
      let id := generateId name r in
      let dir := Path.join [SERVERS_DIR; id] in
      match Fs.mkdirSync dir (disk st) with
      | None => (Res 500 ErrorPage, st)
      | Some fs =>
          let st := set_disk fs st in
          let serverPropPath := Path.join [dir; "server.properties"] in
          match
            (if Fs.existsSync serverPropPath (disk st) then Some (disk st)
             else Fs.writeFileSync serverPropPath (default_properties port) (disk st))
          with
          | None => (Res 500 ErrorPage, st)
          | Some fs =>
              let st := set_disk fs st in
              match
                Fs.writeFileSync (Path.join [dir; "eula.txt"])
                  ("eula=true" ++ Str.nl) (disk st)
              with
              | None => (Res 500 ErrorPage, st)
              | Some fs =>
                  let st := set_disk fs st in
                  let '(servers, st) := loadServers st in
                  let newS :=
                    Server.mk id name port
                      (if num_falsy (b_maxMemoryMB body) then 1024%Z
                       else default 0%Z (b_maxMemoryMB body))
                      (Path.basename jar) dir in
                  let st := saveServers (servers ++ [newS]) st in
                  (Res 200 (Record_ newS), st)
              end
          end
      end.

(** [DELETE /api/servers/:id] *)
Definition delete_server (id : string) (st : state) : response * state :=
  let '(servers, st) := loadServers st in
  match find_server id servers with
  | None => (Res 404 (Error "Not found"), st)
  | Some s =>
      if bool_decide (is_Some (procMap st !! id))
      then (Res 400 (Error "Stop the server first"), st)
      else
        let st := set_disk (Fs.rmSync (Server.dir s) (disk st)) st in
        let st :=
          saveServers (filter (λ x, Server.id x ≠ id) servers) st in
        (Res 200 Ok, st)
  end.

(** The argument list [start] builds for [java]. *)
Definition launch_args (s : Server.t) (jarPath : string) : list string :=
  (if (Server.maxMemoryMB s =? 0)%Z then []
   else ["-Xmx" ++ pretty (Server.maxMemoryMB s) ++ "M";
         "-Xms" ++ pretty (Z.min 512 (Server.maxMemoryMB s)) ++ "M"])
  ++ ["-jar"; jarPath; "nogui"].

(** The argument list as the specification words it: the maximum heap
    [M], the minimum heap [min(512, M)], the jar, the no-GUI flag. *)
Definition heap_then_jar_args (M : Z) (jarPath : string) : list string :=
  ["-Xmx" ++ pretty M ++ "M"; "-Xms" ++ pretty (Z.min 512 M) ++ "M";
   "-jar"; jarPath; "nogui"].

(** [POST /api/servers/:id/start]; [p] is the pid the operating system
    gives the child. *)
Definition start (id : string) (p : Z) (st : state) : response * state :=
  if bool_decide (is_Some (procMap st !! id))
  then (Res 400 (Error "Already running"), st)
  else
    let '(found, st) := getServer id st in
    match found with
    | None => (Res 404 (Error "Not found"), st)
    | Some s =>
        let jarPath := Path.join [JAR_DIR; Server.jar s] in
        if negb (Fs.existsSync jarPath (disk st))
        then (Res 400 (Error "JAR missing on disk"), st)
        else
          let logFile := Path.join [Server.dir s; "console.log"] in
          let child :=
            mkChild id p "java" (launch_args s jarPath) (Server.dir s) [] logFile false in
          let handle := length (children st) in
          let st := set_children (children st ++ [child]) st in
          let st := set_procMap (<[id := handle]> (procMap st)) st in
          let st := set_disk (Fs.open_append logFile (disk st)) st in
          (Res 200 (OkPid p), st)
    end.

(** [child.stdin.write(chunk)] on the child object behind [handle]. *)
Definition stdin_write (handle : nat) (chunk : string) (st : state) : state :=
  set_children
    (alter (λ c, mkChild (owner c) (pid c) (command c) (args c) (cwd c)
                   (stdin c ++ [chunk]) (logStream c) (closed c))
       handle (children st)) st.

(** [POST /api/servers/:id/stop] *)
Definition stop (id : string) (st : state) : response * state :=
  match procMap st !! id with
  | None => (Res 400 (Error "Not running"), st)
  | Some handle => (Res 200 Ok, stdin_write handle ("stop" ++ Str.nl) st)
  end.

(** [POST /api/servers/:id/command] *)
Definition send_command (id : string) (cmd : option string) (st : state) : response * state :=
  match procMap st !! id with
  | None => (Res 400 (Error "Not running"), st)
  | Some handle =>
      if str_falsy cmd then (Res 400 (Error "command required"), st)
      else
        (Res 200 Ok,
         stdin_write handle (Str.trim (default EmptyString cmd) ++ Str.nl) st)
  end.

(** [GET /api/servers/:id/logs] *)
Definition logs (id : string) (st : state) : response * state :=
  let '(found, st) := getServer id st in
  match found with
  | None => (Res 404 (Error "Not found"), st)
  | Some s =>
      let logFile := Path.join [Server.dir s; "console.log"] in
      match disk st !! logFile with
      | None => (Res 200 (Plain EmptyString), st)
      | Some (File content) => (Res 200 (Plain (read_tail content)), st)
      | Some Dir => (Res 500 (ErrorDetails "Failed to read logs"), st)
      end
  end.

(** A chunk arriving on the child's stdout or stderr. *)
Definition on_data (handle : nat) (chunk : string) (st : state) : state :=
  match children st !! handle with
  | Some c =>
      if closed c then st
      else set_disk (Fs.append (logStream c) chunk (disk st)) st
  | None => st
  end.

(** The ['close'] observer of the child behind [handle]; [code] is [None]
    when a signal ended the process. *)
Definition on_close (handle : nat) (code : option Z) (st : state) : state :=
  match children st !! handle with
  | Some c =>
      if closed c then st
      else
        let st := set_procMap (delete (owner c) (procMap st)) st in
        let st :=
          set_disk
            (Fs.append (logStream c)
               (Str.nl ++ "[process exited with code " ++ show_code code ++ "]" ++ Str.nl)
               (disk st)) st in
        set_children
          (alter (λ c, mkChild (owner c) (pid c) (command c) (args c) (cwd c)
                         (stdin c) (logStream c) true)
             handle (children st)) st
  | None => st
  end.

(** ** Runs of the manager *)

Inductive request :=
| ListServers
| Create (body : create_body) (r : string)
| Delete (id : string)
| Start (id : string) (p : Z)
| Stop (id : string)
| Command (id : string) (cmd : option string)
| Logs (id : string).

Definition handle (q : request) (st : state) : response * state :=
  match q with
  | ListServers => list_servers st
  | Create body r => create body r st
  | Delete id => delete_server id st
  | Start id p => start id p st
  | Stop id => stop id st
  | Command id cmd => send_command id cmd st
  | Logs id => logs id st
  end.

Inductive event :=
| Request (q : request)
| Data (handle : nat) (chunk : string)
| Close (handle : nat) (code : option Z).

Definition step (e : event) (st : state) : state :=
  match e with
  | Request q => (handle q st).2
  | Data h chunk => on_data h chunk st
  | Close h code => on_close h code st
  end.

Definition run (es : list event) (st : state) : state :=
  foldl (λ st e, step e st) st es.

Inductive reachable : state → Prop :=
| reachable_boot file fs : reachable (boot file fs)
| reachable_step e st : reachable st → reachable (step e st).

Definition is_close (e : event) : bool :=
  match e with Close _ _ => true | _ => false end.

(** The close event of the child behind [h]. *)
Definition closes (h : nat) (e : event) : bool :=
  match e with Close h' _ => bool_decide (h' = h) | _ => false end.

(** The children that have not closed yet, with their handles. *)
Definition live (st : state) (h : nat) (c : child) : Prop :=
  children st !! h = Some c ∧ closed c = false.

End Manager.

(** ** Predicates on states *)

(** Two states agree on everything but the console. *)
Definition same_world (st st' : state) : Prop :=
  procMap st' = procMap st ∧ children st' = children st
  ∧ stateFile st' = stateFile st ∧ disk st' = disk st.

(** Every mapped id refers to a child that has not closed and that was
    started for this id, and every child that has not closed is the one
    its id is mapped to. *)
Definition consistent (st : state) : Prop :=
  (∀ id h, procMap st !! id = Some h →
     ∃ c, children st !! h = Some c ∧ owner c = id ∧ closed c = false)
  ∧ (∀ h c, children st !! h = Some c → closed c = false →
     procMap st !! owner c = Some h).

(** Every mapped id has a record. *)
Definition mapped_recorded (st : state) : Prop :=
  ∀ id, is_Some (procMap st !! id) → is_Some (find_server id (registry st)).

(** An id that [start] accepts: not mapped, recorded, its jar on disk. *)
Definition startable (d id : string) (st : state) : Prop :=
  procMap st !! id = None
  ∧ ∃ s, find_server id (registry st) = Some s
         ∧ Fs.existsSync (Path.join [JAR_DIR d; Server.jar s]) (disk st) = true.

(** What stays of a child while requests and output go by: everything but
    the chunks written to its stdin. *)
Definition same_child (c c' : child) : Prop :=
  owner c' = owner c ∧ pid c' = pid c ∧ command c' = command c
  ∧ args c' = args c ∧ cwd c' = cwd c ∧ logStream c' = logStream c
  ∧ closed c' = closed c.

(** Two states in which the handlers see the same processes, the same disk
    and the same records. *)
Definition same_view (st1 st2 : state) : Prop :=
  procMap st1 = procMap st2 ∧ children st1 = children st2
  ∧ disk st1 = disk st2 ∧ registry st1 = registry st2.

(** [st] with its registry file replaced by one holding the array [l]. *)
Definition with_registry (l : list Server.t) (st : state) : state :=
  set_stateFile (Some (Parsed l)) st.

(** ** A concrete installation

    The manager installed in [/srv], one uploaded jar, no registry file
    yet; then one instance created and started. *)
Module Demo.

Definition home : string := "/srv".

Definition fresh_disk : gmap string node :=
  {[ "/srv/data/jars/paper.jar" := File "PK" ]}.

Definition booted : state := boot home None fresh_disk.

Definition lobby : create_body :=
  mkBody (Some "Lobby") (Some 25565%Z) (Some 2048%Z) (Some "paper.jar").

Definition created : state := (create home lobby "0.k3x9qzr1" booted).2.

Definition lobby_id : string := "lobby-k3x9q".

Definition running : state := (start home lobby_id 4242 created).2.

(** A registry written by hand, its one record without memory limit. *)
Definition creative : Server.t :=
  Server.mk "creative-a1b2c" "Creative" 25566 0 "paper.jar"
    "/srv/data/servers/creative-a1b2c".

Definition booted_by_hand : state :=
  boot home (Some (Parsed [creative]))
    (<["/srv/data/servers/creative-a1b2c" := Dir]> fresh_disk).

(** A request that names the jar with a folder in front, handled in a
    call where [Math.random()] is one half, [0.i] in base 36. *)
Definition lobby_from_folder : create_body :=
  mkBody (Some "Lobby") (Some 25565%Z) (Some 2048%Z) (Some "mods/paper.jar").

(** A request whose jar is ["."] twice: its base name is itself and has no
    separator in it. *)
Definition lobby_of_parent : create_body :=
  mkBody (Some "Lobby") (Some 25565%Z) None (Some "..").

Definition created_of_parent : state :=
  (create home lobby_of_parent "0.k3x9qzr1" booted).2.

(** A log of 3000 short lines. *)
Definition short_log : string := Str.join Str.nl (replicate 3000 "ok").

Definition with_short_log : state :=
  mkState ∅ [] (Some (Parsed [Server.mk "lobby-k3x9q" "Lobby" 25565 2048 "paper.jar"
                                "/srv/data/servers/lobby-k3x9q"]))
    {[ "/srv/data/servers/lobby-k3x9q/console.log" := File short_log ]} [].

(** A log of two lines, the first ended by CR LF. *)
Definition brief_log : string :=
  "Starting" ++ String Str.CR Str.nl ++ "Done" ++ Str.nl.

Definition with_brief_log : state :=
  mkState ∅ [] (Some (Parsed [Server.mk "lobby-k3x9q" "Lobby" 25565 2048 "paper.jar"
                                "/srv/data/servers/lobby-k3x9q"]))
    {[ "/srv/data/servers/lobby-k3x9q/console.log" := File brief_log ]} [].

(** A log whose one line ends in the Latin-1 byte of an accented letter,
    which is not UTF-8. *)
Definition latin_log : string := "caf" ++ String (ascii_of_N 233) Str.nl.

Definition with_latin_log : state :=
  mkState ∅ [] (Some (Parsed [Server.mk "lobby-k3x9q" "Lobby" 25565 2048 "paper.jar"
                                "/srv/data/servers/lobby-k3x9q"]))
    {[ "/srv/data/servers/lobby-k3x9q/console.log" := File latin_log ]} [].

(** The record [create] wrote for the lobby. *)
Definition lobby_record : Server.t :=
  Server.mk lobby_id "Lobby" 25565 2048 "paper.jar" "/srv/data/servers/lobby-k3x9q".

(** A second request whose name has the slug of the first, handled in a
    call where [Math.random()] gives the same digits again. *)
Definition lobby_again : create_body :=
  mkBody (Some "LOBBY!") (Some 25570%Z) None (Some "paper.jar").

Definition created_twice : state := (create home lobby_again "0.k3x9qzr1" created).2.

Definition lobby_again_record : Server.t :=
  Server.mk lobby_id "LOBBY!" 25570 1024 "paper.jar" "/srv/data/servers/lobby-k3x9q".

(** A second instance, created and started beside the running lobby. *)
Definition creative_body : create_body :=
  mkBody (Some "Creative") (Some 25566%Z) None (Some "paper.jar").

(** What goes on after the lobby was told to stop: the second instance is
    created and started, the lobby writes a last line, the second
    instance exits. *)
Definition meanwhile : list event :=
  [Request (Create creative_body "0.a1b2cz"); Request (Start "creative-a1b2c" 4300);
   Data 0 "Done"; Close 1 (Some 0%Z)].

(** A registry file that does not parse. *)
Definition corrupted : state := boot home (Some Unparseable) fresh_disk.

(** The installation with a file where the directory of the lobby would
    go, and with a folder where its [eula.txt] would go. *)
Definition blocked : state :=
  set_disk (<["/srv/data/servers/lobby-k3x9q" := File "x"]> (disk booted)) booted.

Definition eula_folder : state :=
  set_disk (<["/srv/data/servers/lobby-k3x9q/eula.txt" := Dir]> (disk booted)) booted.

(** A jar uploaded from a folder, with a blank in its name. *)
Definition upload_name : string := "builds/paper 1.21.jar".

(** A log of 3000 lines of 1000 characters each, about three megabytes. *)
Definition long_line : string := string_of_list_ascii (replicate 1000 (ascii_of_N 120)).

Definition large_log : string := Str.join Str.nl (replicate 3000 long_line).

Definition with_large_log : state :=
  mkState ∅ [] (Some (Parsed [lobby_record]))
    {[ "/srv/data/servers/lobby-k3x9q/console.log" := File large_log ]} [].

End Demo.

(** ** The jar upload and the jar listing *)

(** [s.endsWith(suffix)]: some tail of [s] is [suffix]. *)
Fixpoint ends_with (suffix s : string) : bool :=
  String.eqb s suffix
  || match s with
     | EmptyString => false
     | String _ s' => ends_with suffix s'
     end.

(** [s.slice(n)] *)
Fixpoint str_drop (n : nat) (s : string) : string :=
  match n, s with
  | O, _ => s
  | S n', String _ s' => str_drop n' s'
  | S _, EmptyString => EmptyString
  end.

(** The class [[a-zA-Z0-9._-]] of the upload's file name. *)
Definition safe_char (c : ascii) : bool :=
  Str.is_lower c || Str.is_upper c || Str.is_digit c
  || Ascii.eqb c (ascii_of_N 46) || Ascii.eqb c (ascii_of_N 95)
  || Ascii.eqb c Str.dash.

(** [.replace(/[^a-zA-Z0-9._-]/g, '_')] *)
Fixpoint sanitize (s : string) : string :=
  match s with
  | EmptyString => EmptyString
  | String c s' =>
      String (if safe_char c then c else ascii_of_N 95) (sanitize s')
  end.

Fixpoint all_safe (s : string) : bool :=
  match s with
  | EmptyString => true
  | String c s' => safe_char c && all_safe s'
  end.

(** The [filename] callback of the multer storage. *)
Definition upload_filename (originalname : string) : string :=
  sanitize (Path.basename originalname).

(** The [fileFilter] of the upload. *)
Definition file_filter (originalname : string) : bool :=
  ends_with ".jar" originalname.

(** What [POST /api/uploadJar] answers: [{ ok: true, filename }], or the
    error page Express makes of an error passed on or thrown. *)
Inductive upload_response :=
| Uploaded (filename : string)
| UploadFailed (status : nat).

(** [limits.fileSize]: 200 MB. *)
Definition fileSize : N := 1024 * 1024 * 200.

(** [POST /api/uploadJar] with the file part [jar] of the form, if there is
    one, as its original name and its bytes. multer asks the filter first,
    then opens a write stream on the destination joined with the name the
    storage gives; the stream fails when the destination is not a
    directory or when a directory stands at the path. A file of more than
    [fileSize] bytes is cut off at the limit and the upload fails; the
    stream has by then replaced what stood at the path, and multer
    unlinks what the stream wrote, so nothing is left there.
    Every failure goes to the default error handler of Express. Without a
    file part the handler throws on [req.file.filename]. *)
Definition uploadJar (d : string) (file : option (string * string)) (st : state)
  : upload_response * state :=
  match file with
  | None => (UploadFailed 500, st)
  | Some (originalname, content) =>
      if negb (file_filter originalname) then (UploadFailed 500, st)
      else
        let filename := upload_filename originalname in
        let finalPath := Path.join [JAR_DIR d; filename] in
        match disk st !! JAR_DIR d with
        | Some Dir =>
            match Fs.writeFileSync finalPath content (disk st) with
            | None => (UploadFailed 500, st)
            | Some fs =>
                if (fileSize <? N.of_nat (String.length content))%N
                then (UploadFailed 500, set_disk (Fs.unlink finalPath (disk st)) st)
                else (Uploaded (Path.basename filename), set_disk fs st)
            end
        | _ => (UploadFailed 500, st)
        end
  end.

(** The name of [p] inside the directory [d], when [p] is an entry of [d]
    itself. *)
Definition child_name (d p : string) : option string :=
  if Fs.under d p then
    let n := str_drop (String.length d + 1) p in
    if Path.no_slash n && negb (Str.is_empty n) then Some n else None
  else None.

(** [fs.readdirSync(d)]; the order of the names is not specified. *)
Definition readdirSync (d : string) (fs : gmap string node) : list string :=
  omap (child_name d) (map_to_list fs).*1.

(** [GET /api/jars]: the array answered, or [None] when [readdirSync]
    throws because a file stands where the directory should be. *)
Definition list_jars (d : string) (st : state) : option (list string) :=
  match disk st !! JAR_DIR d with
  | None => Some []
  | Some Dir =>
      Some (filter (λ f, ends_with ".jar" f = true)
              (readdirSync (JAR_DIR d) (disk st)))
  | Some (File _) => None
  end.

(** ** The dashboard's console line ([app.js]) *)

(** The click handler of the send button: the input is trimmed, nothing is
    sent for an empty command, otherwise the command goes into the body of
    [POST /api/servers/:id/command]. *)
Definition dashboard_command (value : string) : option string :=
  let cmd := Str.trim value in
  if Str.is_empty cmd then None else Some cmd.

(** ** Vocabulary of the statements *)

(** [s] with every carriage return that stands before a line feed left
    out. *)
Fixpoint crlf_to_lf (s : string) : string :=
  match s with
  | EmptyString => EmptyString
  | String c s' =>
      if Ascii.eqb c Str.CR then
        match s' with
        | String c' _ =>
            if Ascii.eqb c' Str.LF then crlf_to_lf s' else String c (crlf_to_lf s')
        | EmptyString => String c (crlf_to_lf s')
        end
      else String c (crlf_to_lf s')
  end.

(** Every byte of [s] is below 128. *)
Fixpoint is_ascii (s : string) : bool :=
  match s with
  | EmptyString => true
  | String c s' => (Str.code c <=? 127)%N && is_ascii s'
  end.

(** [s] is well-formed UTF-8: decoding it replaces nothing. *)
Definition well_formed_utf8 (s : string) : Prop := toString_utf8 s = s.

(** No carriage return in [s]. *)
Fixpoint no_cr (s : string) : bool :=
  match s with
  | EmptyString => true
  | String c s' => negb (Ascii.eqb c Str.CR) && no_cr s'
  end.

(** No two dashes in a row. *)
Fixpoint no_double_dash (s : string) : bool :=
  match s with
  | EmptyString => true
  | String c s' =>
      negb (Ascii.eqb c Str.dash && Str.startsWith Str.dash s')
      && no_double_dash s'
  end.

(** The child at [h] was launched for the record its id has now. *)
Definition launched_from_record (d : string) (st : state) (h : nat) (c : child) : Prop :=
  ∃ s, find_server (owner c) (registry st) = Some s
       ∧ command c = "java"
       ∧ cwd c = Server.dir s
       ∧ logStream c = Path.join [Server.dir s; "console.log"]
       ∧ args c = launch_args s (Path.join [JAR_DIR d; Server.jar s]).

(** * Properties *)

(** ** The library functions on examples *)

Example trim_example : Str.trim "  say hi  " = "say hi".
Proof. reflexivity. Qed.
Example join_plain : Path.join ["/app/data/jars"; "paper.jar"] = "/app/data/jars/paper.jar".
Proof. reflexivity. Qed.
Example join_parent : Path.join ["/app/data/jars"; ".."] = "/app/data".
Proof. reflexivity. Qed.
Example join_rel : Path.join ["a/../../b/"; "./c"] = "../b/c".
Proof. reflexivity. Qed.
Example basename_dirs : Path.basename "mods//paper.jar//" = "paper.jar".
Proof. reflexivity. Qed.
Example basename_dotdot : Path.basename "x/.." = "..".
Proof. reflexivity. Qed.
Example basename_root : Path.basename "/" = "".
Proof. reflexivity. Qed.
Example generateId_example : generateId "My  Server #1!" "0.k3x9qzr1abc" = "my-server-1-k3x9q".
Proof. reflexivity. Qed.
Example generateId_short : generateId "--Lobby--" "0.i" = "lobby-i".
Proof. reflexivity. Qed.
Example split_lines_example :
  split_lines ("a" ++ String Str.CR Str.nl ++ "b" ++ Str.nl ++ String Str.CR "c" ++ Str.nl)
  = ["a"; "b"; String Str.CR "c"; ""].
Proof. reflexivity. Qed.

(** ** Loading the registry *)

Lemma loadServers_frame st :
  procMap (loadServers st).2 = procMap st
  ∧ children (loadServers st).2 = children st
  ∧ stateFile (loadServers st).2 = stateFile st
  ∧ disk (loadServers st).2 = disk st.
Proof.
  unfold loadServers. destruct (stateFile st) as [[|l]|] eqn:E; simpl; auto.
Qed.

Lemma loadServers_pair st : loadServers st = (registry st, (loadServers st).2).
Proof. unfold registry. by destruct (loadServers st). Qed.

Lemma registry_stateFile st st' :
  stateFile st' = stateFile st → registry st' = registry st.
Proof. unfold registry, loadServers. intros ->. by destruct (stateFile st) as [[|?]|]. Qed.

Lemma registry_saved l st : registry (saveServers l st) = l.
Proof. reflexivity. Qed.

Lemma same_world_refl st : same_world st st.
Proof. by repeat split. Qed.

Lemma same_world_load st : same_world st (loadServers st).2.
Proof. apply loadServers_frame. Qed.

(** ** Start *)

Lemma start_mapped (d id : string) (p : Z) (st : state) :
  is_Some (procMap st !! id) →
  start d id p st = (Res 400 (Error "Already running"), st).
Proof. intros Hin. unfold start. by rewrite bool_decide_true. Qed.

Lemma start_unknown (d id : string) (p : Z) (st : state) :
  procMap st !! id = None → find_server id (registry st) = None →
  start d id p st = (Res 404 (Error "Not found"), (loadServers st).2).
Proof.
  intros Hno Hnf. unfold start, getServer. rewrite (loadServers_pair st).
  rewrite bool_decide_false by (rewrite Hno; by intros [? ?]).
  by rewrite Hnf.
Qed.

Lemma start_jar_missing (d id : string) (p : Z) (st : state) (s : Server.t) :
  procMap st !! id = None → find_server id (registry st) = Some s →
  Fs.existsSync (Path.join [JAR_DIR d; Server.jar s]) (disk st) = false →
  start d id p st = (Res 400 (Error "JAR missing on disk"), (loadServers st).2).
Proof.
  intros Hno Hs Hj. unfold start, getServer. rewrite (loadServers_pair st).
  pose proof (loadServers_frame st) as (_ & _ & _ & Hd).
  rewrite bool_decide_false by (rewrite Hno; by intros [? ?]).
  by rewrite Hs, Hd, Hj.
Qed.

Lemma start_spawns (d id : string) (p : Z) (st : state) (s : Server.t) :
  procMap st !! id = None → find_server id (registry st) = Some s →
  Fs.existsSync (Path.join [JAR_DIR d; Server.jar s]) (disk st) = true →
  (start d id p st).1 = Res 200 (OkPid p)
  ∧ children (start d id p st).2
    = (children st
       ++ [mkChild id p "java"
             (launch_args s (Path.join [JAR_DIR d; Server.jar s]))
             (Server.dir s) [] (Path.join [Server.dir s; "console.log"]) false])%list
  ∧ procMap (start d id p st).2 = <[id := length (children st)]> (procMap st).
Proof.
  intros Hno Hs Hj. unfold start, getServer. rewrite (loadServers_pair st).
  pose proof (loadServers_frame st) as (Hp & Hc & Hf & Hd).
  rewrite bool_decide_false by (rewrite Hno; by intros [? ?]).
  rewrite Hs, Hd, Hj. simpl. by rewrite Hp, Hc.
Qed.

(** The four ways a call of [start] can go. *)
Lemma start_cases (d id : string) (p : Z) (st : state) :
  (is_Some (procMap st !! id)
   ∧ start d id p st = (Res 400 (Error "Already running"), st))
  ∨ (procMap st !! id = None ∧ find_server id (registry st) = None
     ∧ start d id p st = (Res 404 (Error "Not found"), (loadServers st).2))
  ∨ (∃ s, procMap st !! id = None ∧ find_server id (registry st) = Some s
          ∧ Fs.existsSync (Path.join [JAR_DIR d; Server.jar s]) (disk st) = false
          ∧ start d id p st
            = (Res 400 (Error "JAR missing on disk"), (loadServers st).2))
  ∨ (∃ s, procMap st !! id = None ∧ find_server id (registry st) = Some s
          ∧ Fs.existsSync (Path.join [JAR_DIR d; Server.jar s]) (disk st) = true
          ∧ (start d id p st).1 = Res 200 (OkPid p)
          ∧ children (start d id p st).2
            = (children st
               ++ [mkChild id p "java"
                     (launch_args s (Path.join [JAR_DIR d; Server.jar s]))
                     (Server.dir s) []
                     (Path.join [Server.dir s; "console.log"]) false])%list
          ∧ procMap (start d id p st).2
            = <[id := length (children st)]> (procMap st)).
Proof.
  destruct (procMap st !! id) as [h|] eqn:Hid.
  { left. split; [done|]. apply start_mapped. by rewrite Hid. }
  right. destruct (find_server id (registry st)) as [s|] eqn:Hs.
  2:{ left. split; [done|]. split; [done|]. by apply start_unknown. }
  right. destruct (Fs.existsSync (Path.join [JAR_DIR d; Server.jar s]) (disk st)) eqn:Hj.
  - right. exists s. split; [done|]. split; [done|]. split; [done|].
    by apply (start_spawns d id p st s).
  - left. exists s. split; [done|]. split; [done|]. split; [done|].
    by apply (start_jar_missing d id p st s).
Qed.

Lemma start_succeeded d id p st :
  succeeded (start d id p st).1 = true →
  procMap st !! id = None
  ∧ ∃ s, find_server id (registry st) = Some s
         ∧ Fs.existsSync (Path.join [JAR_DIR d; Server.jar s]) (disk st) = true.
Proof.
  intros Hok.
  destruct (start_cases d id p st)
    as [(_ & Heq)|[(_ & _ & Heq)|[(s & _ & _ & _ & Heq)|(s & Hno & Hs & Hj & _)]]];
    [by rewrite Heq in Hok.. |].
  split; [done|]. by exists s.
Qed.

(** C1. [start] looks at the live mapping first, then at the registry,
    then at the jar on disk: a mapped id gets 400 "Already running"
    (Conflict); otherwise an id without record gets 404 "Not found"
    (NotFound); otherwise a record whose jar is not on disk gets 400
    "JAR missing on disk" (InvalidState). A failing call leaves the live
    mapping, the spawned children, the registry file and the disk as they
    were. Otherwise exactly one child is spawned, the id is mapped to it
    and the response carries its pid. *)
Theorem start_checks_in_order (d id : string) (p : Z) (st : state) :
  let resp := (start d id p st).1 in
  let st' := (start d id p st).2 in
  (is_Some (procMap st !! id) →
     resp = Res 400 (Error "Already running")
     ∧ kind_of resp = Some Conflict ∧ same_world st st')
  ∧ (procMap st !! id = None → find_server id (registry st) = None →
     resp = Res 404 (Error "Not found")
     ∧ kind_of resp = Some NotFound ∧ same_world st st')
  ∧ (∀ s, procMap st !! id = None → find_server id (registry st) = Some s →
     Fs.existsSync (Path.join [JAR_DIR d; Server.jar s]) (disk st) = false →
     resp = Res 400 (Error "JAR missing on disk")
     ∧ kind_of resp = Some InvalidState ∧ same_world st st')
  ∧ (∀ s, procMap st !! id = None → find_server id (registry st) = Some s →
     Fs.existsSync (Path.join [JAR_DIR d; Server.jar s]) (disk st) = true →
     resp = Res 200 (OkPid p)
     ∧ procMap st' = <[id := length (children st)]> (procMap st)
     ∧ ∃ c, children st' = (children st ++ [c])%list
            ∧ owner c = id ∧ pid c = p ∧ closed c = false).
Proof.
  cbv zeta. split; [|split; [|split]].
  - intros Hin. rewrite (start_mapped d id p st Hin).
    split; [done|]. split; [done|]. apply same_world_refl.
  - intros Hno Hnf. rewrite (start_unknown d id p st Hno Hnf).
    split; [done|]. split; [done|]. apply same_world_load.
  - intros s Hno Hs Hj. rewrite (start_jar_missing d id p st s Hno Hs Hj).
    split; [done|]. split; [done|]. apply same_world_load.
  - intros s Hno Hs Hj.
    destruct (start_spawns d id p st s Hno Hs Hj) as (Hr & Hch & Hp).
    split; [done|]. split; [done|]. eexists. split; [exact Hch|]. done.
Qed.

(** ** The live mapping and the children *)

Lemma consistent_frame st st' :
  procMap st' = procMap st → children st' = children st →
  consistent st → consistent st'.
Proof. intros Hp Hc [H1 H2]. split; rewrite Hp, Hc; auto. Qed.

Lemma create_frame d body r st :
  procMap (create d body r st).2 = procMap st
  ∧ children (create d body r st).2 = children st.
Proof.
  unfold create.
  destruct (_ || _); [done|].
  destruct (negb _); [done|].
  destruct (Fs.mkdirSync _ _) as [fs1|]; [|done]. cbn [disk set_disk].
  destruct (if Fs.existsSync _ fs1 then _ else _) as [fs2|]; [|done].
  cbn [disk set_disk].
  destruct (Fs.writeFileSync _ _ fs2) as [fs3|]; [|done].
  match goal with |- context [loadServers ?s] =>
    rewrite (loadServers_pair s);
    pose proof (loadServers_frame s) as (Hp & Hc & _ & _) end.
  unfold saveServers, set_stateFile. cbn [fst snd procMap children].
  by rewrite Hp, Hc.
Qed.

(** The record [create] answers has a memory limit: the one of the
    request, or 1024 when that is missing or 0. *)
Lemma create_record_has_limit d body r st s :
  (create d body r st).1 = Res 200 (Record_ s) → Server.maxMemoryMB s ≠ 0%Z.
Proof.
  unfold create.
  destruct (_ || _); [done|].
  destruct (negb _); [done|].
  destruct (Fs.mkdirSync _ _) as [fs1|]; [|done]. cbn [disk set_disk].
  destruct (if Fs.existsSync _ fs1 then _ else _) as [fs2|]; [|done].
  cbn [disk set_disk].
  destruct (Fs.writeFileSync _ _ fs2) as [fs3|]; [|done].
  match goal with |- context [loadServers ?s] => rewrite (loadServers_pair s) end.
  cbn [fst]. intros [= <-]. cbn [Server.maxMemoryMB].
  destruct (b_maxMemoryMB body) as [m|]; [|done]. simpl.
  by destruct (Z.eqb_spec m 0).
Qed.

Lemma delete_frame id st :
  procMap (delete_server id st).2 = procMap st
  ∧ children (delete_server id st).2 = children st.
Proof.
  unfold delete_server. rewrite (loadServers_pair st).
  pose proof (loadServers_frame st) as (Hp & Hc & _ & _).
  destruct (find_server _ _); [|done].
  by destruct (bool_decide _).
Qed.

Lemma list_frame st : same_world st (list_servers st).2.
Proof.
  unfold list_servers. rewrite (loadServers_pair st). apply same_world_load.
Qed.

Lemma logs_frame id st : same_world st (logs id st).2.
Proof.
  unfold logs, getServer. rewrite (loadServers_pair st).
  destruct (find_server _ _); [|apply same_world_load].
  destruct (disk _ !! _) as [[|?]|]; apply same_world_load.
Qed.

Lemma stdin_write_lookup h chunk st h' :
  children (stdin_write h chunk st) !! h'
  = (λ c, if decide (h = h')
          then mkChild (owner c) (pid c) (command c) (args c) (cwd c)
                 (stdin c ++ [chunk]) (logStream c) (closed c)
          else c) <$> children st !! h'.
Proof.
  unfold stdin_write. simpl. destruct (decide (h = h')) as [->|Hne].
  - by rewrite list_lookup_alter_eq.
  - rewrite list_lookup_alter_ne by done. by destruct (children st !! h').
Qed.

Lemma stdin_write_consistent h chunk st :
  consistent st → consistent (stdin_write h chunk st).
Proof.
  intros [H1 H2]. split.
  - intros id h' Hh'. destruct (H1 id h' Hh') as (c & Hc & Ho & Hcl).
    rewrite stdin_write_lookup, Hc. simpl.
    destruct (decide (h = h')); eexists; (split; [reflexivity|]); done.
  - intros h' c. rewrite stdin_write_lookup.
    destruct (children st !! h') as [c0|] eqn:E; [|done]. simpl.
    intros [= <-] Hcl. destruct (decide (h = h')); simpl in *; by apply H2.
Qed.

Lemma start_consistent d id p st : consistent st → consistent (start d id p st).2.
Proof.
  intros Hst. pose proof (loadServers_frame st) as (Hlp & Hlc & _).
  destruct (start_cases d id p st)
    as [(_ & ->)|[(_ & _ & ->)|[(s & _ & _ & _ & ->)
        |(s & Hid & _ & _ & _ & Hch & Hp)]]];
    [done | by eapply consistent_frame | by eapply consistent_frame |].
  destruct Hst as [H1 H2]. split; rewrite Hp, Hch.
  - intros id' h'. destruct (decide (id = id')) as [<-|Hne].
    + rewrite lookup_insert_eq. intros [= <-]. eexists.
      split; [rewrite lookup_app_r by done; by rewrite Nat.sub_diag | done].
    + rewrite lookup_insert_ne by done. intros Hh'.
      destruct (H1 _ _ Hh') as (c' & Hc' & ?). exists c'. split; [|done].
      by apply lookup_app_l_Some.
  - intros h' c' Hl Hcl'. apply lookup_app_Some in Hl as [Hl|[Hlen Hl]].
    + assert (owner c' ≠ id) as Hne.
      { intros Heq. pose proof (H2 _ _ Hl Hcl') as Hm. rewrite Heq, Hid in Hm. done. }
      rewrite lookup_insert_ne by done. by apply H2.
    + destruct (h' - length (children st)) as [|n] eqn:En; [|by destruct n].
      simpl in Hl. injection Hl as <-. simpl. rewrite lookup_insert_eq.
      f_equal. lia.
Qed.

Lemma on_close_consistent h code st : consistent st → consistent (on_close h code st).
Proof.
  intros [H1 H2]. unfold on_close.
  destruct (children st !! h) as [c|] eqn:Hc; [|done].
  destruct (closed c) eqn:Hcl; [done|]. split; simpl.
  - intros id h'. destruct (decide (owner c = id)) as [<-|Hne].
    { by rewrite lookup_delete_eq. }
    rewrite lookup_delete_ne by done. intros Hh'.
    destruct (H1 _ _ Hh') as (c' & Hc' & Ho & Hcl').
    assert (h ≠ h') by (intros <-; congruence).
    exists c'. by rewrite list_lookup_alter_ne.
  - intros h' c'. destruct (decide (h = h')) as [<-|Hne].
    { rewrite list_lookup_alter_eq, Hc. simpl. by intros [= <-]. }
    rewrite list_lookup_alter_ne by done. intros Hc' Hcl'.
    pose proof (H2 _ _ Hc' Hcl') as Hm. pose proof (H2 _ _ Hc Hcl) as Hm0.
    assert (owner c ≠ owner c') by (intros Heq; rewrite Heq in Hm0; congruence).
    by rewrite lookup_delete_ne.
Qed.

Lemma handle_consistent d q st : consistent st → consistent (handle d q st).2.
Proof.
  intros Hst. destruct q as [|body r|id|id p|id|id cmd|id]; simpl.
  - destruct (list_frame st) as (? & ? & _). by eapply consistent_frame.
  - destruct (create_frame d body r st). by eapply consistent_frame.
  - destruct (delete_frame id st). by eapply consistent_frame.
  - by apply start_consistent.
  - unfold stop. destruct (procMap st !! id); [|done].
    by apply stdin_write_consistent.
  - unfold send_command. destruct (procMap st !! id); [|done].
    destruct (str_falsy cmd); [done|]. by apply stdin_write_consistent.
  - destruct (logs_frame id st) as (? & ? & _). by eapply consistent_frame.
Qed.

Lemma step_consistent d e st : consistent st → consistent (step d e st).
Proof.
  intros Hst. destruct e as [q|h chunk|h code]; simpl.
  - by apply handle_consistent.
  - unfold on_data. destruct (children st !! h) as [c|]; [|done].
    destruct (closed c); [done|]. by eapply consistent_frame.
  - by apply on_close_consistent.
Qed.

Lemma reachable_consistent d st : reachable d st → consistent st.
Proof.
  induction 1 as [file fs|e st _ IH].
  - split; simpl; intros ? ?; [by rewrite lookup_empty | done].
  - by apply step_consistent.
Qed.

Lemma run_consistent d es st : consistent st → consistent (run d es st).
Proof.
  revert st. induction es as [|e es IH]; intros st Hst; [done|].
  simpl. apply IH. by apply step_consistent.
Qed.

Lemma run_reachable d es st : reachable d st → reachable d (run d es st).
Proof.
  revert st. induction es as [|e es IH]; intros st Hst; [done|].
  simpl. apply IH. by constructor.
Qed.

(** No request handler takes an id out of the live mapping. *)
Lemma handle_keeps_mapping d q st id h :
  procMap st !! id = Some h → procMap (handle d q st).2 !! id = Some h.
Proof.
  intros Hid. destruct q as [|body r|id'|id' p|id'|id' cmd|id']; simpl.
  - destruct (list_frame st) as (-> & _). done.
  - destruct (create_frame d body r st) as (-> & _). done.
  - destruct (delete_frame id' st) as (-> & _). done.
  - pose proof (loadServers_frame st) as (Hlp & _).
    destruct (start_cases d id' p st)
      as [(_ & ->)|[(_ & _ & ->)|[(s & _ & _ & _ & ->)
          |(s & Hid' & _ & _ & _ & _ & ->)]]];
      [done | simpl; by rewrite Hlp | simpl; by rewrite Hlp |].
    rewrite lookup_insert_ne; [done|]. intros ->. congruence.
  - unfold stop. by destruct (procMap st !! id').
  - unfold send_command. destruct (procMap st !! id'); [|done].
    by destruct (str_falsy cmd).
  - destruct (logs_frame id' st) as (-> & _). done.
Qed.

Lemma run_keeps_mapping d es st id h :
  Forall (λ e, is_close e = false) es →
  procMap st !! id = Some h → procMap (run d es st) !! id = Some h.
Proof.
  intros Hes. revert st. induction Hes as [|e es He _ IH]; intros st Hid; [done|].
  simpl. apply IH. destruct e as [q|h' chunk|h' code]; simpl; [| |done].
  - by apply handle_keeps_mapping.
  - unfold on_data. destruct (children st !! h') as [c|]; [|done].
    by destruct (closed c).
Qed.

(** C2. In every state the manager can reach, two children that have not
    closed and were started for the same id are the same child, and the
    live mapping holds exactly the children that have not closed. Of two
    [start] calls for the same id with no close event between them, the
    second gets 400 "Already running" (Conflict) whenever the first
    succeeds, and the first does succeed for an id that can be started:
    then exactly one of the two succeeds. *)
Theorem one_live_process_per_id (d : string) (st : state) :
  reachable d st →
  (∀ h1 h2 c1 c2,
     live st h1 c1 → live st h2 c2 → owner c1 = owner c2 → h1 = h2)
  ∧ (∀ id h, procMap st !! id = Some h ↔ ∃ c, live st h c ∧ owner c = id)
  ∧ (∀ id p p' es,
       Forall (λ e, is_close e = false) es →
       let first := start d id p st in
       let second := start d id p' (run d es first.2) in
       (succeeded first.1 = true →
          second.1 = Res 400 (Error "Already running")
          ∧ kind_of second.1 = Some Conflict
          ∧ succeeded second.1 = false
          ∧ procMap second.2 !! id = Some (length (children st)))
       ∧ (startable d id st →
          first.1 = Res 200 (OkPid p) ∧ succeeded first.1 = true)).
Proof.
  intros Hr. pose proof (reachable_consistent d st Hr) as [H1 H2].
  split; [|split].
  - intros h1 h2 c1 c2 [Hc1 Hl1] [Hc2 Hl2] Ho.
    pose proof (H2 _ _ Hc1 Hl1) as Hm1. pose proof (H2 _ _ Hc2 Hl2) as Hm2.
    rewrite Ho in Hm1. congruence.
  - intros id h. split.
    + intros Hid. destruct (H1 _ _ Hid) as (c & ? & ? & ?). by exists c.
    + intros (c & [Hc Hl] & <-). by apply H2.
  - intros id p p' es Hes. cbv zeta. split.
    + intros Hok. destruct (start_succeeded d id p st Hok) as (Hno & s & Hs & Hj).
      destruct (start_spawns d id p st s Hno Hs Hj) as (_ & _ & Hp).
      assert (procMap (run d es (start d id p st).2) !! id
              = Some (length (children st))) as Hrun.
      { apply run_keeps_mapping; [done|]. rewrite Hp. apply lookup_insert_eq. }
      rewrite (start_mapped d id p' (run d es (start d id p st).2))
        by (by rewrite Hrun).
      done.
    + intros (Hno & s & Hs & Hj).
      destruct (start_spawns d id p st s Hno Hs Hj) as (Hresp & _).
      by rewrite Hresp.
Qed.

(** ** Stop and the close observer *)

Lemma same_child_refl c : same_child c c.
Proof. by repeat split. Qed.

Lemma same_child_trans c1 c2 c3 : same_child c1 c2 → same_child c2 c3 → same_child c1 c3.
Proof.
  intros (?&?&?&?&?&?&?) (?&?&?&?&?&?&?). repeat split; congruence.
Qed.

Lemma stdin_write_keeps_child h chunk st h' c :
  children st !! h' = Some c →
  ∃ c', children (stdin_write h chunk st) !! h' = Some c' ∧ same_child c c'.
Proof.
  intros Hc. rewrite stdin_write_lookup, Hc. simpl.
  destruct (decide (h = h')); eexists; (split; [reflexivity|]); by repeat split.
Qed.

Lemma handle_keeps_child d q st h c :
  children st !! h = Some c →
  ∃ c', children (handle d q st).2 !! h = Some c' ∧ same_child c c'.
Proof.
  intros Hh. destruct q as [|body r|id'|id' p|id'|id' cmd|id']; simpl.
  - destruct (list_frame st) as (_ & -> & _). eauto using same_child_refl.
  - destruct (create_frame d body r st) as (_ & ->). eauto using same_child_refl.
  - destruct (delete_frame id' st) as (_ & ->). eauto using same_child_refl.
  - pose proof (loadServers_frame st) as (_ & Hlc & _).
    destruct (start_cases d id' p st)
      as [(_ & ->)|[(_ & _ & ->)|[(s & _ & _ & _ & ->)
          |(s & _ & _ & _ & _ & -> & _)]]];
      simpl; rewrite ?Hlc; eauto using same_child_refl.
    exists c. split; [by apply lookup_app_l_Some | apply same_child_refl].
  - unfold stop. destruct (procMap st !! id'); simpl.
    + by apply stdin_write_keeps_child.
    + eauto using same_child_refl.
  - unfold send_command. destruct (procMap st !! id'); simpl.
    + destruct (str_falsy cmd); simpl.
      * eauto using same_child_refl.
      * by apply stdin_write_keeps_child.
    + eauto using same_child_refl.
  - destruct (logs_frame id' st) as (_ & -> & _). eauto using same_child_refl.
Qed.

Lemma run_keeps_child d es st h c :
  Forall (λ e, is_close e = false) es →
  children st !! h = Some c →
  ∃ c', children (run d es st) !! h = Some c' ∧ same_child c c'.
Proof.
  intros Hes. revert st c.
  induction Hes as [|e es He _ IH]; intros st c Hc.
  { exists c. split; [done | apply same_child_refl]. }
  simpl. destruct e as [q|h' chunk|h' code]; simpl; [| |done].
  - destruct (handle_keeps_child d q st h c Hc) as (c1 & Hc1 & Hs1).
    destruct (IH _ _ Hc1) as (c2 & Hc2 & Hs2).
    exists c2. split; [done|]. by eapply same_child_trans.
  - assert (children (on_data h' chunk st) = children st) as Heq.
    { unfold on_data. destruct (children st !! h') as [c0|]; [|done].
      by destruct (closed c0). }
    apply IH. by rewrite Heq.
Qed.

(** A close event of another child does not unmap the id, and leaves the
    child alone. *)
Lemma step_keeps_mapping_of d e st id h :
  consistent st → closes h e = false →
  procMap st !! id = Some h → procMap (step d e st) !! id = Some h.
Proof.
  intros [H1 H2] He Hid. destruct e as [q|h' chunk|h' code]; simpl.
  - by apply handle_keeps_mapping.
  - unfold on_data. destruct (children st !! h') as [c|]; [|done].
    by destruct (closed c).
  - simpl in He. apply bool_decide_eq_false in He.
    unfold on_close. destruct (children st !! h') as [c'|] eqn:Hc'; [|done].
    destruct (closed c') eqn:Hcl'; [done|]. simpl.
    rewrite lookup_delete_ne; [done|]. intros <-.
    pose proof (H2 _ _ Hc' Hcl') as Hm. congruence.
Qed.

Lemma step_keeps_child_of d e st h c :
  closes h e = false → children st !! h = Some c →
  ∃ c', children (step d e st) !! h = Some c' ∧ same_child c c'.
Proof.
  intros He Hc. destruct e as [q|h' chunk|h' code]; simpl.
  - by apply handle_keeps_child.
  - exists c. split; [|apply same_child_refl].
    unfold on_data. destruct (children st !! h') as [c0|]; [|done].
    by destruct (closed c0).
  - simpl in He. apply bool_decide_eq_false in He.
    exists c. split; [|apply same_child_refl].
    unfold on_close. destruct (children st !! h') as [c'|]; [|done].
    destruct (closed c'); [done|]. simpl. by rewrite list_lookup_alter_ne.
Qed.

Lemma run_keeps_mapped_child d es st id h c :
  consistent st → Forall (λ e, closes h e = false) es →
  procMap st !! id = Some h → children st !! h = Some c →
  procMap (run d es st) !! id = Some h
  ∧ ∃ c', children (run d es st) !! h = Some c' ∧ same_child c c'.
Proof.
  intros Hst Hes. revert st c Hst.
  induction Hes as [|e es He _ IH]; intros st c Hst Hid Hc.
  { split; [done|]. exists c. split; [done | apply same_child_refl]. }
  simpl.
  destruct (step_keeps_child_of d e st h c He Hc) as (c1 & Hc1 & Hs1).
  destruct (IH (step d e st) c1) as (Hm & c2 & Hc2 & Hs2);
    [by apply step_consistent | by apply step_keeps_mapping_of | done |].
  split; [done|]. exists c2. split; [done|]. by eapply same_child_trans.
Qed.

(** The exit code reaches the trailer in decimal, a signal as [null]. *)
Lemma show_code_examples :
  show_code (Some 0%Z) = "0" ∧ show_code (Some 1%Z) = "1"
  ∧ show_code (Some 137%Z) = "137" ∧ show_code None = "null".
Proof. vm_compute. repeat split; reflexivity. Qed.

(** C3. For an id mapped to a child, [stop] answers 200 at once; its one
    effect is the chunk "stop" plus newline appended to that child's
    stdin: the live mapping, the other children, the disk and the
    registry stay as they were and the child is not closed. The id stays
    mapped through any run of requests, of output and of close events of
    other children: only the close event of this child is left out. When
    the close observer of the child fires, the id leaves the mapping and
    the trailer naming the exit code (the number [n] in decimal, [null]
    after a signal) is appended to the child's log file. For an id that
    is not mapped, [stop] answers 400 "Not running" (InvalidState) and
    changes nothing. *)
Theorem stop_is_fire_and_forget (d id : string) (st : state) :
  reachable d st →
  (∀ h, procMap st !! id = Some h →
     ∃ c, live st h c ∧ owner c = id
       ∧ (stop id st).1 = Res 200 Ok
       ∧ procMap (stop id st).2 = procMap st
       ∧ stateFile (stop id st).2 = stateFile st
       ∧ disk (stop id st).2 = disk st
       ∧ children (stop id st).2 !! h
         = Some (mkChild (owner c) (pid c) (command c) (args c) (cwd c)
                   (stdin c ++ ["stop" ++ Str.nl]) (logStream c) false)
       ∧ (∀ h', h' ≠ h → children (stop id st).2 !! h' = children st !! h')
       ∧ ∀ es, Forall (λ e, closes h e = false) es →
           let st1 := run d es (stop id st).2 in
           procMap st1 !! id = Some h
           ∧ ∀ code,
               let st2 := on_close h code st1 in
               procMap st2 = delete id (procMap st1)
               ∧ Fs.content_of (logStream c) (disk st2)
                 = Fs.content_of (logStream c) (disk st1)
                   ++ Str.nl ++ "[process exited with code "
                   ++ match code with Some n => pretty n | None => "null" end
                   ++ "]" ++ Str.nl)
  ∧ (procMap st !! id = None →
       stop id st = (Res 400 (Error "Not running"), st)
       ∧ kind_of (stop id st).1 = Some InvalidState).
Proof.
  intros Hr. pose proof (reachable_consistent d st Hr) as Hcons.
  pose proof Hcons as [H1 H2].
  split.
  - intros h Hid. destruct (H1 _ _ Hid) as (c & Hc & Ho & Hcl).
    exists c. split; [done|]. split; [done|].
    unfold stop. rewrite Hid. cbn [fst snd].
    split; [done|]. split; [done|]. split; [done|]. split; [done|].
    split.
    { rewrite stdin_write_lookup, Hc. simpl. rewrite decide_True by done.
      by rewrite Hcl. }
    split.
    { intros h' Hne. rewrite stdin_write_lookup.
      destruct (children st !! h'); [|done]. simpl.
      by rewrite decide_False. }
    intros es Hes. cbv zeta.
    destruct (stdin_write_keeps_child h ("stop" ++ Str.nl) st h c Hc)
      as (c1 & Hc1 & Hs1).
    destruct (run_keeps_mapped_child d es (stdin_write h ("stop" ++ Str.nl) st)
                id h c1) as (Hm & c2 & Hc2 & Hs2);
      [by apply stdin_write_consistent | done | done | done |].
    split; [done|]. intros code.
    destruct (same_child_trans _ _ _ Hs1 Hs2) as (Ho2 & _ & _ & _ & _ & Hl2 & Hcl2).
    unfold on_close. rewrite Hc2, Hcl2, Hcl. cbn [procMap disk set_children set_disk set_procMap].
    rewrite Ho2, Ho, Hl2. split; [done|].
    unfold Fs.append, Fs.content_of at 1. rewrite lookup_insert_eq.
    by destruct code.
  - intros Hno. unfold stop. by rewrite Hno.
Qed.

(** ** The command channel *)

Lemma send_command_cases (id : string) (cmd : option string) (st : state) :
  (procMap st !! id = None →
     send_command id cmd st = (Res 400 (Error "Not running"), st))
  ∧ (∀ h, procMap st !! id = Some h → str_falsy cmd = true →
     send_command id cmd st = (Res 400 (Error "command required"), st))
  ∧ (∀ h text, procMap st !! id = Some h → cmd = Some text → text ≠ EmptyString →
     send_command id cmd st
     = (Res 200 Ok, stdin_write h (Str.trim text ++ Str.nl) st)).
Proof.
  unfold send_command. split; [|split].
  - by intros ->.
  - by intros h -> ->.
  - intros h text -> -> Hne. by destruct text.
Qed.

(** C4, at the input where the handler and the claim part: a command of
    three blanks is empty after trimming, yet for a running instance the
    handler answers 200 and writes a lone newline to the child's stdin. *)
Theorem send_command_blank_is_written :
  procMap Demo.running !! Demo.lobby_id = Some 0
  ∧ Str.trim "   " = EmptyString
  ∧ (send_command Demo.lobby_id (Some "   ") Demo.running).1 = Res 200 Ok
  ∧ kind_of (send_command Demo.lobby_id (Some "   ") Demo.running).1 = None
  ∧ stdin <$> children (send_command Demo.lobby_id (Some "   ") Demo.running).2
    = [[Str.nl]].
Proof. vm_compute. done. Qed.

(** ** The launch of the process *)

(** A registry written by hand may hold a record whose memory limit is 0,
    which [create] never writes; such a record is started with the jar
    and the no-GUI flag only. *)
Lemma start_without_memory_limit :
  find_server "creative-a1b2c" (registry Demo.booted_by_hand) = Some Demo.creative
  ∧ (start Demo.home "creative-a1b2c" 77 Demo.booted_by_hand).1 = Res 200 (OkPid 77)
  ∧ args <$> children (start Demo.home "creative-a1b2c" 77 Demo.booted_by_hand).2
    = [["-jar"; "/srv/data/jars/paper.jar"; "nogui"]]
  ∧ args <$> children (start Demo.home "creative-a1b2c" 77 Demo.booted_by_hand).2
    ≠ [heap_then_jar_args (Server.maxMemoryMB Demo.creative) "/srv/data/jars/paper.jar"].
Proof. vm_compute. repeat split; done. Qed.

(** C8. Every successful [start] spawns [java] in the directory of the
    record of that id. For a record with a memory limit [M], a number
    other than 0, the arguments are [-XmxM], [-Xms] with [min(512, M)],
    [-jar], the path [path.join(JAR_DIR, jar)] of the record's jar and
    [nogui]; the minimum heap is never above 512. (A record without
    limit, [maxMemoryMB] 0, gets no heap arguments.) *)
Theorem start_launch_arguments (d id : string) (p : Z) (st : state) :
  succeeded (start d id p st).1 = true →
  ∃ s c,
    find_server id (registry st) = Some s
    ∧ children (start d id p st).2 = (children st ++ [c])%list
    ∧ procMap (start d id p st).2 !! id = Some (length (children st))
    ∧ command c = "java"
    ∧ cwd c = Server.dir s
    ∧ (Server.maxMemoryMB s ≠ 0%Z →
       args c = heap_then_jar_args (Server.maxMemoryMB s)
                  (Path.join [JAR_DIR d; Server.jar s])
       ∧ (Z.min 512 (Server.maxMemoryMB s) ≤ 512)%Z)
    ∧ (Server.maxMemoryMB s = 0%Z →
       args c = ["-jar"; Path.join [JAR_DIR d; Server.jar s]; "nogui"]).
Proof.
  intros Hok. destruct (start_succeeded d id p st Hok) as (Hno & s & Hs & Hj).
  destruct (start_spawns d id p st s Hno Hs Hj) as (_ & Hch & Hp).
  eexists s, _. split; [done|]. split; [exact Hch|].
  split; [by rewrite Hp, lookup_insert_eq|].
  split; [done|]. split; [done|]. cbn [args]. unfold launch_args. split.
  - intros HM. apply Z.eqb_neq in HM. rewrite HM. split; [done|]. lia.
  - intros HM. by rewrite HM.
Qed.

(** ** A registry file that is absent or does not parse *)

Lemma handle_empty_registry d q st :
  stateFile st = None ∨ stateFile st = Some Unparseable →
  (handle d q st).1 = (handle d q (with_registry [] st)).1
  ∧ same_view (handle d q st).2 (handle d q (with_registry [] st)).2.
Proof.
  intros Hsf. destruct st as [pm ch sf dk co]. simpl in Hsf.
  unfold with_registry, set_stateFile. simpl.
  destruct q as [|body r|id|id p|id|id cmd|id]; simpl.
  - unfold list_servers, loadServers. simpl.
    destruct Hsf as [->| ->]; simpl; by repeat split.
  - unfold create. simpl.
    destruct (_ || _); [destruct Hsf as [->| ->]; by repeat split|].
    destruct (negb _); [destruct Hsf as [->| ->]; by repeat split|].
    destruct (Fs.mkdirSync _ dk) as [fs1|];
      [|destruct Hsf as [->| ->]; by repeat split].
    simpl. destruct (if Fs.existsSync _ fs1 then _ else _) as [fs2|];
      [|destruct Hsf as [->| ->]; by repeat split].
    simpl. destruct (Fs.writeFileSync _ _ fs2) as [fs3|];
      [|destruct Hsf as [->| ->]; by repeat split].
    unfold loadServers, saveServers. simpl.
    destruct Hsf as [->| ->]; simpl; by repeat split.
  - unfold delete_server, loadServers. simpl.
    destruct Hsf as [->| ->]; simpl; by repeat split.
  - unfold start, getServer, loadServers. simpl.
    destruct (bool_decide _); [destruct Hsf as [->| ->]; by repeat split|].
    destruct Hsf as [->| ->]; simpl; by repeat split.
  - unfold stop. simpl. destruct (pm !! id); simpl;
      destruct Hsf as [->| ->]; by repeat split.
  - unfold send_command. simpl. destruct (pm !! id); simpl;
      [destruct (str_falsy cmd); simpl|];
      destruct Hsf as [->| ->]; by repeat split.
  - unfold logs, getServer, loadServers. simpl.
    destruct Hsf as [->| ->]; simpl; by repeat split.
Qed.

(** ** Strings, lines and the tail of a file *)

Lemma str_length_app (a b : string) :
  String.length (a ++ b) = String.length a + String.length b.
Proof. induction a as [|c a IH]; [done | exact (f_equal S IH)]. Qed.

Lemma str_app_nil_r (a : string) : a ++ "" = a.
Proof. induction a as [|c a IH]; [done | exact (f_equal (String c) IH)]. Qed.

Lemma str_app_assoc (a b c : string) : (a ++ b) ++ c = a ++ b ++ c.
Proof. induction a as [|x a IH]; [done | exact (f_equal (String x) IH)]. Qed.

Lemma substring_all (s : string) : String.substring 0 (String.length s) s = s.
Proof. induction s as [|c s IH]; [done | exact (f_equal (String c) IH)]. Qed.

(** The text from position [n] on is what is left after the first [n]
    characters. *)
Lemma substring_suffix (s : string) (n : nat) :
  (n ≤ String.length s)%nat →
  ∃ pre, s = pre ++ String.substring n (String.length s - n) s
         ∧ String.length pre = n.
Proof.
  revert n. induction s as [|c s IH]; intros n Hn.
  - simpl in Hn. assert (n = 0) as -> by lia. by exists "".
  - destruct n as [|n].
    + exists "". split; [|done]. change (String.length (String c s) - 0)
        with (String.length (String c s)). by rewrite substring_all.
    + simpl in Hn. destruct (IH n) as (pre & Hpre & Hlen); [lia|].
      exists (String c pre).
      split; [exact (f_equal (String c) Hpre) | exact (f_equal S Hlen)].
Qed.

Lemma last_bytes_suffix (n : N) (s : string) :
  ∃ pre, s = pre ++ last_bytes n s
         ∧ N.of_nat (String.length (last_bytes n s))
           = N.min (N.of_nat (String.length s)) n.
Proof.
  unfold last_bytes.
  set (len := String.length s).
  set (size := N.min (N.of_nat len) n).
  assert (N.to_nat size = len - N.to_nat (N.of_nat len - size)) as -> by lia.
  destruct (substring_suffix s (N.to_nat (N.of_nat len - size))) as (pre & Hpre & Hlen);
    [lia|].
  exists pre. split; [done|].
  apply (f_equal String.length) in Hpre. rewrite str_length_app, Hlen in Hpre.
  fold len in Hpre. lia.
Qed.

Lemma last_bytes_small (n : N) (s : string) :
  (N.of_nat (String.length s) ≤ n)%N → last_bytes n s = s.
Proof.
  intros Hn. unfold last_bytes.
  rewrite N.min_l by done. rewrite N.sub_diag, Nat2N.id. apply substring_all.
Qed.

Lemma split_lines_not_nil (s : string) : split_lines s ≠ [].
Proof.
  destruct s as [|c s]; [done|]. simpl.
  destruct (Ascii.eqb c Str.LF); [done|].
  assert (match split_lines s with
          | [] => [String c ""] | x :: r => String c x :: r end ≠ []) as Hk
    by (by destruct (split_lines s)).
  destruct (Ascii.eqb c Str.CR); [|done].
  destruct s as [|c' s']; [done|]. by destruct (Ascii.eqb c' Str.LF).
Qed.

Lemma join_cons (sep x : string) (l : list string) :
  l ≠ [] → Str.join sep (x :: l) = x ++ sep ++ Str.join sep l.
Proof. by destruct l. Qed.

Lemma join_length_cons (sep x : string) (l : list string) :
  (String.length (Str.join sep l) ≤ String.length (Str.join sep (x :: l)))%nat.
Proof.
  destruct l as [|y l]; [simpl; lia|].
  rewrite (join_cons sep x (y :: l)) by discriminate. rewrite !str_length_app. lia.
Qed.

Lemma join_length_drop (sep : string) (k : nat) (l : list string) :
  (String.length (Str.join sep (drop k l)) ≤ String.length (Str.join sep l))%nat.
Proof.
  revert k. induction l as [|x l IH]; intros k; [by destruct k|].
  destruct k as [|k]; [done|]. simpl drop.
  etrans; [apply IH | apply join_length_cons].
Qed.

(** Splitting on line ends and joining with newlines gives back no more
    characters than there were. *)
Lemma join_split_lines_length (s : string) :
  (String.length (Str.join Str.nl (split_lines s)) ≤ String.length s)%nat.
Proof.
  assert (∀ s, (String.length (Str.join Str.nl (split_lines s)) ≤ String.length s)%nat
               ∧ ∀ c, (String.length (Str.join Str.nl (split_lines (String c s)))
                       ≤ S (String.length s))%nat) as H; [|apply H].
  clear s. induction s as [|c' s [IH1 IH2]].
  - split; [done|]. intros c. simpl.
    destruct (Ascii.eqb c Str.LF); [simpl; lia|].
    destruct (Ascii.eqb c Str.CR); simpl; lia.
  - split; [apply IH2|]. intros c.
    assert (String.length
              (Str.join Str.nl
                 match split_lines (String c' s) with
                 | [] => [String c ""] | x :: r => String c x :: r end)
            ≤ S (S (String.length s)))%nat as Hkeep.
    { pose proof (split_lines_not_nil (String c' s)) as Hnn.
      pose proof (IH2 c') as Hle.
      destruct (split_lines (String c' s)) as [|x r]; [done|].
      destruct r as [|y r]; [simpl in *; lia|].
      rewrite (join_cons _ x (y :: r)) in Hle by discriminate.
      rewrite (join_cons _ (String c x) (y :: r)) by discriminate.
      rewrite !str_length_app in *. simpl in *. lia. }
    assert (String.length (Str.join Str.nl ("" :: split_lines (String c' s)))
            ≤ S (S (String.length s)))%nat as Hlf.
    { rewrite join_cons by apply split_lines_not_nil.
      pose proof (IH2 c') as Hle. rewrite !str_length_app. simpl in *. lia. }
    change (split_lines (String c (String c' s))) with
      (if Ascii.eqb c Str.LF then "" :: split_lines (String c' s)
       else if Ascii.eqb c Str.CR then
         if Ascii.eqb c' Str.LF then "" :: split_lines s
         else match split_lines (String c' s) with
              | [] => [String c ""] | x :: r => String c x :: r end
       else match split_lines (String c' s) with
            | [] => [String c ""] | x :: r => String c x :: r end).
    change (String.length (String c' s)) with (S (String.length s)).
    destruct (Ascii.eqb c Str.LF); [done|].
    destruct (Ascii.eqb c Str.CR); [|done].
    destruct (Ascii.eqb c' Str.LF); [|done].
    rewrite join_cons by apply split_lines_not_nil.
    rewrite !str_length_app. simpl. lia.
Qed.

Lemma slice_last_length {A} (n : nat) (l : list A) :
  length (Str.slice_last n l) = Nat.min (length l) n.
Proof. unfold Str.slice_last. rewrite length_drop. lia. Qed.

Lemma slice_last_suffix {A} (n : nat) (l : list A) :
  ∃ skipped, l = (skipped ++ Str.slice_last n l)%list.
Proof. exists (take (length l - n) l). unfold Str.slice_last. by rewrite take_drop. Qed.

(** *** Decoding *)

(** What the decoder does with bytes that are not UTF-8: a byte that can
    stand nowhere, a Latin-1 letter between ASCII letters, an overlong
    form, a surrogate, a sequence cut off by the end and one cut off by a
    letter each give U+FFFD, once for every maximal ill-formed part; the
    bytes around them stay. *)
Lemma toString_utf8_ill_formed :
  toString_utf8 (String (ascii_of_N 255) "") = replacement
  ∧ toString_utf8 ("caf" ++ String (ascii_of_N 233) "s")
    = "caf" ++ replacement ++ "s"
  ∧ toString_utf8 (String (ascii_of_N 192) (String (ascii_of_N 128) ""))
    = replacement ++ replacement
  ∧ toString_utf8 (String (ascii_of_N 237) (String (ascii_of_N 160)
                     (String (ascii_of_N 128) "")))
    = replacement ++ replacement ++ replacement
  ∧ toString_utf8 (String (ascii_of_N 226) (String (ascii_of_N 130) ""))
    = replacement
  ∧ toString_utf8 (String (ascii_of_N 226) (String (ascii_of_N 130) "a"))
    = replacement ++ "a"
  ∧ String.length replacement = 3.
Proof. vm_compute. repeat split; reflexivity. Qed.

(** Well-formed sequences of two, three and four bytes (U+00E9, U+20AC,
    U+1F600) and U+FFFD itself are kept. *)
Lemma toString_utf8_well_formed :
  well_formed_utf8 (String (ascii_of_N 195) (String (ascii_of_N 169) ""))
  ∧ well_formed_utf8 (String (ascii_of_N 226) (String (ascii_of_N 130)
                        (String (ascii_of_N 172) "")))
  ∧ well_formed_utf8 (String (ascii_of_N 240) (String (ascii_of_N 159)
                        (String (ascii_of_N 152) (String (ascii_of_N 128) ""))))
  ∧ well_formed_utf8 replacement.
Proof. vm_compute. repeat split; reflexivity. Qed.

Lemma toString_utf8_ascii (s : string) : is_ascii s = true → toString_utf8 s = s.
Proof.
  unfold toString_utf8. induction s as [|c s IH]; [done|].
  intros [Hc Hs]%andb_prop.
  change (utf8_decode Fresh (String c s))
    with ((utf8_lead c).1 ++ utf8_decode (utf8_lead c).2 s).
  unfold utf8_lead. rewrite Hc. cbn [fst snd].
  exact (f_equal (String c) (IH Hs)).
Qed.

Lemma is_ascii_app (a b : string) : is_ascii (a ++ b) = is_ascii a && is_ascii b.
Proof.
  induction a as [|c a IH]; [done|].
  change (String c a ++ b) with (String c (a ++ b)).
  simpl. by rewrite IH, andb_assoc.
Qed.

Lemma is_ascii_join_replicate (sep x : string) (n : nat) :
  is_ascii sep = true → is_ascii x = true →
  is_ascii (Str.join sep (replicate n x)) = true.
Proof.
  intros Hsep Hx. induction n as [|n IH]; [done|].
  destruct n as [|n]; [done|].
  rewrite (replicate_S (S n)), join_cons by done.
  by rewrite !is_ascii_app, Hx, Hsep, IH.
Qed.

Lemma last_bytes_ascii (n : N) (s : string) :
  is_ascii s = true → is_ascii (last_bytes n s) = true.
Proof.
  intros Hs. destruct (last_bytes_suffix n s) as (pre & Hpre & _).
  rewrite Hpre, is_ascii_app in Hs. by apply andb_prop in Hs as [_ ?].
Qed.

(** Of an ASCII log, [read_tail] returns no more than the megabyte
    read. *)
Lemma read_tail_length (content : string) :
  is_ascii content = true →
  (N.of_nat (String.length (read_tail content)) ≤ 1024 * 1024)%N.
Proof.
  intros Ha. unfold read_tail, Str.slice_last.
  rewrite (toString_utf8_ascii _ (last_bytes_ascii _ _ Ha)).
  destruct (last_bytes_suffix (1024 * 1024) content) as (pre & _ & Hlen).
  pose proof (join_length_drop Str.nl
                (length (split_lines (last_bytes (1024 * 1024) content)) - 2000)
                (split_lines (last_bytes (1024 * 1024) content))) as H1.
  pose proof (join_split_lines_length (last_bytes (1024 * 1024) content)) as H2.
  lia.
Qed.

Lemma join_replicate_length (sep x : string) (n : nat) :
  String.length (Str.join sep (replicate (S n) x))
  = S n * String.length x + n * String.length sep.
Proof.
  induction n as [|n IH]; [simpl; lia|].
  rewrite (replicate_S (S n)), join_cons by done.
  rewrite !str_length_app, IH. lia.
Qed.

Lemma logs_cases (id : string) (st : state) :
  (find_server id (registry st) = None →
     (logs id st).1 = Res 404 (Error "Not found"))
  ∧ (∀ s, find_server id (registry st) = Some s →
     (disk st !! Path.join [Server.dir s; "console.log"] = None →
        (logs id st).1 = Res 200 (Plain ""))
     ∧ (∀ content,
          disk st !! Path.join [Server.dir s; "console.log"] = Some (File content) →
          (logs id st).1 = Res 200 (Plain (read_tail content)))
     ∧ (disk st !! Path.join [Server.dir s; "console.log"] = Some Dir →
        (logs id st).1 = Res 500 (ErrorDetails "Failed to read logs")))
  ∧ same_world st (logs id st).2.
Proof.
  split; [|split; [|apply logs_frame]];
    unfold logs, getServer; rewrite (loadServers_pair st);
    pose proof (loadServers_frame st) as (_ & _ & _ & Hd).
  - by intros ->.
  - intros s ->. rewrite Hd. split; [|split].
    + by intros ->.
    + by intros content ->.
    + by intros ->.
Qed.

Lemma logs_body_bounded (id : string) (st : state) (s : Server.t) (content expected : string) :
  find_server id (registry st) = Some s →
  disk st !! Path.join [Server.dir s; "console.log"] = Some (File content) →
  is_ascii content = true →
  (1024 * 1024 < N.of_nat (String.length expected))%N →
  (logs id st).1 ≠ Res 200 (Plain expected).
Proof.
  intros Hs Hc Ha Hlen. destruct (logs_cases id st) as (_ & H & _).
  destruct (H s Hs) as (_ & Hr & _). rewrite (Hr content Hc).
  intros [= Heq]. pose proof (read_tail_length content Ha) as Hb.
  rewrite Heq in Hb. lia.
Qed.

Lemma large_log_ascii : is_ascii Demo.large_log = true.
Proof. by apply is_ascii_join_replicate. Qed.

(** C5, where the claim fails: the log holds 3000 lines of 1000
    characters, so the last 2000 of them do not fit the megabyte that is
    read, and what [logs] answers is not those 2000 lines. *)
Lemma logs_of_large_file_not_last_2000_lines :
  Demo.large_log = Str.join Str.nl (replicate 3000 Demo.long_line)
  ∧ (logs Demo.lobby_id Demo.with_large_log).1
    ≠ Res 200 (Plain (Str.join Str.nl
                        (Str.slice_last 2000 (replicate 3000 Demo.long_line)))).
Proof.
  split; [reflexivity|].
  apply (logs_body_bounded _ _ Demo.lobby_record Demo.large_log);
    [reflexivity | reflexivity | exact large_log_ascii |].
  unfold Str.slice_last. rewrite length_replicate, drop_replicate.
  change (3000 - (3000 - 2000)) with (S 1999).
  rewrite join_replicate_length.
  change (String.length Demo.long_line) with 1000.
  change (String.length Str.nl) with 1. lia.
Qed.

(** C5, amended. [logs] answers 404 "Not found" (NotFound) for an id
    without record; for a record whose log file does not exist it answers
    200 with an empty body. Otherwise it reads the last
    [min(size, 1 MiB)] bytes of the file, decodes them as UTF-8 (an ASCII
    buffer is its own text; every ill-formed part becomes U+FFFD), splits
    the text at line ends and answers the last 2000 lines at most, joined
    by newlines. In particular, a log of at most 1 MiB is answered with
    all of its lines when there are at most 2000, and with exactly its
    last 2000 lines when there are 3000. *)
Theorem logs_returns_tail (id : string) (st : state) :
  (find_server id (registry st) = None →
     (logs id st).1 = Res 404 (Error "Not found")
     ∧ kind_of (logs id st).1 = Some NotFound)
  ∧ (∀ s, find_server id (registry st) = Some s →
     (disk st !! Path.join [Server.dir s; "console.log"] = None →
        (logs id st).1 = Res 200 (Plain ""))
     ∧ (∀ content,
          disk st !! Path.join [Server.dir s; "console.log"] = Some (File content) →
          ∃ buffer lines,
            (logs id st).1 = Res 200 (Plain (Str.join Str.nl lines))
            ∧ (∃ before, content = before ++ buffer)
            ∧ N.of_nat (String.length buffer)
              = N.min (N.of_nat (String.length content)) (1024 * 1024)
            ∧ (∃ skipped,
                 split_lines (toString_utf8 buffer) = (skipped ++ lines)%list)
            ∧ length lines
              = Nat.min (length (split_lines (toString_utf8 buffer))) 2000
            ∧ (is_ascii buffer = true → toString_utf8 buffer = buffer)
            ∧ ((N.of_nat (String.length content) ≤ 1024 * 1024)%N →
               buffer = content
               ∧ ((length (split_lines (toString_utf8 content)) ≤ 2000)%nat →
                  lines = split_lines (toString_utf8 content))
               ∧ (length (split_lines (toString_utf8 content)) = 3000 →
                  lines = drop 1000 (split_lines (toString_utf8 content))
                  ∧ length lines = 2000)))).
Proof.
  destruct (logs_cases id st) as (Ha & Hb & _). split.
  - intros Hno. rewrite (Ha Hno). done.
  - intros s Hs. destruct (Hb s Hs) as (Hnone & Hfile & _).
    split; [done|]. intros content Hc.
    exists (last_bytes (1024 * 1024) content),
           (Str.slice_last 2000
              (split_lines (toString_utf8 (last_bytes (1024 * 1024) content)))).
    split; [by rewrite (Hfile content Hc)|].
    destruct (last_bytes_suffix (1024 * 1024) content) as (pre & Hpre & Hlen).
    split; [by exists pre|]. split; [done|].
    split; [apply slice_last_suffix|]. split; [apply slice_last_length|].
    split; [apply toString_utf8_ascii|].
    intros Hsmall. rewrite (last_bytes_small _ _ Hsmall). split; [done|].
    split.
    { intros Hfew. unfold Str.slice_last.
      replace (length (split_lines (toString_utf8 content)) - 2000)%nat with 0%nat
        by lia.
      apply drop_0. }
    intros H3000. unfold Str.slice_last. rewrite H3000.
    change (3000 - 2000) with 1000. split; [done|].
    rewrite length_drop, H3000. done.
Qed.

(** C9. [loadServers] always returns an array: the empty one when the
    registry file is absent, and nothing changes; the empty one when the
    file does not parse, in which case the line "Failed to parse
    servers.json:" is added to the console and nothing else changes. In
    both cases every handler answers as it does on an empty registry, and
    leaves the same processes, the same disk and the same records
    behind. *)
Theorem loadServers_never_escalates (d : string) (st : state) :
  (stateFile st = None → (loadServers st).1 = [] ∧ (loadServers st).2 = st)
  ∧ (stateFile st = Some Unparseable →
     (loadServers st).1 = []
     ∧ same_world st (loadServers st).2
     ∧ console (loadServers st).2
       = (console st ++ ["Failed to parse servers.json:"])%list)
  ∧ (stateFile st = None ∨ stateFile st = Some Unparseable →
     registry st = []
     ∧ same_world st (loadServers st).2
     ∧ ∀ q, (handle d q st).1 = (handle d q (with_registry [] st)).1
            ∧ same_view (handle d q st).2 (handle d q (with_registry [] st)).2).
Proof.
  split; [|split].
  - unfold loadServers. by intros ->.
  - unfold loadServers. intros ->. split; [done|]. split; [|done].
    by repeat split.
  - intros Hsf. split; [|split].
    + unfold registry, loadServers. by destruct Hsf as [->| ->].
    + apply same_world_load.
    + intros q. by apply handle_empty_registry.
Qed.

(** ** Paths *)

Lemma split_on_not_nil sep s : Str.split_on sep s ≠ [].
Proof.
  destruct s as [|c s]; [done|]. simpl.
  destruct (Ascii.eqb c sep); [done|]. by destruct (Str.split_on sep s).
Qed.

(** Splitting distributes over a separator. *)
Lemma split_on_app sep (a b : string) :
  Str.split_on sep (a ++ String sep b)
  = (Str.split_on sep a ++ Str.split_on sep b)%list.
Proof.
  induction a as [|c a IH].
  - change ("" ++ String sep b) with (String sep b). simpl.
    by rewrite Ascii.eqb_refl.
  - change (String c a ++ String sep b) with (String c (a ++ String sep b)).
    simpl. rewrite IH. destruct (Ascii.eqb c sep); [done|].
    pose proof (split_on_not_nil sep a) as Hnn.
    by destruct (Str.split_on sep a).
Qed.

Lemma split_on_no_slash (s : string) :
  Path.no_slash s = true → Str.split_on Str.slash s = [s].
Proof.
  induction s as [|c s IH]; [done|]. simpl.
  intros [Hc Hs]%andb_prop. apply negb_true_iff in Hc. rewrite Hc, (IH Hs). done.
Qed.

Lemma split_on_elements_no_slash (s x : string) :
  x ∈ Str.split_on Str.slash s → Path.no_slash x = true.
Proof.
  revert x. induction s as [|c s IH]; intros x; simpl.
  - by intros ->%list_elem_of_singleton.
  - destruct (Ascii.eqb c Str.slash) eqn:Ec.
    + intros [->|Hx]%elem_of_cons; [done | by apply IH].
    + destruct (Str.split_on Str.slash s) as [|y r] eqn:Es.
      * intros ->%list_elem_of_singleton. simpl. by rewrite Ec.
      * intros [->|Hx]%elem_of_cons.
        -- simpl. rewrite Ec. simpl. apply IH. by left.
        -- apply IH. by right.
Qed.

Lemma last_nonempty_elem (l : list string) :
  Path.last_nonempty l = "" ∨ Path.last_nonempty l ∈ l.
Proof.
  induction l as [|x l IH]; [by left|]. simpl.
  destruct (Path.last_nonempty l) as [|c y] eqn:E.
  - destruct x; [by left | right; by left].
  - right. right. by destruct IH.
Qed.

(** [path.basename] never returns a separator. *)
Lemma basename_no_slash (p : string) : Path.no_slash (Path.basename p) = true.
Proof.
  unfold Path.basename.
  destruct (last_nonempty_elem (Str.split_on Str.slash p)) as [->|Hin]; [done|].
  by eapply split_on_elements_no_slash.
Qed.

Lemma norm_go_app b stack (l1 l2 : list string) :
  Path.norm_go b stack (l1 ++ l2) = Path.norm_go b (Path.norm_go b stack l1) l2.
Proof.
  revert stack. induction l1 as [|x l1 IH]; intros stack; [done|]. simpl.
  destruct (_ || _); [apply IH|].
  destruct (Path.is_dotdot x); [|apply IH].
  destruct stack as [|top below]; [apply IH|].
  destruct (Path.is_dotdot top); apply IH.
Qed.

Lemma clean_parts (seg : string) :
  Path.clean seg = true →
  Str.is_empty seg = false ∧ Path.is_dot seg = false
  ∧ Path.is_dotdot seg = false ∧ Path.no_slash seg = true.
Proof.
  unfold Path.clean. intros H.
  repeat (apply andb_prop in H as [H ?]).
  repeat split; try done; by apply negb_true_iff.
Qed.

Lemma norm_go_clean b stack (seg : string) :
  Path.clean seg = true → Path.norm_go b stack [seg] = seg :: stack.
Proof.
  intros (He & Hd & Hdd & _)%clean_parts. simpl. by rewrite He, Hd, Hdd.
Qed.

Lemma join_snoc (sep : string) (l : list string) (x : string) :
  l ≠ [] → Str.join sep (l ++ [x]) = Str.join sep l ++ sep ++ x.
Proof.
  induction l as [|y l IH]; [done|]. intros _.
  destruct l as [|z l]; [done|].
  change ((y :: z :: l) ++ [x])%list with (y :: (z :: l) ++ [x])%list.
  rewrite join_cons by done. rewrite IH by done.
  rewrite (join_cons sep y (z :: l)) by done.
  by rewrite !str_app_assoc.
Qed.

(** The segments of a normalized path come back from [normalizeString]. *)
Lemma norm_go_join b stack (cl : list string) :
  forallb Path.clean cl = true →
  Path.norm_go b stack (Str.split_on Str.slash (Str.join "/" cl))
  = (rev cl ++ stack)%list.
Proof.
  revert stack. induction cl as [|x cl IH]; intros stack Hcl; [done|].
  simpl in Hcl. apply andb_prop in Hcl as [Hx Hcl].
  pose proof (clean_parts x Hx) as (_ & _ & _ & Hns).
  destruct cl as [|y cl].
  - simpl Str.join. rewrite (split_on_no_slash x Hns). by apply norm_go_clean.
  - rewrite join_cons by done.
    change (x ++ "/" ++ Str.join "/" (y :: cl))
      with (x ++ String Str.slash (Str.join "/" (y :: cl))).
    rewrite split_on_app, (split_on_no_slash x Hns), norm_go_app.
    rewrite (norm_go_clean _ _ _ Hx), IH by done.
    simpl. by rewrite <- !app_assoc.
Qed.

Lemma endsWith_app c (a b : string) :
  b ≠ "" → Str.endsWith c (a ++ b) = Str.endsWith c b.
Proof.
  intros Hb. induction a as [|x a IH]; [done|].
  change (String x a ++ b) with (String x (a ++ b)).
  simpl. destruct (a ++ b) eqn:E; [|done].
  destruct a; [|done]. simpl in E. done.
Qed.

Lemma endsWith_no_slash (s : string) :
  Path.no_slash s = true → Str.endsWith Str.slash s = false.
Proof.
  induction s as [|c s IH]; [done|]. simpl.
  intros [Hc Hs]%andb_prop. apply negb_true_iff in Hc.
  destruct s; [done | by apply IH].
Qed.

Lemma join_not_empty (sep : string) (l : list string) (x : string) :
  Str.is_empty x = false → Str.is_empty (Str.join sep (l ++ [x])) = false.
Proof.
  intros Hx. induction l as [|y l IH]; [done|].
  change ((y :: l) ++ [x])%list with (y :: (l ++ [x]))%list.
  rewrite join_cons by (by destruct l).
  destruct y as [|c y]; [|done].
  change ("" ++ sep ++ Str.join sep (l ++ [x])) with (sep ++ Str.join sep (l ++ [x])).
  destruct sep as [|c sep]; [|done]. exact IH.
Qed.

(** Joining a normalized absolute path with one more clean segment
    appends the segment. *)
Lemma join_absolute (cl : list string) (seg : string) :
  forallb Path.clean cl = true → Path.clean seg = true →
  Path.join [Path.absolute cl; seg] = Path.absolute (cl ++ [seg]).
Proof.
  intros Hcl Hseg. pose proof (clean_parts seg Hseg) as (He & _ & _ & Hns).
  unfold Path.join.
  rewrite filter_cons_True by reflexivity.
  rewrite filter_cons_True by exact He.
  rewrite filter_nil.
  unfold Path.absolute at 1. simpl Str.join.
  set (p := ("/" ++ Str.join "/" cl) ++ "/" ++ seg).
  assert (p = String Str.slash (Str.join "/" cl ++ String Str.slash seg)) as Hp.
  { unfold p. rewrite str_app_assoc. done. }
  assert (Str.is_empty p = false) as Hemp by (by rewrite Hp).
  assert (Str.startsWith Str.slash p = true) as Hst by (by rewrite Hp).
  assert (Str.endsWith Str.slash p = false) as Hend.
  { unfold p. change ("/" ++ seg) with (String Str.slash seg).
    rewrite endsWith_app by done. simpl.
    destruct seg; [done|]. by apply (endsWith_no_slash (String _ _)). }
  assert (Path.normalizeString false p = Str.join "/" (cl ++ [seg])) as Hbody.
  { unfold Path.normalizeString. rewrite Hp.
    change (String Str.slash (Str.join "/" cl ++ String Str.slash seg))
      with ("" ++ String Str.slash (Str.join "/" cl ++ String Str.slash seg)).
    rewrite !split_on_app, !norm_go_app.
    change (Path.norm_go false [] (Str.split_on Str.slash "")) with (@nil string).
    rewrite norm_go_join by done. rewrite (split_on_no_slash seg Hns).
    rewrite (norm_go_clean _ _ _ Hseg), app_nil_r.
    change (seg :: rev cl) with (rev [seg] ++ rev cl)%list.
    by rewrite <- rev_app_distr, rev_involutive. }
  unfold Path.normalize. rewrite Hemp, Hst, Hend. cbn [negb].
  rewrite Hbody, (join_not_empty "/" cl seg He). done.
Qed.

Lemma absolute_snoc (cl : list string) (seg : string) :
  cl ≠ [] → Path.absolute (cl ++ [seg]) = Path.absolute cl ++ "/" ++ seg.
Proof.
  intros Hcl. unfold Path.absolute. rewrite join_snoc by done.
  by rewrite !str_app_assoc.
Qed.

Lemma prefix_app (a b : string) : String.prefix a (a ++ b) = true.
Proof.
  induction a as [|c a IH]; [by destruct b|].
  change (String c a ++ b) with (String c (a ++ b)). simpl.
  destruct (ascii_dec c c); [exact IH | done].
Qed.

Lemma prefix_length (a b : string) :
  String.prefix a b = true → (String.length a ≤ String.length b)%nat.
Proof.
  revert a. induction b as [|c b IH]; intros [|x a]; simpl; try done; try lia.
  destruct (ascii_dec x c); [|done]. intros H%IH. lia.
Qed.

Lemma under_child (dir name : string) : Fs.under dir (dir ++ "/" ++ name) = true.
Proof. unfold Fs.under. rewrite <- str_app_assoc. apply prefix_app. Qed.

Lemma under_self (dir : string) : Fs.under dir dir = false.
Proof.
  unfold Fs.under. destruct (String.prefix (dir ++ "/") dir) eqn:E; [|done].
  apply prefix_length in E. rewrite str_length_app in E. simpl in E. lia.
Qed.

Lemma child_not_self (dir name : string) : dir ++ "/" ++ name ≠ dir.
Proof.
  intros H. apply (f_equal String.length) in H.
  rewrite !str_length_app in H. simpl in H. lia.
Qed.

Lemma str_app_inv_head (a b c : string) : a ++ b = a ++ c → b = c.
Proof.
  induction a as [|x a IH]; [done|].
  change (String x a ++ b) with (String x (a ++ b)).
  change (String x a ++ c) with (String x (a ++ c)).
  intros [= H]. by apply IH.
Qed.

(** ** The ids [generateId] makes *)

Lemma id_char_plain (c : ascii) :
  Str.is_alnum c || Ascii.eqb c Str.dash = true →
  Ascii.eqb c Str.slash = false ∧ Ascii.eqb c (ascii_of_N 46) = false.
Proof. destruct c as [[] [] [] [] [] [] [] []]; vm_compute; by intros. Qed.

Lemma id_chars_app (a b : string) :
  id_chars a = true → id_chars b = true → id_chars (a ++ b) = true.
Proof.
  intros Ha Hb. induction a as [|c a IH]; [done|].
  change (String c a ++ b) with (String c (a ++ b)). simpl in *.
  apply andb_prop in Ha as [Hc Ha]. rewrite Hc. simpl. by apply IH.
Qed.

Lemma squash_id_chars (b : bool) (s : string) : id_chars (squash b s) = true.
Proof.
  revert b. induction s as [|c s IH]; intros b; [done|]. simpl.
  destruct (Str.is_alnum c) eqn:Ec.
  - simpl. rewrite Ec. simpl. apply IH.
  - destruct b; [apply IH|].
    change (id_chars (String Str.dash (squash true s)))
      with ((Str.is_alnum Str.dash || Ascii.eqb Str.dash Str.dash)
            && id_chars (squash true s)).
    rewrite Ascii.eqb_refl, orb_true_r. apply IH.
Qed.

Lemma drop_first_dash_id_chars (s : string) :
  id_chars s = true → id_chars (drop_first_dash s) = true.
Proof.
  destruct s as [|c s]; [done|]. intros H. unfold drop_first_dash.
  destruct (Ascii.eqb c Str.dash); [|done].
  simpl in H. by apply andb_prop in H as [_ H].
Qed.

Lemma drop_last_dash_id_chars (s : string) :
  id_chars s = true → id_chars (drop_last_dash s) = true.
Proof.
  induction s as [|c s IH]; [done|]. intros H.
  simpl in H. apply andb_prop in H as [Hc Hs].
  destruct s as [|c' s].
  - unfold drop_last_dash. destruct (Ascii.eqb c Str.dash) eqn:E; [done|].
    change ((Str.is_alnum c || Ascii.eqb c Str.dash) && true = true).
    rewrite E. by rewrite Hc.
  - change (drop_last_dash (String c (String c' s)))
      with (String c (drop_last_dash (String c' s))).
    simpl id_chars at 1. rewrite Hc. simpl. by apply IH.
Qed.

Lemma slug_id_chars (name : string) : id_chars (slug name) = true.
Proof.
  unfold slug, strip_dashes.
  apply drop_last_dash_id_chars, drop_first_dash_id_chars, squash_id_chars.
Qed.

Lemma all_alnum_id_chars (s : string) : all_alnum s = true → id_chars s = true.
Proof.
  induction s as [|c s IH]; [done|]. simpl.
  intros [Hc Hs]%andb_prop. rewrite Hc. simpl. by apply IH.
Qed.

Lemma substring_0_alnum (m : nat) (s : string) :
  all_alnum s = true → all_alnum (String.substring 0 m s) = true.
Proof.
  revert m. induction s as [|c s IH]; intros [|m]; try done.
  simpl. intros [Hc Hs]%andb_prop. rewrite Hc. simpl. by apply IH.
Qed.

Lemma substring_length_le (n m : nat) (s : string) :
  (String.length (String.substring n m s) ≤ m)%nat.
Proof.
  revert n m. induction s as [|c s IH]; intros [|n] [|m]; simpl; try lia.
  - specialize (IH 0 m). lia.
  - apply (IH n 0).
  - apply (IH n (S m)).
Qed.

Lemma substring_length_eq (n m : nat) (s : string) :
  (n + m ≤ String.length s)%nat → String.length (String.substring n m s) = m.
Proof.
  revert n m. induction s as [|c s IH]; intros [|n] [|m]; simpl; try lia.
  - intros H. rewrite (IH 0 m); lia.
  - intros H. apply (IH n 0). lia.
  - intros H. apply (IH n (S m)). lia.
Qed.

(** The suffix [generateId] takes from [Math.random().toString(36)]: at
    most five digits in base 36. *)
Lemma suffix_shape (r : string) :
  radix36 r = true →
  all_alnum (Str.substring 2 7 r) = true
  ∧ (String.length (Str.substring 2 7 r) ≤ 5)%nat.
Proof.
  intros Hr. split; [|apply substring_length_le].
  unfold Str.substring. change (7 - 2) with 5.
  destruct r as [|z [|dot digits]]; [done..|].
  simpl in Hr. apply andb_prop in Hr as [_ Hd].
  change (String.substring 2 5 (String z (String dot digits)))
    with (String.substring 0 5 digits).
  by apply substring_0_alnum.
Qed.

Lemma id_chars_clean (s : string) :
  id_chars s = true → Str.is_empty s = false → Path.clean s = true.
Proof.
  intros Hs He. unfold Path.clean. rewrite He. simpl.
  assert (Path.no_slash s = true) as ->.
  { clear He. induction s as [|c s IH]; [done|]. simpl in *.
    apply andb_prop in Hs as [Hc Hs]. destruct (id_char_plain c Hc) as [-> _].
    simpl. by apply IH. }
  destruct s as [|c s]; [done|]. simpl in Hs.
  apply andb_prop in Hs as [Hc _]. destruct (id_char_plain c Hc) as [_ Hdot].
  unfold Path.is_dot, Path.is_dotdot.
  change (String c s =? ".")%string with (Ascii.eqb c (ascii_of_N 46) && (s =? "")%string).
  change (String c s =? "..")%string with (Ascii.eqb c (ascii_of_N 46) && (s =? ".")%string).
  by rewrite Hdot.
Qed.

Lemma generateId_clean (name r : string) :
  radix36 r = true → Path.clean (generateId name r) = true.
Proof.
  intros Hr. destruct (suffix_shape r Hr) as [Ha _].
  apply id_chars_clean.
  - unfold generateId. apply id_chars_app; [apply slug_id_chars|].
    apply (id_chars_app "-"); [done | by apply all_alnum_id_chars].
  - unfold generateId. by destruct (slug name).
Qed.

(** ** Create *)

Lemma install_dirs (cl0 : list string) :
  forallb Path.clean cl0 = true →
  DATA_DIR (Path.absolute cl0) = Path.absolute (cl0 ++ ["data"])
  ∧ JAR_DIR (Path.absolute cl0) = Path.absolute ((cl0 ++ ["data"]) ++ ["jars"])
  ∧ SERVERS_DIR (Path.absolute cl0) = Path.absolute ((cl0 ++ ["data"]) ++ ["servers"])
  ∧ forallb Path.clean ((cl0 ++ ["data"]) ++ ["jars"]) = true
  ∧ forallb Path.clean ((cl0 ++ ["data"]) ++ ["servers"]) = true.
Proof.
  intros Hcl.
  assert (forallb Path.clean (cl0 ++ ["data"]) = true) as Hd
    by (by rewrite forallb_app, Hcl).
  unfold JAR_DIR, SERVERS_DIR, DATA_DIR.
  rewrite (join_absolute cl0 "data") by done.
  rewrite !(join_absolute (cl0 ++ ["data"])) by done.
  repeat split; try done; by rewrite forallb_app, Hd.
Qed.

(** Joining a normalized absolute directory with a clean name puts the
    name below the directory. *)
Lemma join_below (cl : list string) (seg : string) :
  forallb Path.clean cl = true → cl ≠ [] → Path.clean seg = true →
  Path.join [Path.absolute cl; seg] = Path.absolute cl ++ "/" ++ seg.
Proof.
  intros Hcl Hne Hseg. rewrite join_absolute by done. by apply absolute_snoc.
Qed.

Lemma mkdirSync_None (p : string) (fs : gmap string node) :
  Fs.mkdirSync p fs = None ↔ ∃ content, fs !! p = Some (File content).
Proof.
  unfold Fs.mkdirSync. destruct (fs !! p) as [[|c]|]; split; try done.
  - by intros [? ?].
  - by exists c.
  - by intros [? ?].
Qed.

Lemma mkdirSync_Some (p : string) (fs fs' : gmap string node) :
  Fs.mkdirSync p fs = Some fs' →
  fs' !! p = Some Dir
  ∧ (∀ q, q ≠ p → fs' !! q = fs !! q)
  ∧ (fs !! p = None → fs' = <[p := Dir]> fs).
Proof.
  unfold Fs.mkdirSync. destruct (fs !! p) as [[|c]|] eqn:E; [|done|].
  - intros [= <-]. done.
  - intros [= <-]. split; [apply lookup_insert_eq|]. split; [|done].
    intros q Hq. by rewrite lookup_insert_ne.
Qed.

Lemma writeFileSync_Some (p content : string) (fs : gmap string node) :
  fs !! p ≠ Some Dir →
  Fs.writeFileSync p content fs = Some (<[p := File content]> fs).
Proof. unfold Fs.writeFileSync. by destruct (fs !! p) as [[|?]|]. Qed.

Lemma writeFileSync_None (p content : string) (fs : gmap string node) :
  fs !! p = Some Dir → Fs.writeFileSync p content fs = None.
Proof. unfold Fs.writeFileSync. by intros ->. Qed.

(** What a [create] that passes both checks does: [mkdirSync] throws at a
    file; otherwise the directory is there, [server.properties] is
    written unless something has that name, and [writeFileSync] of
    [eula.txt] throws at a directory; otherwise the record is appended
    and answered. *)
Lemma create_result (d : string) (body : create_body) (r : string) (st : state) :
  str_falsy (b_name body) || num_falsy (b_port body) || str_falsy (b_jar body) = false →
  Fs.existsSync
    (Path.join [JAR_DIR d; Path.basename (default "" (b_jar body))]) (disk st) = true →
  let id := generateId (default "" (b_name body)) r in
  let dir := Path.join [SERVERS_DIR d; id] in
  let record :=
    Server.mk id (default "" (b_name body)) (default 0%Z (b_port body))
      (if num_falsy (b_maxMemoryMB body) then 1024%Z
       else default 0%Z (b_maxMemoryMB body))
      (Path.basename (default "" (b_jar body))) dir in
  match Fs.mkdirSync dir (disk st) with
  | None => create d body r st = (Res 500 ErrorPage, st)
  | Some fs1 =>
      let fs2 :=
        if Fs.existsSync (Path.join [dir; "server.properties"]) fs1 then fs1
        else <[Path.join [dir; "server.properties"]
               := File (default_properties (default 0%Z (b_port body)))]> fs1 in
      match fs2 !! Path.join [dir; "eula.txt"] with
      | Some Dir => create d body r st = (Res 500 ErrorPage, set_disk fs2 st)
      | _ =>
          (create d body r st).1 = Res 200 (Record_ record)
          ∧ procMap (create d body r st).2 = procMap st
          ∧ children (create d body r st).2 = children st
          ∧ stateFile (create d body r st).2 = Some (Parsed (registry st ++ [record]))
          ∧ disk (create d body r st).2
            = <[Path.join [dir; "eula.txt"] := File ("eula=true" ++ Str.nl)]> fs2
      end
  end.
Proof.
  intros Hreq Hjar. cbv zeta. unfold create. rewrite Hreq, Hjar. cbn [negb].
  destruct (Fs.mkdirSync _ (disk st)) as [fs1|]; [|done].
  cbn [disk set_disk].
  match goal with |- context [Fs.existsSync ?q fs1] => set (props := q) end.
  match goal with |- context [Fs.writeFileSync ?q ("eula=true" ++ Str.nl)] =>
    set (eula := q) end.
  assert ((if Fs.existsSync props fs1 then Some fs1
           else Fs.writeFileSync props
                  (default_properties (default 0%Z (b_port body))) fs1)
          = Some (if Fs.existsSync props fs1 then fs1
                  else <[props := File (default_properties
                                          (default 0%Z (b_port body)))]> fs1)) as ->.
  { unfold Fs.existsSync. case_bool_decide as Hex; [done|].
    apply writeFileSync_Some. intros Hd. apply Hex. by rewrite Hd. }
  cbn [disk set_disk].
  set (fs2 := if Fs.existsSync props fs1 then fs1 else _).
  unfold Fs.writeFileSync.
  destruct (fs2 !! eula) as [[|c]|] eqn:E; [done| |];
    match goal with |- context [loadServers ?s] =>
      rewrite (loadServers_pair s);
      pose proof (loadServers_frame s) as (Hp & Hc & Hf & Hd);
      assert (registry s = registry st) as Hreg by (by apply registry_stateFile)
    end;
    unfold saveServers, set_stateFile;
    cbn [fst snd procMap children stateFile disk];
    rewrite Hp, Hc, Hd, Hreg; by repeat split.
Qed.

Lemma find_server_app id (l1 l2 : list Server.t) :
  find_server id (l1 ++ l2)
  = match find_server id l1 with
    | Some s => Some s
    | None => find_server id l2
    end.
Proof.
  unfold find_server. induction l1 as [|x l1 IH]; [done|]. simpl.
  by destruct (String.eqb (Server.id x) id).
Qed.

(** C6, where the claim fails: the jar of the record is the base name of
    the jar of the request, not the jar of the request, and the suffix of
    the id is the one digit [Math.random()] gave, not five characters. *)
Lemma create_record_differs_from_input :
  (create Demo.home Demo.lobby_from_folder "0.i" Demo.booted).1
  = Res 200 (Record_ (Server.mk "lobby-i" "Lobby" 25565 2048 "paper.jar"
                        "/srv/data/servers/lobby-i"))
  ∧ b_jar Demo.lobby_from_folder ≠ Some "paper.jar"
  ∧ String.length (Str.substring 2 7 "0.i") ≠ 5.
Proof. vm_compute. repeat split; done. Qed.

(** C6, amended. [create] answers 400 "name, port, jar are required"
    (InvalidArgument) when the name, the port or the jar is missing, empty
    or zero, and leaves the state as it was. Otherwise, for a manager
    installed under a normalized absolute path, a suffix source of the
    shape [Math.random().toString(36)] has, and a jar whose base name is
    a proper file name (not empty, not [.] and not [..]): when nothing
    stands under that name in the artifact directory it answers 400 "JAR
    not found. Upload it first." and leaves the state as it was. When
    something does, the id is the slug of the name, a dash, and a suffix
    of at most five digits in base 36, and the instance directory is the
    one of that id under the servers directory. If a file stands at that
    path the answer is 500 and nothing changes; if a directory stands
    where [eula.txt] goes the answer is 500, no record is written, and the
    instance directory and [server.properties] are as after a success.
    Otherwise the answer is 200 with the record, which is appended to the
    registry file: it has that id, the name and the port of the request,
    its memory limit or 1024 when that is missing or zero, the base name
    of its jar, and the instance directory; that directory exists
    afterwards with [eula.txt] in it; a [server.properties] that was
    there is kept as it is, otherwise one naming the port is written; no
    other path changes, so a directory that was not there before holds
    exactly these two files; and looking the id up afterwards gives the
    record, provided no older record has the same id. *)
Theorem create_contract (cl0 : list string) (body : create_body) (r : string)
    (st : state) :
  let d := Path.absolute cl0 in
  let resp := (create d body r st).1 in
  let st' := (create d body r st).2 in
  (str_falsy (b_name body) || num_falsy (b_port body) || str_falsy (b_jar body) = true →
     create d body r st = (Res 400 (Error "name, port, jar are required"), st)
     ∧ kind_of resp = Some InvalidArgument)
  ∧ ∀ name port jar,
      b_name body = Some name → name ≠ "" →
      b_port body = Some port → port ≠ 0%Z →
      b_jar body = Some jar → jar ≠ "" →
      forallb Path.clean cl0 = true → radix36 r = true →
      Path.clean (Path.basename jar) = true →
      let artifact := JAR_DIR d ++ "/" ++ Path.basename jar in
      let suffix := Str.substring 2 7 r in
      let id := slug name ++ "-" ++ suffix in
      let dir := SERVERS_DIR d ++ "/" ++ id in
      let memory :=
        match b_maxMemoryMB body with
        | Some m => if (m =? 0)%Z then 1024%Z else m
        | None => 1024%Z
        end in
      let record := Server.mk id name port memory (Path.basename jar) dir in
      let properties :=
        "server-port=" ++ pretty port ++ Str.nl ++ "max-players=20" ++ Str.nl
        ++ "enable-jmx-monitoring=false" ++ Str.nl in
      (String.length suffix ≤ 5)%nat ∧ all_alnum suffix = true
      ∧ Path.no_slash (Path.basename jar) = true
      ∧ (disk st !! artifact = None →
         create d body r st = (Res 400 (Error "JAR not found. Upload it first."), st))
      ∧ (is_Some (disk st !! artifact) →
         (∀ content, disk st !! dir = Some (File content) →
            create d body r st = (Res 500 ErrorPage, st))
         ∧ ((∀ content, disk st !! dir ≠ Some (File content)) →
            (disk st' !! dir = Some Dir
             ∧ (disk st !! (dir ++ "/server.properties") = None →
                disk st' !! (dir ++ "/server.properties") = Some (File properties))
             ∧ (∀ x, disk st !! (dir ++ "/server.properties") = Some x →
                  disk st' !! (dir ++ "/server.properties") = Some x)
             ∧ (∀ p, p ≠ dir → p ≠ dir ++ "/server.properties" →
                  p ≠ dir ++ "/eula.txt" → disk st' !! p = disk st !! p)
             ∧ procMap st' = procMap st ∧ children st' = children st)
            ∧ (disk st !! (dir ++ "/eula.txt") = Some Dir →
               resp = Res 500 ErrorPage
               ∧ stateFile st' = stateFile st
               ∧ disk st' !! (dir ++ "/eula.txt") = Some Dir)
            ∧ (disk st !! (dir ++ "/eula.txt") ≠ Some Dir →
               resp = Res 200 (Record_ record)
               ∧ stateFile st' = Some (Parsed (registry st ++ [record]))
               ∧ disk st' !! (dir ++ "/eula.txt") = Some (File ("eula=true" ++ Str.nl))
               ∧ ((∀ p, p = dir ∨ Fs.under dir p = true → disk st !! p = None) →
                  Fs.entries_under dir (disk st')
                  = {[ dir ++ "/server.properties"; dir ++ "/eula.txt" ]})
               ∧ (find_server id (registry st) = None →
                  (getServer id st').1 = Some record)))).
Proof.
  cbv zeta. split.
  { intros Hreq. unfold create. rewrite Hreq. done. }
  intros name port jar Hname Hn Hport Hp Hjar Hj Hcl Hr Hbase.
  assert (str_falsy (b_name body) || num_falsy (b_port body)
          || str_falsy (b_jar body) = false) as Hreq.
  { rewrite Hname, Hport, Hjar. simpl.
    apply Z.eqb_neq in Hp. rewrite Hp. by destruct name, jar. }
  destruct (suffix_shape r Hr) as [Halnum Hlen].
  pose proof (generateId_clean name r Hr) as Hid.
  destruct (install_dirs cl0 Hcl) as (_ & Hjd & Hsd & Hjcl & Hscl).
  assert (Path.join [JAR_DIR (Path.absolute cl0); Path.basename jar]
          = JAR_DIR (Path.absolute cl0) ++ "/" ++ Path.basename jar) as Hart.
  { rewrite Hjd. apply join_below; [done | by destruct cl0 | done]. }
  split; [done|]. split; [done|]. split; [apply basename_no_slash|].
  split.
  { intros Hmiss. unfold create. rewrite Hreq, Hjar. simpl default. rewrite Hart.
    unfold Fs.existsSync. rewrite Hmiss.
    by rewrite bool_decide_false by (by intros [? ?]). }
  intros Hthere.
  pose proof (create_result (Path.absolute cl0) body r st Hreq) as Hres.
  rewrite Hname, Hport, Hjar in Hres. simpl default in Hres.
  rewrite Hart in Hres.
  specialize (Hres ltac:(unfold Fs.existsSync; by apply bool_decide_eq_true_2)).
  cbv zeta in Hres.
  assert (Path.join [SERVERS_DIR (Path.absolute cl0); generateId name r]
          = SERVERS_DIR (Path.absolute cl0) ++ "/" ++ slug name ++ "-" ++ Str.substring 2 7 r)
    as Hdir.
  { rewrite Hsd. apply join_below; [done | by destruct cl0 | done]. }
  rewrite Hdir in Hres.
  set (dir := SERVERS_DIR (Path.absolute cl0) ++ "/" ++ slug name ++ "-"
              ++ Str.substring 2 7 r) in *.
  assert (∀ seg, Path.clean seg = true → Path.join [dir; seg] = dir ++ "/" ++ seg)
    as Hfile.
  { intros seg Hseg. unfold dir. rewrite Hsd.
    rewrite <- (absolute_snoc _ (slug name ++ "-" ++ Str.substring 2 7 r))
      by (by destruct cl0).
    apply join_below; [|by destruct cl0, (_ ++ _)%list|done].
    rewrite forallb_app, Hscl. simpl. unfold generateId in Hid. by rewrite Hid. }
  assert (Path.join [dir; "server.properties"] = dir ++ "/server.properties") as Hf1
    by exact (Hfile "server.properties" eq_refl).
  assert (Path.join [dir; "eula.txt"] = dir ++ "/eula.txt") as Hf2
    by exact (Hfile "eula.txt" eq_refl).
  rewrite Hf1, Hf2 in Hres. clear Hfile Hf1 Hf2.
  assert ((if num_falsy (b_maxMemoryMB body) then 1024%Z
           else default 0%Z (b_maxMemoryMB body))
          = match b_maxMemoryMB body with
            | Some m => if (m =? 0)%Z then 1024%Z else m
            | None => 1024%Z
            end) as Hmem by (by destruct (b_maxMemoryMB body)).
  rewrite Hmem in Hres. clear Hmem.
  pose proof (child_not_self dir "eula.txt") as Hne1.
  pose proof (child_not_self dir "server.properties") as Hne2.
  assert (dir ++ "/server.properties" ≠ dir ++ "/eula.txt") as Hne3.
  { intros H%str_app_inv_head. done. }
  split.
  { intros content Hfile.
    assert (Fs.mkdirSync dir (disk st) = None) as Hmk
      by (apply mkdirSync_None; eauto).
    by rewrite Hmk in Hres. }
  intros Hnofile.
  destruct (Fs.mkdirSync dir (disk st)) as [fs1|] eqn:Emk;
    [|apply mkdirSync_None in Emk as [content Hc]; by destruct (Hnofile content)].
  destruct (mkdirSync_Some _ _ _ Emk) as (Hd1 & Ho1 & Hnew1).
  set (fs2 := if Fs.existsSync (dir ++ "/server.properties") fs1 then fs1
              else <[dir ++ "/server.properties"
                     := File (default_properties port)]> fs1) in *.
  assert (fs2 !! dir = Some Dir) as Hd2.
  { unfold fs2. destruct (Fs.existsSync _ fs1); [done|].
    by rewrite lookup_insert_ne. }
  assert (∀ p, p ≠ dir → p ≠ dir ++ "/server.properties" → fs2 !! p = disk st !! p)
    as Ho2.
  { intros p N1 N2. unfold fs2. destruct (Fs.existsSync _ fs1).
    - by apply Ho1.
    - rewrite lookup_insert_ne by done. by apply Ho1. }
  assert (disk st !! (dir ++ "/server.properties") = None →
          fs2 !! (dir ++ "/server.properties") = Some (File (default_properties port)))
    as Hp2.
  { intros Hnone. unfold fs2, Fs.existsSync.
    rewrite bool_decide_false
      by (rewrite Ho1, Hnone by done; by intros [? ?]).
    apply lookup_insert_eq. }
  assert (∀ x, disk st !! (dir ++ "/server.properties") = Some x →
            fs2 !! (dir ++ "/server.properties") = Some x) as Hk2.
  { intros x Hx. unfold fs2, Fs.existsSync.
    rewrite bool_decide_true by (rewrite Ho1, Hx by done; eauto).
    by rewrite Ho1. }
  assert (fs2 !! (dir ++ "/eula.txt") = disk st !! (dir ++ "/eula.txt")) as He2
    by (by apply Ho2).
  rewrite He2 in Hres.
  assert (∀ fs3,
            disk (create (Path.absolute cl0) body r st).2 = fs3 →
            (fs3 = fs2
             ∨ fs3 = <[dir ++ "/eula.txt" := File ("eula=true" ++ Str.nl)]> fs2) →
            fs3 !! dir = Some Dir
            ∧ (disk st !! (dir ++ "/server.properties") = None →
               fs3 !! (dir ++ "/server.properties")
               = Some (File (default_properties port)))
            ∧ (∀ x, disk st !! (dir ++ "/server.properties") = Some x →
                 fs3 !! (dir ++ "/server.properties") = Some x)
            ∧ (∀ p, p ≠ dir → p ≠ dir ++ "/server.properties" →
                 p ≠ dir ++ "/eula.txt" → fs3 !! p = disk st !! p)) as Hshape.
  { intros fs3 _ [->| ->].
    - split; [done|]. split; [done|]. split; [done|]. intros p ? ? ?. by apply Ho2.
    - rewrite !lookup_insert_ne by done. split; [done|]. split; [done|].
      split; [done|]. intros p ? ? ?. rewrite lookup_insert_ne by done.
      by apply Ho2. }
  destruct (disk st !! (dir ++ "/eula.txt")) as [[|c]|] eqn:Ee.
  - (* a directory where eula.txt goes *)
    rewrite Hres. cbn [fst snd set_disk disk procMap children stateFile].
    destruct (Hshape fs2) as (? & ? & ? & ?);
      [by rewrite Hres | by left |].
    split; [by repeat split|]. split; [|done].
    intros _. split; [done|]. split; [done|]. by rewrite He2.
  - destruct Hres as (Hresp & Hpm & Hch & Hsf & Hdisk).
    destruct (Hshape _ Hdisk) as (? & ? & ? & ?); [by right|].
    rewrite Hdisk. split; [by repeat split|]. split; [done|].
    intros _. split; [done|]. split; [done|].
    split; [apply lookup_insert_eq|]. split.
    { intros Hfresh. rewrite (Hfresh (dir ++ "/eula.txt")) in Ee; [done|].
      right. apply under_child. }
    intros Hold. unfold getServer.
    match goal with |- context [loadServers ?s] =>
      rewrite (loadServers_pair s); unfold registry, loadServers; rewrite Hsf end.
    cbn [fst]. rewrite find_server_app, Hold. unfold find_server. simpl.
    by rewrite String.eqb_refl.
  - destruct Hres as (Hresp & Hpm & Hch & Hsf & Hdisk).
    destruct (Hshape _ Hdisk) as (? & ? & ? & ?); [by right|].
    rewrite Hdisk. split; [by repeat split|]. split; [done|].
    intros _. split; [done|]. split; [done|].
    split; [apply lookup_insert_eq|]. split.
    { intros Hfresh.
      assert (fs1 = <[dir := Dir]> (disk st)) as Hmk'
        by (apply Hnew1, Hfresh; by left).
      assert (disk st !! (dir ++ "/server.properties") = None) as Hno.
      { apply Hfresh. right. apply under_child. }
      unfold Fs.entries_under. apply set_eq. intros p.
      rewrite elem_of_dom, elem_of_union, !elem_of_singleton. split.
      - intros [x [Hx Hu]%map_lookup_filter_Some]. simpl in Hu.
        destruct (decide (p = dir ++ "/eula.txt")) as [->|N1]; [by right|].
        destruct (decide (p = dir ++ "/server.properties")) as [->|N2]; [by left|].
        rewrite lookup_insert_ne in Hx by done.
        destruct (decide (p = dir)) as [->|N3]; [by rewrite under_self in Hu|].
        rewrite Ho2 in Hx by done.
        rewrite Hfresh in Hx by (by right). done.
      - intros [->| ->].
        + exists (File (default_properties port)).
          apply map_lookup_filter_Some. split; [|apply under_child].
          rewrite lookup_insert_ne by done. by apply Hp2.
        + exists (File ("eula=true" ++ Str.nl)).
          apply map_lookup_filter_Some. split; [|apply under_child].
          by rewrite lookup_insert_eq. }
    intros Hold. unfold getServer.
    match goal with |- context [loadServers ?s] =>
      rewrite (loadServers_pair s); unfold registry, loadServers; rewrite Hsf end.
    cbn [fst]. rewrite find_server_app, Hold. unfold find_server. simpl.
    by rewrite String.eqb_refl.
Qed.

(** ** Delete *)


Lemma find_server_None id l : find_server id l = None ↔ ∀ x, x ∈ l → Server.id x ≠ id.
Proof.
  unfold find_server. split.
  - intros H x Hx Heq. apply list_elem_of_In in Hx.
    pose proof (find_none _ _ H x Hx) as Hn. simpl in Hn.
    apply String.eqb_neq in Hn. done.
  - intros H. destruct (find _ l) as [s|] eqn:E; [|done].
    apply find_some in E as [Hin Heq]. apply String.eqb_eq in Heq.
    apply list_elem_of_In in Hin. by destruct (H s Hin).
Qed.

Lemma filter_other_ids id (l : list Server.t) :
  (∀ x, x ∈ l → Server.id x ≠ id) → filter (λ x, Server.id x ≠ id) l = l.
Proof.
  induction l as [|x l IH]; intros H; [done|].
  rewrite filter_cons_True by (apply H; left).
  f_equal. apply IH. intros y Hy. apply H. by right.
Qed.

(** With unique ids the filter of [delete] takes out one record. *)
Lemma filter_removes_one id (l : list Server.t) s :
  NoDup (Server.id <$> l) → find_server id l = Some s →
  ∃ l1 l2, l = (l1 ++ s :: l2)%list
           ∧ filter (λ x, Server.id x ≠ id) l = (l1 ++ l2)%list.
Proof.
  induction l as [|x l IH]; intros Hnd Hf; [done|].
  rewrite fmap_cons in Hnd. apply NoDup_cons in Hnd as [Hx Hnd].
  unfold find_server in Hf. simpl in Hf.
  destruct (String.eqb (Server.id x) id) eqn:E.
  - injection Hf as <-. apply String.eqb_eq in E. exists [], l. split; [done|].
    rewrite filter_cons_False by (intros Hne; by apply Hne).
    simpl. apply filter_other_ids. intros y Hy Heq.
    apply Hx. rewrite E, <- Heq. by apply list_elem_of_fmap_2.
  - apply String.eqb_neq in E. destruct (IH Hnd Hf) as (l1 & l2 & -> & Hfl).
    exists (x :: l1), l2. split; [done|].
    rewrite filter_cons_True by done. simpl. by rewrite Hfl.
Qed.

Lemma delete_cases (id : string) (st : state) :
  let resp := (delete_server id st).1 in
  let st' := (delete_server id st).2 in
  (find_server id (registry st) = None →
     resp = Res 404 (Error "Not found")
     ∧ kind_of resp = Some NotFound ∧ same_world st st')
  ∧ (∀ s, find_server id (registry st) = Some s → is_Some (procMap st !! id) →
     resp = Res 400 (Error "Stop the server first")
     ∧ kind_of resp = Some Conflict ∧ same_world st st')
  ∧ (∀ s, find_server id (registry st) = Some s → procMap st !! id = None →
     resp = Res 200 Ok
     ∧ procMap st' = procMap st ∧ children st' = children st
     ∧ disk st' = Fs.rmSync (Server.dir s) (disk st)
     ∧ stateFile st'
       = Some (Parsed (filter (λ x, Server.id x ≠ id) (registry st)))).
Proof.
  cbv zeta. unfold delete_server. rewrite (loadServers_pair st).
  pose proof (loadServers_frame st) as (Hp & Hc & Hf & Hd).
  split; [|split].
  - intros ->. split; [done|]. split; [done|]. apply same_world_load.
  - intros s -> Hin. rewrite Hp, bool_decide_true by done.
    split; [done|]. split; [done|]. apply same_world_load.
  - intros s -> Hno. rewrite Hp, bool_decide_false by (rewrite Hno; by intros [? ?]).
    simpl. by rewrite Hp, Hc, Hd.
Qed.

Lemma rmSync_lookup d fs p :
  Fs.rmSync d fs !! p
  = if decide (p ≠ d ∧ Fs.under d p = false) then fs !! p else None.
Proof.
  unfold Fs.rmSync. case_decide as Hk.
  - destruct (fs !! p) as [x|] eqn:E.
    + by apply map_lookup_filter_Some.
    + apply map_lookup_filter_None. left. done.
  - apply map_lookup_filter_None. right. intros x _. done.
Qed.

(** How a request changes the records: not at all, by one record appended,
    or, leaving the live mapping alone, by the records of an unmapped id
    taken out. *)
Lemma handle_registry d q st :
  registry (handle d q st).2 = registry st
  ∨ (∃ s, registry (handle d q st).2 = (registry st ++ [s])%list)
  ∨ (∃ id, procMap st !! id = None
           ∧ procMap (handle d q st).2 = procMap st
           ∧ registry (handle d q st).2
             = filter (λ x, Server.id x ≠ id) (registry st)).
Proof.
  destruct q as [|body r|id|id p|id|id cmd|id]; simpl.
  - left. apply registry_stateFile. apply list_frame.
  - destruct (str_falsy (b_name body) || num_falsy (b_port body)
              || str_falsy (b_jar body)) eqn:Hreq.
    { left. unfold create. by rewrite Hreq. }
    destruct (Fs.existsSync
                (Path.join [JAR_DIR d; Path.basename (default "" (b_jar body))])
                (disk st)) eqn:Hj.
    2:{ left. unfold create. by rewrite Hreq, Hj. }
    pose proof (create_result d body r st Hreq Hj) as Hres. cbv zeta in Hres.
    destruct (Fs.mkdirSync _ _) as [fs1|]; [|left; by rewrite Hres].
    match type of Hres with match ?x with _ => _ end =>
      destruct x as [[|c]|] end;
      [left; rewrite Hres; by apply registry_stateFile | |];
      destruct Hres as (_ & _ & _ & Hsf & _);
      right; left; eexists; unfold registry at 1, loadServers; by rewrite Hsf.
  - destruct (delete_cases id st) as (Ha & Hb & Hc). cbv zeta in *.
    destruct (find_server id (registry st)) as [s|] eqn:Hs.
    2:{ left. apply registry_stateFile. by destruct Ha as (_ & _ & (_ & _ & ? & _)). }
    destruct (procMap st !! id) as [h|] eqn:Hid.
    { left. apply registry_stateFile.
      by destruct (Hb s) as (_ & _ & (_ & _ & ? & _)). }
    destruct (Hc s) as (_ & Hp & _ & _ & Hsf); [done..|].
    right. right. exists id. split; [done|]. split; [done|].
    unfold registry at 1, loadServers. by rewrite Hsf.
  - left. apply registry_stateFile.
    pose proof (loadServers_frame st) as (_ & _ & Hsf & _).
    unfold start, getServer. rewrite (loadServers_pair st).
    destruct (bool_decide _); [done|].
    destruct (find_server _ _); [|done].
    by destruct (negb _).
  - left. apply registry_stateFile. unfold stop. by destruct (procMap st !! id).
  - left. apply registry_stateFile. unfold send_command.
    destruct (procMap st !! id); [|done]. by destruct (str_falsy cmd).
  - left. apply registry_stateFile. apply logs_frame.
Qed.

(** An id that is mapped after a request was mapped before it, or has a
    record. *)
Lemma handle_mapping_origin d q st id :
  is_Some (procMap (handle d q st).2 !! id) →
  is_Some (procMap st !! id) ∨ is_Some (find_server id (registry st)).
Proof.
  intros Hid. destruct q as [|body r|id'|id' p|id'|id' cmd|id']; simpl in Hid.
  - left. by destruct (list_frame st) as (<- & _).
  - left. by destruct (create_frame d body r st) as (<- & _).
  - left. by destruct (delete_frame id' st) as (<- & _).
  - pose proof (loadServers_frame st) as (Hlp & _).
    destruct (start_cases d id' p st)
      as [(_ & Heq)|[(_ & _ & Heq)|[(s & _ & _ & _ & Heq)
          |(s & _ & Hs & _ & _ & _ & Hp)]]];
      [rewrite Heq in Hid; simpl in Hid; rewrite ?Hlp in Hid; by left ..|].
    rewrite Hp in Hid. destruct (decide (id' = id)) as [<-|Hne].
    + right. by rewrite Hs.
    + left. by rewrite lookup_insert_ne in Hid.
  - left. unfold stop in Hid. by destruct (procMap st !! id').
  - left. unfold send_command in Hid. destruct (procMap st !! id'); [|done].
    by destruct (str_falsy cmd).
  - left. by destruct (logs_frame id' st) as (<- & _).
Qed.

Lemma find_server_filter id id' (l : list Server.t) :
  id ≠ id' →
  find_server id (filter (λ x, Server.id x ≠ id') l) = find_server id l.
Proof.
  intros Hne. unfold find_server. induction l as [|x l IH]; [done|].
  destruct (decide (Server.id x = id')) as [Heq|Hx].
  - rewrite filter_cons_False by (intros H; by apply H). simpl.
    assert (String.eqb (Server.id x) id = false) as ->; [|done].
    apply String.eqb_neq. congruence.
  - rewrite filter_cons_True by done. simpl. by rewrite IH.
Qed.

Lemma step_mapped_recorded d e st :
  mapped_recorded st → mapped_recorded (step d e st).
Proof.
  intros Hst. destruct e as [q|h chunk|h code]; simpl.
  - intros id Hid.
    assert (is_Some (find_server id (registry st))) as Hrec.
    { destruct (handle_mapping_origin d q st id Hid); [by apply Hst | done]. }
    destruct (handle_registry d q st) as [->|[(s & ->)|(id' & Hid' & Hp & ->)]].
    + done.
    + rewrite find_server_app. by destruct Hrec as [x ->].
    + rewrite find_server_filter; [done|]. intros ->.
      rewrite Hp, Hid' in Hid. by destruct Hid.
  - unfold on_data. destruct (children st !! h) as [c|]; [|done].
    destruct (closed c); [done|]. intros id.
    rewrite (registry_stateFile st (set_disk _ st)) by done. apply Hst.
  - unfold on_close. destruct (children st !! h) as [c|]; [|done].
    destruct (closed c); [done|]. intros id.
    match goal with |- context [registry ?s] =>
      rewrite (registry_stateFile st s) by done end.
    simpl. destruct (decide (owner c = id)) as [<-|Hne].
    + rewrite lookup_delete_eq. by intros [? ?].
    + rewrite lookup_delete_ne by done. apply Hst.
Qed.

Lemma reachable_mapped_recorded d st : reachable d st → mapped_recorded st.
Proof.
  induction 1 as [file fs|e st _ IH].
  - intros id. simpl. rewrite lookup_empty. by intros [? ?].
  - by apply step_mapped_recorded.
Qed.

(** C7, where the claim fails: two requests with names of the same slug,
    handled in calls where [Math.random()] gives the same digits, leave
    two records with one id; [delete] of that id takes both out, not
    exactly the one it found. *)
Lemma delete_takes_every_record_of_the_id :
  reachable Demo.home Demo.created_twice
  ∧ registry Demo.created_twice = [Demo.lobby_record; Demo.lobby_again_record]
  ∧ Server.id Demo.lobby_again_record = Server.id Demo.lobby_record
  ∧ find_server Demo.lobby_id (registry Demo.created_twice) = Some Demo.lobby_record
  ∧ (delete_server Demo.lobby_id Demo.created_twice).1 = Res 200 Ok
  ∧ registry (delete_server Demo.lobby_id Demo.created_twice).2 = []
  ∧ registry (delete_server Demo.lobby_id Demo.created_twice).2
    ≠ [Demo.lobby_again_record].
Proof.
  split.
  { exact (reachable_step Demo.home
             (Request (Create Demo.lobby_again "0.k3x9qzr1")) _
             (reachable_step Demo.home (Request (Create Demo.lobby "0.k3x9qzr1")) _
                (reachable_boot Demo.home None Demo.fresh_disk))). }
  vm_compute. repeat split; done.
Qed.

(** C7, amended. [delete] answers 404 "Not found" (NotFound) for an id
    without record and 400 "Stop the server first" (Conflict) for a
    recorded id that is mapped to a process; both leave the registry file,
    the disk and the processes as they were; in a state the manager can
    reach every mapped id has a record, so there a mapped id always gets
    the Conflict. Otherwise it answers 200, nothing is left on disk at or
    below the directory of the record while every other path keeps its
    entry, and the registry written back is the old one without every
    record of that id, the others in their order; when the ids of the
    registry are unique that is the old registry with exactly this record
    taken out. *)
Theorem delete_removes_record_and_directory (id : string) (st : state) :
  let resp := (delete_server id st).1 in
  let st' := (delete_server id st).2 in
  (find_server id (registry st) = None →
     resp = Res 404 (Error "Not found")
     ∧ kind_of resp = Some NotFound ∧ same_world st st')
  ∧ (∀ s, find_server id (registry st) = Some s → is_Some (procMap st !! id) →
     resp = Res 400 (Error "Stop the server first")
     ∧ kind_of resp = Some Conflict ∧ same_world st st')
  ∧ (∀ d, reachable d st → is_Some (procMap st !! id) →
     resp = Res 400 (Error "Stop the server first")
     ∧ kind_of resp = Some Conflict ∧ same_world st st')
  ∧ (∀ s, find_server id (registry st) = Some s → procMap st !! id = None →
     resp = Res 200 Ok
     ∧ procMap st' = procMap st ∧ children st' = children st
     ∧ (∀ p, p = Server.dir s ∨ Fs.under (Server.dir s) p = true →
             disk st' !! p = None)
     ∧ (∀ p, p ≠ Server.dir s → Fs.under (Server.dir s) p = false →
             disk st' !! p = disk st !! p)
     ∧ registry st' = filter (λ x, Server.id x ≠ id) (registry st)
     ∧ find_server id (registry st') = None
     ∧ (NoDup (Server.id <$> registry st) →
        ∃ l1 l2, registry st = (l1 ++ s :: l2)%list
                 ∧ registry st' = (l1 ++ l2)%list)).
Proof.
  cbv zeta. pose proof (delete_cases id st) as (Ha & Hb & Hc). cbv zeta in *.
  split; [done|]. split; [done|].
  split.
  { intros d Hr Hin.
    destruct (reachable_mapped_recorded d st Hr id Hin) as [s Hs]. by apply (Hb s). }
  intros s Hs Hno. destruct (Hc s Hs Hno) as (Hr & Hp & Hch & Hd & Hf).
  assert (registry (delete_server id st).2
          = filter (λ x, Server.id x ≠ id) (registry st)) as Hreg.
  { unfold registry at 1, loadServers. by rewrite Hf. }
  split; [done|]. split; [done|]. split; [done|].
  split. { intros p Hp'. rewrite Hd, rmSync_lookup. case_decide as Hk; [|done].
           destruct Hk as [Hk1 Hk2]. destruct Hp' as [->|Hu]; [done|congruence]. }
  split. { intros p Hp1 Hp2. rewrite Hd, rmSync_lookup. by rewrite decide_True. }
  split; [done|].
  split. { rewrite Hreg. apply find_server_None. intros x Hx.
           apply list_elem_of_filter in Hx as [Hx _]. done. }
  intros Hnd. rewrite Hreg. by apply filter_removes_one.
Qed.

(** ** The jar a process is launched with *)

(** A base name other than the empty one, ["."] and [".."] is a clean
    segment, and the jar [start] launches for it lies in the artifact
    directory. *)
Lemma jar_path_below (cl0 : list string) (jar : string) :
  forallb Path.clean cl0 = true →
  Path.basename jar ≠ "" → Path.basename jar ≠ "." → Path.basename jar ≠ ".." →
  Path.join [JAR_DIR (Path.absolute cl0); Path.basename jar]
  = JAR_DIR (Path.absolute cl0) ++ "/" ++ Path.basename jar
  ∧ Fs.under (JAR_DIR (Path.absolute cl0))
      (Path.join [JAR_DIR (Path.absolute cl0); Path.basename jar]) = true.
Proof.
  intros Hcl H0 H1 H2.
  destruct (install_dirs cl0 Hcl) as (_ & Hjd & _ & Hjcl & _).
  assert (Path.clean (Path.basename jar) = true) as Hb.
  { unfold Path.clean, Path.is_dot, Path.is_dotdot.
    rewrite basename_no_slash.
    apply String.eqb_neq in H1, H2. rewrite H1, H2.
    by destruct (Path.basename jar). }
  assert (Path.join [JAR_DIR (Path.absolute cl0); Path.basename jar]
          = JAR_DIR (Path.absolute cl0) ++ "/" ++ Path.basename jar) as Heq.
  { rewrite Hjd. apply join_below; [done | by destruct cl0 | done]. }
  split; [done|]. rewrite Heq. apply under_child.
Qed.

(** C10, at the input where the code leaves the artifact directory: the
    jar [..] is its own base name and has no separator in it, [create]
    accepts it because the data directory exists, and [start] then
    launches [java -jar] on the data directory, the parent of the
    artifact directory. *)
Theorem start_launches_outside_jar_dir :
  Path.basename ".." = ".."
  ∧ Path.no_slash (Path.basename "..") = true
  ∧ (create Demo.home Demo.lobby_of_parent "0.k3x9qzr1" Demo.booted).1
    = Res 200 (Record_ (Server.mk "lobby-k3x9q" "Lobby" 25565 1024 ".."
                          "/srv/data/servers/lobby-k3x9q"))
  ∧ (start Demo.home "lobby-k3x9q" 4242 Demo.created_of_parent).1
    = Res 200 (OkPid 4242)
  ∧ args <$> children (start Demo.home "lobby-k3x9q" 4242 Demo.created_of_parent).2
    = [["-Xmx1024M"; "-Xms512M"; "-jar"; "/srv/data"; "nogui"]]
  ∧ JAR_DIR Demo.home = "/srv/data/jars"
  ∧ Fs.under (JAR_DIR Demo.home) "/srv/data" = false.
Proof. vm_compute. repeat split; done. Qed.

(** ** The theorems at the concrete installation *)

Lemma created_reachable : reachable Demo.home Demo.created.
Proof.
  exact (reachable_step Demo.home (Request (Create Demo.lobby "0.k3x9qzr1")) _
           (reachable_boot Demo.home None Demo.fresh_disk)).
Defined.

Lemma running_reachable : reachable Demo.home Demo.running.
Proof.
  exact (reachable_step Demo.home (Request (Start Demo.lobby_id 4242)) _
           created_reachable).
Defined.

(** [start] of the created lobby succeeds; a second [start] of the running
    lobby is a Conflict. *)
Lemma start_checks_in_order_witness :
  (start Demo.home Demo.lobby_id 4242 Demo.created).1 = Res 200 (OkPid 4242)
  ∧ (start Demo.home Demo.lobby_id 4243 Demo.running).1
    = Res 400 (Error "Already running").
Proof.
  split.
  - destruct (start_checks_in_order Demo.home Demo.lobby_id 4242 Demo.created)
      as (_ & _ & _ & H).
    destruct (H Demo.lobby_record) as (Hr & _);
      [vm_compute; reflexivity .. | exact Hr].
  - destruct (start_checks_in_order Demo.home Demo.lobby_id 4243 Demo.running)
      as (H & _).
    destruct H as (Hr & _); [vm_compute; eexists; reflexivity | exact Hr].
Defined.

Lemma one_live_process_per_id_witness :
  reachable Demo.home Demo.created
  ∧ (start Demo.home Demo.lobby_id 1 Demo.created).1 = Res 200 (OkPid 1)
  ∧ (start Demo.home Demo.lobby_id 2
       (run Demo.home [Request (Stop Demo.lobby_id); Data 0 "Done"]
          (start Demo.home Demo.lobby_id 1 Demo.created).2)).1
    = Res 400 (Error "Already running").
Proof.
  split; [exact created_reachable|].
  destruct (one_live_process_per_id Demo.home Demo.created created_reachable)
    as (_ & _ & H).
  destruct (H Demo.lobby_id 1%Z 2%Z [Request (Stop Demo.lobby_id); Data 0 "Done"])
    as (Hsecond & Hfirst); [repeat constructor|].
  destruct Hfirst as (H1 & Hok).
  - split; [vm_compute; reflexivity|].
    exists Demo.lobby_record. split; vm_compute; reflexivity.
  - split; [exact H1|]. exact (proj1 (Hsecond Hok)).
Defined.

Lemma stop_is_fire_and_forget_witness :
  reachable Demo.home Demo.running
  ∧ procMap Demo.running !! Demo.lobby_id = Some 0
  ∧ (stop Demo.lobby_id Demo.running).1 = Res 200 Ok
  ∧ procMap (stop Demo.lobby_id Demo.running).2 = procMap Demo.running
  ∧ (let st1 := run Demo.home Demo.meanwhile (stop Demo.lobby_id Demo.running).2 in
     procMap st1 !! "creative-a1b2c" = None
     ∧ (λ c, (owner c, closed c)) <$> children st1 !! 1
       = Some ("creative-a1b2c", true)
     ∧ procMap st1 !! Demo.lobby_id = Some 0
     ∧ Fs.content_of "/srv/data/servers/lobby-k3x9q/console.log"
         (disk (on_close 0 (Some 137%Z) st1))
       = "Done" ++ Str.nl ++ "[process exited with code 137]" ++ Str.nl
     ∧ Fs.content_of "/srv/data/servers/lobby-k3x9q/console.log"
         (disk (on_close 0 None st1))
       = "Done" ++ Str.nl ++ "[process exited with code null]" ++ Str.nl).
Proof.
  split; [exact running_reachable|].
  assert (procMap Demo.running !! Demo.lobby_id = Some 0) as Hid
    by (vm_compute; reflexivity).
  split; [exact Hid|].
  destruct (stop_is_fire_and_forget Demo.home Demo.lobby_id Demo.running
              running_reachable) as (H & _).
  destruct (H 0 Hid) as (c & [Hc _] & _ & Hr & Hp & _ & _ & _ & _ & Hrun).
  split; [exact Hr|]. split; [exact Hp|].
  assert (logStream c = "/srv/data/servers/lobby-k3x9q/console.log") as Hlog.
  { assert (children Demo.running !! 0
            = Some (mkChild Demo.lobby_id 4242 "java"
                      (heap_then_jar_args 2048 "/srv/data/jars/paper.jar")
                      "/srv/data/servers/lobby-k3x9q" []
                      "/srv/data/servers/lobby-k3x9q/console.log" false)) as Hc'
      by (vm_compute; reflexivity).
    rewrite Hc' in Hc. by injection Hc as <-. }
  destruct (Hrun Demo.meanwhile) as (Hm & Hclose);
    [repeat constructor|].
  cbv zeta. split; [vm_compute; reflexivity|].
  split; [vm_compute; reflexivity|]. split; [exact Hm|].
  rewrite Hlog in Hclose. split.
  - rewrite (proj2 (Hclose (Some 137%Z))). vm_compute. reflexivity.
  - rewrite (proj2 (Hclose None)). vm_compute. reflexivity.
Defined.

Lemma logs_returns_tail_witness :
  (N.of_nat (String.length Demo.short_log) ≤ 1024 * 1024)%N
  ∧ length (split_lines (toString_utf8 Demo.short_log)) = 3000
  ∧ (logs Demo.lobby_id Demo.with_short_log).1
    = Res 200 (Plain (Str.join Str.nl (drop 1000 (split_lines Demo.short_log))))
  ∧ (logs Demo.lobby_id Demo.with_latin_log).1
    = Res 200 (Plain ("caf" ++ replacement ++ Str.nl)).
Proof.
  assert ((N.of_nat (String.length Demo.short_log) ≤ 1024 * 1024)%N) as Hsize
    by (vm_compute; discriminate).
  assert (length (split_lines (toString_utf8 Demo.short_log)) = 3000) as Hlines
    by (vm_compute; reflexivity).
  split; [exact Hsize|]. split; [exact Hlines|]. split.
  - destruct (logs_returns_tail Demo.lobby_id Demo.with_short_log) as (_ & H).
    destruct (H Demo.lobby_record) as (_ & Hfile); [vm_compute; reflexivity|].
    destruct (Hfile Demo.short_log)
      as (buffer & lines & Hr & _ & _ & _ & _ & _ & Hsmall);
      [vm_compute; reflexivity|].
    destruct (Hsmall Hsize) as (_ & _ & H3000).
    destruct (H3000 Hlines) as (Hl & _).
    rewrite Hr, Hl. vm_compute. reflexivity.
  - destruct (logs_returns_tail Demo.lobby_id Demo.with_latin_log) as (_ & H).
    destruct (H Demo.lobby_record) as (_ & Hfile); [vm_compute; reflexivity|].
    destruct (Hfile Demo.latin_log)
      as (buffer & lines & Hr & _ & _ & _ & _ & _ & Hsmall);
      [vm_compute; reflexivity|].
    destruct Hsmall as (_ & Hfew & _); [vm_compute; discriminate|].
    rewrite Hr, Hfew; [vm_compute; reflexivity | vm_compute; lia].
Defined.

Lemma delete_removes_record_and_directory_witness :
  find_server Demo.lobby_id (registry Demo.created) = Some Demo.lobby_record
  ∧ (delete_server Demo.lobby_id Demo.created).1 = Res 200 Ok
  ∧ registry (delete_server Demo.lobby_id Demo.created).2 = []
  ∧ disk (delete_server Demo.lobby_id Demo.created).2
      !! "/srv/data/servers/lobby-k3x9q/eula.txt" = None.
Proof.
  assert (find_server Demo.lobby_id (registry Demo.created) = Some Demo.lobby_record)
    as Hs by (vm_compute; reflexivity).
  split; [exact Hs|].
  destruct (delete_removes_record_and_directory Demo.lobby_id Demo.created)
    as (_ & _ & _ & H).
  destruct (H Demo.lobby_record Hs) as (Hr & _ & _ & Hgone & _ & Hreg & _);
    [vm_compute; reflexivity|].
  split; [exact Hr|]. split.
  - rewrite Hreg. vm_compute. reflexivity.
  - apply Hgone. right. vm_compute. reflexivity.
Defined.

Lemma start_launch_arguments_witness :
  succeeded (start Demo.home Demo.lobby_id 4242 Demo.created).1 = true
  ∧ args <$> children (start Demo.home Demo.lobby_id 4242 Demo.created).2
    = [heap_then_jar_args 2048 "/srv/data/jars/paper.jar"].
Proof.
  assert (succeeded (start Demo.home Demo.lobby_id 4242 Demo.created).1 = true)
    as Hok by (vm_compute; reflexivity).
  split; [exact Hok|].
  destruct (start_launch_arguments Demo.home Demo.lobby_id 4242 Demo.created Hok)
    as (s & c & Hs & Hch & _ & _ & _ & Hargs & _).
  assert (s = Demo.lobby_record) as ->.
  { assert (find_server Demo.lobby_id (registry Demo.created)
            = Some Demo.lobby_record) as Hs' by (vm_compute; reflexivity).
    rewrite Hs' in Hs. by injection Hs as <-. }
  destruct Hargs as (Hargs & _); [discriminate|].
  rewrite Hch. change (children Demo.created) with (@nil child).
  simpl. rewrite Hargs. reflexivity.
Defined.

Lemma loadServers_never_escalates_witness :
  stateFile Demo.corrupted = Some Unparseable
  ∧ (loadServers Demo.corrupted).1 = []
  ∧ console (loadServers Demo.corrupted).2 = ["Failed to parse servers.json:"]
  ∧ (handle Demo.home ListServers Demo.corrupted).1 = Res 200 (Listing [])
  ∧ (handle Demo.home (Logs Demo.lobby_id) Demo.corrupted).1
    = Res 404 (Error "Not found")
  ∧ (handle Demo.home (Create Demo.lobby "0.k3x9qzr1") Demo.corrupted).1
    = Res 200 (Record_ Demo.lobby_record)
  ∧ registry (handle Demo.home (Create Demo.lobby "0.k3x9qzr1") Demo.corrupted).2
    = [Demo.lobby_record].
Proof.
  split; [reflexivity|].
  destruct (loadServers_never_escalates Demo.home Demo.corrupted) as (_ & H2 & H3).
  destruct (H2 eq_refl) as (Hl & _ & Hc).
  split; [exact Hl|]. split; [exact Hc|].
  destruct (H3 (or_intror eq_refl)) as (_ & _ & Hq).
  split; [|split; [|split]].
  - rewrite (proj1 (Hq ListServers)). vm_compute. reflexivity.
  - rewrite (proj1 (Hq (Logs Demo.lobby_id))). vm_compute. reflexivity.
  - rewrite (proj1 (Hq (Create Demo.lobby "0.k3x9qzr1"))). vm_compute. reflexivity.
  - destruct (Hq (Create Demo.lobby "0.k3x9qzr1")) as (_ & _ & _ & _ & ->).
    vm_compute. reflexivity.
Defined.

Lemma booted_disk_paths :
  dom (disk Demo.booted)
  = ({[ "/srv/data"; "/srv/data/jars"; "/srv/data/servers";
        "/srv/data/jars/paper.jar" ]} : gset string).
Proof. vm_compute. reflexivity. Qed.

Lemma create_contract_witness :
  (create Demo.home Demo.lobby "0.k3x9qzr1" Demo.booted).1
  = Res 200 (Record_ Demo.lobby_record)
  ∧ Fs.entries_under "/srv/data/servers/lobby-k3x9q" (disk Demo.created)
    = {[ "/srv/data/servers/lobby-k3x9q/server.properties";
         "/srv/data/servers/lobby-k3x9q/eula.txt" ]}
  ∧ disk Demo.created !! "/srv/data/servers/lobby-k3x9q/server.properties"
    = Some (File ("server-port=25565" ++ Str.nl ++ "max-players=20" ++ Str.nl
                  ++ "enable-jmx-monitoring=false" ++ Str.nl))
  ∧ (getServer Demo.lobby_id Demo.created).1 = Some Demo.lobby_record
  ∧ create Demo.home Demo.lobby "0.k3x9qzr1" Demo.blocked
    = (Res 500 ErrorPage, Demo.blocked)
  ∧ (create Demo.home Demo.lobby "0.k3x9qzr1" Demo.eula_folder).1 = Res 500 ErrorPage
  ∧ stateFile (create Demo.home Demo.lobby "0.k3x9qzr1" Demo.eula_folder).2 = None
  ∧ disk (create Demo.home Demo.lobby "0.k3x9qzr1" Demo.eula_folder).2
      !! "/srv/data/servers/lobby-k3x9q" = Some Dir.
Proof.
  destruct (create_contract ["srv"] Demo.lobby "0.k3x9qzr1" Demo.booted) as (_ & H).
  destruct (H "Lobby" 25565%Z "paper.jar") as (_ & _ & _ & _ & H2);
    [reflexivity | discriminate | reflexivity | discriminate
    | reflexivity | discriminate | reflexivity | reflexivity | reflexivity |].
  destruct H2 as (_ & H3); [vm_compute; eauto|]. clear H.
  destruct H3 as ((_ & Hprops & _) & _ & Hok); [vm_compute; discriminate|].
  destruct Hok as (Hresp & _ & _ & Hfresh & Hget); [vm_compute; discriminate|].
  split; [exact Hresp|]. split; [|split; [|split]].
  - apply Hfresh. intros p Hp.
    destruct (disk Demo.booted !! p) as [x|] eqn:E; [exfalso|reflexivity].
    assert (p ∈ dom (disk Demo.booted)) as Hin by (apply elem_of_dom; eauto).
    rewrite booted_disk_paths in Hin.
    repeat (apply elem_of_union in Hin as [Hin|Hin]);
      apply elem_of_singleton in Hin; subst p;
      (destruct Hp as [Hp|Hp]; [discriminate Hp | vm_compute in Hp; discriminate Hp]).
  - apply Hprops. vm_compute. reflexivity.
  - apply Hget. vm_compute. reflexivity.
  - destruct (create_contract ["srv"] Demo.lobby "0.k3x9qzr1" Demo.blocked)
      as (_ & H).
    destruct (H "Lobby" 25565%Z "paper.jar") as (_ & _ & _ & _ & Hb);
      [reflexivity | discriminate | reflexivity | discriminate
      | reflexivity | discriminate | reflexivity | reflexivity | reflexivity |].
    destruct Hb as (Hfile & _); [vm_compute; eauto|]. clear H.
    split; [apply (Hfile "x"); vm_compute; reflexivity|].
    destruct (create_contract ["srv"] Demo.lobby "0.k3x9qzr1" Demo.eula_folder)
      as (_ & H).
    destruct (H "Lobby" 25565%Z "paper.jar") as (_ & _ & _ & _ & He);
      [reflexivity | discriminate | reflexivity | discriminate
      | reflexivity | discriminate | reflexivity | reflexivity | reflexivity |].
    destruct He as (_ & H4); [vm_compute; eauto|]. clear H.
    destruct H4 as ((Hd & _) & Hbad & _); [vm_compute; discriminate|].
    destruct Hbad as (Hr & Hsf & _); [vm_compute; reflexivity|].
    split; [exact Hr|]. split; [exact Hsf | exact Hd].
Defined.

(** * More of [server.js] and of the dashboard *)

(** ** Output of the children *)

Lemma on_data_live (h : nat) (chunk : string) (st : state) (c : child) :
  children st !! h = Some c → closed c = false →
  on_data h chunk st = set_disk (Fs.append (logStream c) chunk (disk st)) st.
Proof. intros Hc Hcl. unfold on_data. by rewrite Hc, Hcl. Qed.

Lemma append_content (p data : string) (fs : gmap string node) :
  Fs.content_of p (Fs.append p data fs) = Fs.content_of p fs ++ data.
Proof. unfold Fs.append, Fs.content_of at 1. by rewrite lookup_insert_eq. Qed.

Lemma append_other (p q data : string) (fs : gmap string node) :
  q ≠ p → Fs.append p data fs !! q = fs !! q.
Proof. intros Hne. unfold Fs.append. by rewrite lookup_insert_ne. Qed.

(** X1. The chunks a child writes to stdout and stderr reach its log file
    in the order in which they arrive and nothing else changes: after the
    data events for the chunks [chunks] the log holds what it held,
    followed by the chunks one after the other; every other path, the live
    mapping, the children and the registry file are as before. *)
Theorem output_is_appended_in_order (d : string) (h : nat) (c : child)
    (chunks : list string) (st : state) :
  children st !! h = Some c → closed c = false →
  let st' := run d (map (Data h) chunks) st in
  Fs.content_of (logStream c) (disk st')
  = Fs.content_of (logStream c) (disk st) ++ Str.join "" chunks
  ∧ (∀ p, p ≠ logStream c → disk st' !! p = disk st !! p)
  ∧ procMap st' = procMap st ∧ children st' = children st
  ∧ stateFile st' = stateFile st.
Proof.
  intros Hc Hcl. cbv zeta. revert st Hc.
  induction chunks as [|chunk chunks IH]; intros st Hc.
  - simpl. rewrite str_app_nil_r. by repeat split.
  - simpl. rewrite (on_data_live h chunk st c Hc Hcl).
    destruct (IH (set_disk (Fs.append (logStream c) chunk (disk st)) st) Hc)
      as (Hlog & Hother & Hp & Hch & Hsf).
    split.
    { rewrite Hlog. simpl. rewrite append_content.
      destruct chunks as [|x l]; simpl;
        rewrite ?str_app_nil_r, ?str_app_assoc; done. }
    split.
    { intros p Hne. rewrite Hother by auto. simpl. by apply append_other. }
    done.
Qed.

Lemma output_is_appended_in_order_witness :
  children Demo.running !! 0 = Some (mkChild Demo.lobby_id 4242 "java"
      (heap_then_jar_args 2048 "/srv/data/jars/paper.jar")
      "/srv/data/servers/lobby-k3x9q" []
      "/srv/data/servers/lobby-k3x9q/console.log" false)
  ∧ Fs.content_of "/srv/data/servers/lobby-k3x9q/console.log"
      (disk (run Demo.home [Data 0 "Starting"; Data 0 " server"] Demo.running))
    = "Starting server".
Proof.
  assert (children Demo.running !! 0 = Some (mkChild Demo.lobby_id 4242 "java"
      (heap_then_jar_args 2048 "/srv/data/jars/paper.jar")
      "/srv/data/servers/lobby-k3x9q" []
      "/srv/data/servers/lobby-k3x9q/console.log" false)) as Hc
    by (vm_compute; reflexivity).
  split; [exact Hc|].
  destruct (output_is_appended_in_order Demo.home 0 _ ["Starting"; " server"]
              Demo.running Hc eq_refl) as (Hlog & _).
  etrans; [exact Hlog | vm_compute; reflexivity].
Defined.

(** ** The listing of the instances *)

(** X2. [GET /api/servers] answers the records of the registry in their
    order, each with a running flag, and changes nothing but the console.
    In a state the manager can reach the flag of a record is set exactly
    when a child started for its id has not closed yet. *)
Theorem listing_shows_what_runs (d : string) (st : state) :
  reachable d st →
  ∃ l, (list_servers st).1 = Res 200 (Listing l)
       ∧ l.*1 = registry st
       ∧ same_world st (list_servers st).2
       ∧ ∀ s b, (s, b) ∈ l →
           (b = true ↔ ∃ h c, live st h c ∧ owner c = Server.id s).
Proof.
  intros Hr. destruct (reachable_consistent d st Hr) as [H1 H2].
  unfold list_servers. rewrite (loadServers_pair st).
  pose proof (loadServers_frame st) as (Hp & _).
  eexists. split; [reflexivity|]. cbn [fst snd].
  split. { rewrite <- list_fmap_compose. by rewrite list_fmap_id. }
  split; [apply same_world_load|].
  intros s b [s' [[= -> ->] Hin]]%list_elem_of_fmap.
  rewrite Hp, bool_decide_eq_true. split.
  - intros [h Hh]. destruct (H1 _ _ Hh) as (c & Hc & Ho & Hcl).
    exists h, c. by repeat split.
  - intros (h & c & [Hc Hcl] & Ho). exists h. rewrite <- Ho. by apply H2.
Qed.

Lemma listing_shows_what_runs_witness :
  reachable Demo.home Demo.running
  ∧ ∃ l, (list_servers Demo.running).1 = Res 200 (Listing l)
         ∧ l.*1 = [Demo.lobby_record]
         ∧ ∀ s b, (s, b) ∈ l →
             (b = true ↔ ∃ h c, live Demo.running h c ∧ owner c = Server.id s).
Proof.
  split; [exact running_reachable|].
  destruct (listing_shows_what_runs Demo.home Demo.running running_reachable)
    as (l & Hl & Hfst & _ & Hflag).
  exists l. split; [exact Hl|]. split; [|exact Hflag].
  etrans; [exact Hfst | vm_compute; reflexivity].
Defined.

(** ** Trimming and the dashboard's console line *)

Lemma trimStart_head (s : string) :
  Str.trimStart s = "" ∨ ∃ c r, Str.trimStart s = String c r ∧ Str.is_ws c = false.
Proof.
  induction s as [|c s IH]; [by left|]. simpl.
  destruct (Str.is_ws c) eqn:E; [exact IH|]. right. by exists c, s.
Qed.

Lemma trimEnd_cons (c : ascii) (s : string) :
  Str.is_ws c = false → Str.trimEnd (String c s) = String c (Str.trimEnd s).
Proof. intros Hc. simpl. rewrite Hc. by destruct (Str.trimEnd s). Qed.

Lemma trimEnd_idem (s : string) : Str.trimEnd (Str.trimEnd s) = Str.trimEnd s.
Proof.
  induction s as [|c s IH]; [done|].
  change (Str.trimEnd (String c s))
    with (match Str.trimEnd s with
          | "" => if Str.is_ws c then "" else String c ""
          | t => String c t
          end).
  destruct (Str.trimEnd s) as [|c' t] eqn:E.
  - destruct (Str.is_ws c) eqn:Ec; [done|]. simpl. by rewrite Ec.
  - change (Str.trimEnd (String c (String c' t)))
      with (match Str.trimEnd (String c' t) with
            | "" => if Str.is_ws c then "" else String c ""
            | t => String c t
            end).
    by rewrite IH.
Qed.

(** Trimming a trimmed text changes nothing. *)
Lemma trim_idem (s : string) : Str.trim (Str.trim s) = Str.trim s.
Proof.
  unfold Str.trim.
  destruct (trimStart_head s) as [->|(c & r & -> & Hc)]; [done|].
  rewrite trimEnd_cons by done. simpl. rewrite Hc.
  rewrite <- (trimEnd_cons c r Hc) at 1. rewrite trimEnd_idem.
  by rewrite trimEnd_cons.
Qed.

Lemma is_empty_eq (s : string) : Str.is_empty s = true ↔ s = "".
Proof. by destruct s. Qed.

(** X3. A console line typed into the dashboard: when it is blank the
    dashboard sends no request at all; otherwise the command handler,
    for a running instance, answers 200 and writes to the child's stdin
    exactly the typed text without the white space around it, followed
    by one newline. A blank line is never written this way. *)
Theorem dashboard_line_reaches_stdin (value id : string) (h : nat) (st : state) :
  procMap st !! id = Some h →
  match dashboard_command value with
  | None => Str.trim value = ""
  | Some cmd =>
      cmd = Str.trim value ∧ cmd ≠ ""
      ∧ send_command id (Some cmd) st
        = (Res 200 Ok, stdin_write h (Str.trim value ++ Str.nl) st)
  end.
Proof.
  intros Hid. unfold dashboard_command.
  destruct (Str.is_empty (Str.trim value)) eqn:E.
  - by apply is_empty_eq.
  - assert (Str.trim value ≠ "") as Hne by (intros H; by rewrite H in E).
    split; [done|]. split; [done|].
    destruct (send_command_cases id (Some (Str.trim value)) st) as (_ & _ & H).
    rewrite (H h (Str.trim value) Hid eq_refl Hne). by rewrite trim_idem.
Qed.

Lemma dashboard_line_reaches_stdin_witness :
  procMap Demo.running !! Demo.lobby_id = Some 0
  ∧ dashboard_command "  say hello  " = Some "say hello"
  ∧ stdin <$> children (send_command Demo.lobby_id (Some "say hello") Demo.running).2
    = [["say hello" ++ Str.nl]]
  ∧ dashboard_command "   " = None.
Proof.
  assert (procMap Demo.running !! Demo.lobby_id = Some 0) as Hid
    by (vm_compute; reflexivity).
  split; [exact Hid|]. split; [reflexivity|]. split; [|reflexivity].
  pose proof (dashboard_line_reaches_stdin "  say hello  " Demo.lobby_id 0
                Demo.running Hid) as H.
  change (dashboard_command "  say hello  ") with (Some "say hello") in H.
  destruct H as (_ & _ & ->). vm_compute. reflexivity.
Defined.

(** ** What the log reader gives back *)

Lemma crlf_to_lf_cons (c : ascii) (s : string) :
  crlf_to_lf (String c s)
  = if Ascii.eqb c Str.CR && Str.startsWith Str.LF s then crlf_to_lf s
    else String c (crlf_to_lf s).
Proof.
  simpl. destruct (Ascii.eqb c Str.CR); [|done].
  destruct s as [|c' s]; [done|]. simpl. by destruct (Ascii.eqb c' Str.LF).
Qed.

Lemma split_lines_cons (c : ascii) (s : string) :
  split_lines (String c s)
  = if Ascii.eqb c Str.LF then "" :: split_lines s
    else if Ascii.eqb c Str.CR && Str.startsWith Str.LF s
         then split_lines s
         else match split_lines s with
              | x :: r => String c x :: r
              | [] => [String c ""]
              end.
Proof.
  simpl. destruct (Ascii.eqb c Str.LF); [done|].
  destruct (Ascii.eqb c Str.CR); [|done].
  destruct s as [|c' s]; [done|]. simpl.
  destruct (Ascii.eqb c' Str.LF) eqn:E; [|done]. done.
Qed.

Lemma join_nl_cons_char (c : ascii) (x : string) (r : list string) :
  Str.join Str.nl (String c x :: r) = String c (Str.join Str.nl (x :: r)).
Proof. by destruct r. Qed.

Lemma join_nl_empty_cons (l : list string) :
  l ≠ [] → Str.join Str.nl ("" :: l) = String Str.LF (Str.join Str.nl l).
Proof. intros H. by rewrite join_cons. Qed.

(** Splitting at line ends and joining with line feeds only drops the
    carriage returns of the line ends. *)
Lemma join_split_lines (s : string) :
  Str.join Str.nl (split_lines s) = crlf_to_lf s.
Proof.
  induction s as [|c s IH]; [done|].
  rewrite split_lines_cons, crlf_to_lf_cons.
  destruct (Ascii.eqb c Str.LF) eqn:Elf.
  - apply Ascii.eqb_eq in Elf as ->.
    rewrite join_nl_empty_cons by apply split_lines_not_nil.
    rewrite IH. done.
  - destruct (Ascii.eqb c Str.CR && Str.startsWith Str.LF s); [exact IH|].
    pose proof (split_lines_not_nil s) as Hnn.
    destruct (split_lines s) as [|x r]; [done|].
    rewrite join_nl_cons_char. by rewrite IH.
Qed.

Lemma crlf_to_lf_no_cr (s : string) : no_cr s = true → crlf_to_lf s = s.
Proof.
  induction s as [|c s IH]; [done|]. intros H. simpl in H.
  apply andb_prop in H as [Hc Hs]. apply negb_true_iff in Hc.
  rewrite crlf_to_lf_cons, Hc. simpl. by rewrite IH.
Qed.

(** X4. A log file of at most 1 MiB whose text splits into at most 2000
    lines is answered whole: [logs] returns the text its bytes decode to
    with every CR LF line end turned into LF. So a log that is well-formed
    UTF-8, an ASCII log in particular, comes back with only its line ends
    changed, and unchanged when it holds no carriage return. *)
Theorem logs_of_small_log_is_the_log (id : string) (st : state) (s : Server.t)
    (content : string) :
  find_server id (registry st) = Some s →
  disk st !! Path.join [Server.dir s; "console.log"] = Some (File content) →
  (N.of_nat (String.length content) ≤ 1024 * 1024)%N →
  (length (split_lines (toString_utf8 content)) ≤ 2000)%nat →
  (logs id st).1 = Res 200 (Plain (crlf_to_lf (toString_utf8 content)))
  ∧ (well_formed_utf8 content →
     (logs id st).1 = Res 200 (Plain (crlf_to_lf content))
     ∧ (no_cr content = true → (logs id st).1 = Res 200 (Plain content)))
  ∧ (is_ascii content = true → well_formed_utf8 content).
Proof.
  intros Hs Hc Hsize Hlines.
  assert ((logs id st).1 = Res 200 (Plain (crlf_to_lf (toString_utf8 content))))
    as Hr.
  { destruct (logs_cases id st) as (_ & H & _).
    destruct (H s Hs) as (_ & Hfile & _). rewrite (Hfile content Hc).
    unfold read_tail, Str.slice_last. rewrite (last_bytes_small _ _ Hsize).
    replace (length (split_lines (toString_utf8 content)) - 2000)%nat with 0%nat
      by lia.
    rewrite drop_0. by rewrite join_split_lines. }
  split; [exact Hr|]. split; [|apply toString_utf8_ascii].
  intros Hwf. rewrite Hr, Hwf. split; [done|].
  intros Hcr. by rewrite crlf_to_lf_no_cr.
Qed.

Lemma logs_of_small_log_is_the_log_witness :
  (logs Demo.lobby_id Demo.with_brief_log).1
  = Res 200 (Plain ("Starting" ++ Str.nl ++ "Done" ++ Str.nl))
  ∧ (logs Demo.lobby_id Demo.with_latin_log).1
    = Res 200 (Plain ("caf" ++ replacement ++ Str.nl)).
Proof.
  split.
  - refine (eq_trans
              (proj1 (logs_of_small_log_is_the_log Demo.lobby_id Demo.with_brief_log
                        Demo.lobby_record Demo.brief_log _ _ _ _)) _).
    + vm_compute; reflexivity.
    + vm_compute; reflexivity.
    + vm_compute; discriminate.
    + vm_compute. lia.
    + vm_compute; reflexivity.
  - refine (eq_trans
              (proj1 (logs_of_small_log_is_the_log Demo.lobby_id Demo.with_latin_log
                        Demo.lobby_record Demo.latin_log _ _ _ _)) _).
    + vm_compute; reflexivity.
    + vm_compute; reflexivity.
    + vm_compute; discriminate.
    + vm_compute. lia.
    + vm_compute; reflexivity.
Defined.

(** ** The slug of a name *)

Lemma alnum_plain (c : ascii) :
  Str.is_alnum c = true →
  Ascii.eqb c Str.dash = false ∧ Str.is_upper c = false.
Proof. destruct c as [[] [] [] [] [] [] [] []]; vm_compute; by intros. Qed.

Lemma dash_plain : Str.is_alnum Str.dash = false ∧ Str.is_upper Str.dash = false.
Proof. done. Qed.

Lemma squash_shape (b : bool) (s : string) :
  no_double_dash (squash b s) = true
  ∧ (b = true → Str.startsWith Str.dash (squash b s) = false).
Proof.
  revert b. induction s as [|c s IH]; intros b; [done|]. simpl.
  destruct (Str.is_alnum c) eqn:Ec.
  - destruct (alnum_plain c Ec) as [Hd _]. simpl. rewrite Hd. simpl.
    split; [apply IH | done].
  - destruct b; [apply IH|]. split; [|done].
    change (no_double_dash (String Str.dash (squash true s)))
      with (negb (Ascii.eqb Str.dash Str.dash
                  && Str.startsWith Str.dash (squash true s))
            && no_double_dash (squash true s)).
    destruct (IH true) as [-> ->]; done.
Qed.

Lemma drop_first_dash_shape (s : string) :
  no_double_dash s = true →
  no_double_dash (drop_first_dash s) = true
  ∧ Str.startsWith Str.dash (drop_first_dash s) = false.
Proof.
  destruct s as [|c s]; [done|]. simpl. intros H.
  apply andb_prop in H as [H1 H2].
  destruct (Ascii.eqb c Str.dash) eqn:Ec.
  - simpl in H1. apply negb_true_iff in H1. done.
  - simpl. rewrite Ec. simpl. by rewrite H2.
Qed.

Lemma drop_last_dash_cons (c c' : ascii) (t : string) :
  drop_last_dash (String c (String c' t)) = String c (drop_last_dash (String c' t)).
Proof. done. Qed.

Lemma drop_last_dash_empty (s : string) :
  drop_last_dash s = "" → s = "" ∨ s = String Str.dash "".
Proof.
  destruct s as [|c [|c' t]]; [by left| |done].
  change (drop_last_dash (String c ""))
    with (if Ascii.eqb c Str.dash then "" else String c "").
  destruct (Ascii.eqb c Str.dash) eqn:E; [|done].
  apply Ascii.eqb_eq in E as ->. by right.
Qed.

Lemma drop_last_dash_head (s : string) :
  Str.startsWith Str.dash (drop_last_dash s) = true →
  Str.startsWith Str.dash s = true.
Proof.
  destruct s as [|c [|c' t]]; [done| |by rewrite drop_last_dash_cons].
  change (drop_last_dash (String c ""))
    with (if Ascii.eqb c Str.dash then "" else String c "").
  by destruct (Ascii.eqb c Str.dash).
Qed.

Lemma drop_last_dash_shape (s : string) :
  no_double_dash s = true →
  no_double_dash (drop_last_dash s) = true
  ∧ Str.endsWith Str.dash (drop_last_dash s) = false.
Proof.
  induction s as [|c s IH]; [done|]. intros H.
  change (no_double_dash (String c s))
    with (negb (Ascii.eqb c Str.dash && Str.startsWith Str.dash s)
          && no_double_dash s) in H.
  apply andb_prop in H as [H1 H2]. apply negb_true_iff in H1.
  destruct s as [|c' t].
  - simpl. destruct (Ascii.eqb c Str.dash) eqn:E; [done|]. simpl. by rewrite E.
  - rewrite drop_last_dash_cons. destruct (IH H2) as [IH1 IH2].
    split.
    + change (negb (Ascii.eqb c Str.dash
                    && Str.startsWith Str.dash (drop_last_dash (String c' t)))
              && no_double_dash (drop_last_dash (String c' t)) = true).
      rewrite IH1, andb_true_r. apply negb_true_iff.
      destruct (Ascii.eqb c Str.dash); [|done]. simpl in *.
      destruct (Str.startsWith Str.dash (drop_last_dash (String c' t))) eqn:E;
        [|done].
      apply drop_last_dash_head in E. simpl in E. congruence.
    + destruct (drop_last_dash (String c' t)) as [|x r] eqn:E.
      * apply drop_last_dash_empty in E as [E|E]; [done|].
        injection E as -> ->. simpl in H1. rewrite andb_true_r in H1.
        simpl. done.
      * exact IH2.
Qed.

Lemma id_chars_lower (s : string) : id_chars s = true → Str.toLowerCase s = s.
Proof.
  induction s as [|c s IH]; [done|]. simpl.
  intros [Hc Hs]%andb_prop. rewrite (IH Hs). f_equal.
  unfold Str.lower_char. apply orb_prop in Hc as [Hc|Hc].
  - by destruct (alnum_plain c Hc) as [_ ->].
  - apply Ascii.eqb_eq in Hc as ->. done.
Qed.

Lemma squash_fixed (b : bool) (s : string) :
  id_chars s = true → no_double_dash s = true →
  (b = true → Str.startsWith Str.dash s = false) →
  squash b s = s.
Proof.
  revert b. induction s as [|c s IH]; intros b Hid Hnd Hb; [done|].
  simpl in Hid. apply andb_prop in Hid as [Hc Hs].
  change (no_double_dash (String c s))
    with (negb (Ascii.eqb c Str.dash && Str.startsWith Str.dash s)
          && no_double_dash s) in Hnd.
  apply andb_prop in Hnd as [H1 H2]. apply negb_true_iff in H1.
  simpl. destruct (Str.is_alnum c) eqn:Ec.
  - f_equal. by apply IH.
  - simpl in Hc. apply Ascii.eqb_eq in Hc as ->.
    destruct b. { specialize (Hb eq_refl). done. }
    f_equal. apply IH; [done..|]. intros _. simpl in H1. done.
Qed.

Lemma drop_last_dash_fixed (s : string) :
  Str.endsWith Str.dash s = false → drop_last_dash s = s.
Proof.
  induction s as [|c s IH]; [done|]. destruct s as [|c' t].
  - simpl. by intros ->.
  - intros H. rewrite drop_last_dash_cons. f_equal. by apply IH.
Qed.

Lemma drop_first_dash_fixed (s : string) :
  Str.startsWith Str.dash s = false → drop_first_dash s = s.
Proof. destruct s as [|c s]; [done|]. simpl. by intros ->. Qed.

(** X5. Whatever the name, its slug is made of lower-case letters, digits
    and dashes only, never begins or ends with a dash and never holds two
    dashes in a row; a slug is its own slug. *)
Theorem slug_is_normal (name : string) :
  id_chars (slug name) = true
  ∧ Str.startsWith Str.dash (slug name) = false
  ∧ Str.endsWith Str.dash (slug name) = false
  ∧ no_double_dash (slug name) = true
  ∧ slug (slug name) = slug name.
Proof.
  pose proof (slug_id_chars name) as Hid.
  assert (no_double_dash (slug name) = true
          ∧ Str.startsWith Str.dash (slug name) = false
          ∧ Str.endsWith Str.dash (slug name) = false) as (Hnd & Hst & Hend).
  { unfold slug, strip_dashes.
    destruct (squash_shape false (Str.toLowerCase name)) as [Hsq _].
    destruct (drop_first_dash_shape _ Hsq) as [Hf1 Hf2].
    destruct (drop_last_dash_shape _ Hf1) as [Hl1 Hl2].
    split; [done|]. split; [|done].
    destruct (Str.startsWith Str.dash
                (drop_last_dash (drop_first_dash (squash false (Str.toLowerCase name)))))
      eqn:E; [|done].
    apply drop_last_dash_head in E. congruence. }
  split; [done|]. split; [done|]. split; [done|]. split; [done|].
  unfold slug at 1, strip_dashes.
  rewrite (id_chars_lower _ Hid), (squash_fixed false _ Hid Hnd) by done.
  rewrite (drop_first_dash_fixed _ Hst). by apply drop_last_dash_fixed.
Qed.

(** ** Create and delete together *)

(** The paths [create] works on, for a manager installed under a
    normalized absolute path. *)
Lemma instance_paths (cl0 : list string) (name r : string) :
  forallb Path.clean cl0 = true → radix36 r = true →
  let d := Path.absolute cl0 in
  let dir := SERVERS_DIR d ++ "/" ++ generateId name r in
  Path.join [SERVERS_DIR d; generateId name r] = dir
  ∧ Path.join [dir; "server.properties"] = dir ++ "/server.properties"
  ∧ Path.join [dir; "eula.txt"] = dir ++ "/eula.txt"
  ∧ Path.join [dir; "console.log"] = dir ++ "/console.log".
Proof.
  intros Hcl Hr. cbv zeta.
  pose proof (generateId_clean name r Hr) as Hid.
  destruct (install_dirs cl0 Hcl) as (_ & _ & Hsd & _ & Hscl).
  rewrite Hsd.
  assert (∀ seg, Path.clean seg = true →
            Path.join [Path.absolute ((cl0 ++ ["data"]) ++ ["servers"]) ++ "/"
                       ++ generateId name r; seg]
            = (Path.absolute ((cl0 ++ ["data"]) ++ ["servers"]) ++ "/"
               ++ generateId name r) ++ "/" ++ seg) as Hfile.
  { intros seg Hseg.
    rewrite <- (absolute_snoc _ (generateId name r)) by (by destruct cl0).
    apply join_below; [|by destruct cl0, (_ ++ _)%list|done].
    by rewrite forallb_app, Hscl; simpl; rewrite Hid. }
  split; [apply join_below; [done | by destruct cl0 | done]|].
  split; [exact (Hfile "server.properties" eq_refl)|].
  split; [exact (Hfile "eula.txt" eq_refl) | exact (Hfile "console.log" eq_refl)].
Qed.

(** A [create] that passes both checks and finds no file at the instance
    directory and no directory where [eula.txt] goes, for a manager
    installed under a normalized absolute path. *)
Lemma create_succeeds (cl0 : list string) (body : create_body) (r : string)
    (st : state) (name jar : string) (port : Z) :
  let d := Path.absolute cl0 in
  let id := generateId name r in
  let dir := SERVERS_DIR d ++ "/" ++ id in
  forallb Path.clean cl0 = true → radix36 r = true →
  b_name body = Some name → name ≠ "" →
  b_port body = Some port → port ≠ 0%Z →
  b_jar body = Some jar → jar ≠ "" →
  Fs.existsSync (Path.join [JAR_DIR d; Path.basename jar]) (disk st) = true →
  (∀ content, disk st !! dir ≠ Some (File content)) →
  disk st !! (dir ++ "/eula.txt") ≠ Some Dir →
  let record :=
    Server.mk id name port
      (if num_falsy (b_maxMemoryMB body) then 1024%Z
       else default 0%Z (b_maxMemoryMB body))
      (Path.basename jar) dir in
  let st' := (create d body r st).2 in
  (create d body r st).1 = Res 200 (Record_ record)
  ∧ procMap st' = procMap st ∧ children st' = children st
  ∧ stateFile st' = Some (Parsed (registry st ++ [record]))
  ∧ disk st' !! dir = Some Dir
  ∧ disk st' !! (dir ++ "/eula.txt") = Some (File ("eula=true" ++ Str.nl))
  ∧ (disk st !! (dir ++ "/server.properties") = None →
     disk st' !! (dir ++ "/server.properties")
     = Some (File (default_properties port)))
  ∧ (∀ x, disk st !! (dir ++ "/server.properties") = Some x →
       disk st' !! (dir ++ "/server.properties") = Some x)
  ∧ (∀ p, p ≠ dir → p ≠ dir ++ "/server.properties" → p ≠ dir ++ "/eula.txt" →
       disk st' !! p = disk st !! p).
Proof.
  cbv zeta. intros Hcl Hr Hname Hn Hport Hp Hjar Hj Hthere Hnofile Hnodir.
  assert (str_falsy (b_name body) || num_falsy (b_port body)
          || str_falsy (b_jar body) = false) as Hreq.
  { rewrite Hname, Hport, Hjar. simpl.
    apply Z.eqb_neq in Hp. rewrite Hp. by destruct name, jar. }
  pose proof (create_result (Path.absolute cl0) body r st Hreq) as Hres.
  rewrite Hname, Hport, Hjar in Hres. simpl default in Hres.
  specialize (Hres Hthere). cbv zeta in Hres.
  destruct (instance_paths cl0 name r Hcl Hr) as (Hdir & Hf1 & Hf2 & _).
  cbv zeta in Hdir, Hf1, Hf2. rewrite Hdir, Hf1, Hf2 in Hres.
  set (dir := SERVERS_DIR (Path.absolute cl0) ++ "/" ++ generateId name r) in *.
  pose proof (child_not_self dir "eula.txt") as Hne1.
  pose proof (child_not_self dir "server.properties") as Hne2.
  assert (dir ++ "/server.properties" ≠ dir ++ "/eula.txt") as Hne3.
  { intros H%str_app_inv_head. done. }
  destruct (Fs.mkdirSync dir (disk st)) as [fs1|] eqn:Emk;
    [|apply mkdirSync_None in Emk as [content Hc]; by destruct (Hnofile content)].
  destruct (mkdirSync_Some _ _ _ Emk) as (Hd1 & Ho1 & _).
  set (fs2 := if Fs.existsSync (dir ++ "/server.properties") fs1 then fs1
              else <[dir ++ "/server.properties"
                     := File (default_properties port)]> fs1) in *.
  assert (fs2 !! dir = Some Dir) as Hd2.
  { unfold fs2. destruct (Fs.existsSync _ fs1); [done|].
    by rewrite lookup_insert_ne. }
  assert (∀ p, p ≠ dir → p ≠ dir ++ "/server.properties" → fs2 !! p = disk st !! p)
    as Ho2.
  { intros p N1 N2. unfold fs2. destruct (Fs.existsSync _ fs1).
    - by apply Ho1.
    - rewrite lookup_insert_ne by done. by apply Ho1. }
  assert (disk st !! (dir ++ "/server.properties") = None →
          fs2 !! (dir ++ "/server.properties") = Some (File (default_properties port)))
    as Hp2.
  { intros Hnone. unfold fs2, Fs.existsSync.
    rewrite bool_decide_false
      by (rewrite Ho1, Hnone by done; by intros [? ?]).
    apply lookup_insert_eq. }
  assert (∀ x, disk st !! (dir ++ "/server.properties") = Some x →
            fs2 !! (dir ++ "/server.properties") = Some x) as Hk2.
  { intros x Hx. unfold fs2, Fs.existsSync.
    rewrite bool_decide_true by (rewrite Ho1, Hx by done; eauto).
    by rewrite Ho1. }
  rewrite (Ho2 (dir ++ "/eula.txt")) in Hres by done.
  assert ((create (Path.absolute cl0) body r st).1
          = Res 200 (Record_
              (Server.mk (generateId name r) name port
                 (if num_falsy (b_maxMemoryMB body) then 1024%Z
                  else default 0%Z (b_maxMemoryMB body))
                 (Path.basename jar) dir))
          ∧ procMap (create (Path.absolute cl0) body r st).2 = procMap st
          ∧ children (create (Path.absolute cl0) body r st).2 = children st
          ∧ stateFile (create (Path.absolute cl0) body r st).2
            = Some (Parsed (registry st
                            ++ [Server.mk (generateId name r) name port
                                  (if num_falsy (b_maxMemoryMB body) then 1024%Z
                                   else default 0%Z (b_maxMemoryMB body))
                                  (Path.basename jar) dir]))
          ∧ disk (create (Path.absolute cl0) body r st).2
            = <[dir ++ "/eula.txt" := File ("eula=true" ++ Str.nl)]> fs2)
    as (Hresp & Hpm & Hch & Hsf & Hdisk).
  { by destruct (disk st !! (dir ++ "/eula.txt")) as [[|c]|]. }
  rewrite Hdisk. split; [done|]. split; [done|]. split; [done|]. split; [done|].
  split; [by rewrite lookup_insert_ne|].
  split; [apply lookup_insert_eq|].
  split; [intros Hnone; rewrite lookup_insert_ne by done; by apply Hp2|].
  split; [intros x Hx; rewrite lookup_insert_ne by done; by apply Hk2|].
  intros p N1 N2 N3. rewrite lookup_insert_ne by done. by apply Ho2.
Qed.

(** X6. Creating an instance and deleting it again undoes the creation:
    for a new id whose directory is not on disk yet, [create] followed by
    [delete] of the id it answered gives 200, and the records, the disk,
    the live mapping and the children are what they were before. The
    registry file itself is written anew: it holds the array of the old
    records, which is what it held before if it held an array; in place
    of an absent file or of one that did not parse there is now the file
    of the empty array. *)
Theorem create_then_delete_restores (cl0 : list string) (body : create_body)
    (r : string) (st : state) (name jar : string) (port : Z) :
  let d := Path.absolute cl0 in
  let id := generateId name r in
  let dir := SERVERS_DIR d ++ "/" ++ id in
  reachable d st →
  forallb Path.clean cl0 = true → radix36 r = true →
  b_name body = Some name → name ≠ "" →
  b_port body = Some port → port ≠ 0%Z →
  b_jar body = Some jar → jar ≠ "" →
  Fs.existsSync (Path.join [JAR_DIR d; Path.basename jar]) (disk st) = true →
  find_server id (registry st) = None →
  (∀ p, p = dir ∨ Fs.under dir p = true → disk st !! p = None) →
  let created := (create d body r st).2 in
  Server.id <$> registry created = ((Server.id <$> registry st) ++ [id])%list
  ∧ (delete_server id created).1 = Res 200 Ok
  ∧ registry (delete_server id created).2 = registry st
  ∧ disk (delete_server id created).2 = disk st
  ∧ procMap (delete_server id created).2 = procMap st
  ∧ children (delete_server id created).2 = children st
  ∧ stateFile (delete_server id created).2 = Some (Parsed (registry st))
  ∧ (∀ l, stateFile st = Some (Parsed l) →
       stateFile (delete_server id created).2 = stateFile st)
  ∧ (stateFile st = None ∨ stateFile st = Some Unparseable →
       stateFile (delete_server id created).2 = Some (Parsed [])).
Proof.
  cbv zeta. intros Hreach Hcl Hr Hname Hn Hport Hp Hjar Hj Hthere Hold Hfresh.
  destruct (create_succeeds cl0 body r st name jar port Hcl Hr Hname Hn Hport Hp
              Hjar Hj Hthere)
    as (_ & Hpm & Hch & Hsf & _ & _ & _ & _ & Hdisk).
  { intros content. by rewrite Hfresh by (by left). }
  { rewrite Hfresh; [done|]. right. apply under_child. }
  set (dir := SERVERS_DIR (Path.absolute cl0) ++ "/" ++ generateId name r) in *.
  set (created := (create (Path.absolute cl0) body r st).2) in *.
  match type of Hsf with _ = Some (Parsed (_ ++ [?x])) => set (record := x) in * end.
  assert (registry created = (registry st ++ [record])%list) as Hreg.
  { unfold registry at 1, loadServers. by rewrite Hsf. }
  assert (find_server (generateId name r) (registry created) = Some record) as Hfound.
  { rewrite Hreg, find_server_app, Hold. unfold find_server. simpl.
    by rewrite String.eqb_refl. }
  assert (procMap created !! generateId name r = None) as Hno.
  { rewrite Hpm. destruct (procMap st !! generateId name r) as [h|] eqn:E; [|done].
    destruct (reachable_mapped_recorded _ st Hreach (generateId name r)) as [x Hx];
      [by rewrite E | congruence]. }
  destruct (delete_cases (generateId name r) created) as (_ & _ & Hdel).
  destruct (Hdel record Hfound Hno) as (Hresp & Hpm2 & Hch2 & Hdisk2 & Hsf2).
  assert (filter (λ x, Server.id x ≠ generateId name r) (registry created)
          = registry st) as Hback.
  { rewrite Hreg, filter_app.
    rewrite filter_other_ids by (by apply find_server_None).
    rewrite filter_cons_False by (intros H; by apply H).
    by rewrite filter_nil, app_nil_r. }
  rewrite Hback in Hsf2.
  split. { rewrite Hreg, fmap_app. done. }
  split; [done|].
  split. { unfold registry at 1, loadServers. by rewrite Hsf2. }
  split.
  { rewrite Hdisk2. apply map_eq. intros p. rewrite rmSync_lookup.
    change (Server.dir record) with dir.
    case_decide as Hk.
    - destruct Hk as [Hk1 Hk2]. apply Hdisk; [done| |]; intros ->.
      + by rewrite (under_child dir "server.properties"
                    : Fs.under dir (dir ++ "/server.properties") = true) in Hk2.
      + by rewrite (under_child dir "eula.txt"
                    : Fs.under dir (dir ++ "/eula.txt") = true) in Hk2.
    - symmetry. apply Hfresh.
      destruct (decide (p = dir)) as [->|Hne]; [by left|]. right.
      destruct (Fs.under dir p); [done|]. exfalso. by apply Hk. }
  split; [congruence|]. split; [congruence|]. split; [done|]. split.
  - intros l Hl. rewrite Hsf2, Hl. unfold registry, loadServers. by rewrite Hl.
  - intros Hbad. rewrite Hsf2. unfold registry, loadServers.
    by destruct Hbad as [->| ->].
Qed.

Lemma booted_has_no_lobby (p : string) :
  p = SERVERS_DIR Demo.home ++ "/" ++ generateId "Lobby" "0.k3x9qzr1"
  ∨ Fs.under (SERVERS_DIR Demo.home ++ "/" ++ generateId "Lobby" "0.k3x9qzr1") p = true →
  disk Demo.booted !! p = None.
Proof.
  intros Hp. destruct (disk Demo.booted !! p) as [x|] eqn:E; [exfalso|reflexivity].
  assert (p ∈ dom (disk Demo.booted)) as Hin by (apply elem_of_dom; eauto).
  rewrite booted_disk_paths in Hin.
  repeat (apply elem_of_union in Hin as [Hin|Hin]);
    apply elem_of_singleton in Hin; subst p;
    (destruct Hp as [Hp|Hp]; [discriminate Hp | vm_compute in Hp; discriminate Hp]).
Qed.

Lemma create_then_delete_restores_witness :
  (delete_server Demo.lobby_id Demo.created).1 = Res 200 Ok
  ∧ registry (delete_server Demo.lobby_id Demo.created).2 = []
  ∧ disk (delete_server Demo.lobby_id Demo.created).2 = disk Demo.booted
  ∧ stateFile Demo.booted = None
  ∧ stateFile (delete_server Demo.lobby_id Demo.created).2 = Some (Parsed []).
Proof.
  destruct (create_then_delete_restores ["srv"] Demo.lobby "0.k3x9qzr1" Demo.booted
              "Lobby" "paper.jar" 25565%Z) as (_ & H1 & H2 & H3 & _ & _ & _ & _ & H4).
  - exact (reachable_boot Demo.home None Demo.fresh_disk).
  - reflexivity.
  - reflexivity.
  - reflexivity.
  - discriminate.
  - reflexivity.
  - discriminate.
  - reflexivity.
  - discriminate.
  - vm_compute; reflexivity.
  - vm_compute; reflexivity.
  - exact booted_has_no_lobby.
  - split; [exact H1|]. split; [exact H2|]. split; [exact H3|].
    split; [reflexivity|]. exact (H4 (or_introl eq_refl)).
Defined.

(** ** A running process and its record *)

(** Where a child found after a request comes from: it was there before,
    up to what was written to its stdin, or it is the child [start] has
    just spawned for a record. *)
Lemma handle_children_back d q st h c' :
  children (handle d q st).2 !! h = Some c' →
  (∃ c, children st !! h = Some c ∧ same_child c c')
  ∨ (∃ id p s, q = Start id p ∧ procMap st !! id = None
       ∧ find_server id (registry st) = Some s
       ∧ procMap (handle d q st).2 !! id = Some h
       ∧ c' = mkChild id p "java"
                (launch_args s (Path.join [JAR_DIR d; Server.jar s]))
                (Server.dir s) [] (Path.join [Server.dir s; "console.log"]) false).
Proof.
  intros Hc'.
  destruct q as [|body r|id|id p|id|id cmd|id]; simpl in *.
  - left. destruct (list_frame st) as (_ & Hch & _). rewrite Hch in Hc'.
    eauto using same_child_refl.
  - left. destruct (create_frame d body r st) as (_ & Hch). rewrite Hch in Hc'.
    eauto using same_child_refl.
  - left. destruct (delete_frame id st) as (_ & Hch). rewrite Hch in Hc'.
    eauto using same_child_refl.
  - pose proof (loadServers_frame st) as (_ & Hlc & _).
    destruct (start_cases d id p st)
      as [(_ & Heq)|[(_ & _ & Heq)|[(s & _ & _ & _ & Heq)
          |(s & Hno & Hs & _ & _ & Hch & Hp)]]];
      [rewrite Heq in Hc'; simpl in Hc'; rewrite ?Hlc in Hc';
       left; eauto using same_child_refl ..|].
    rewrite Hch in Hc'. apply lookup_app_Some in Hc' as [Hc'|[Hlen Hc']].
    + left. eauto using same_child_refl.
    + right. exists id, p, s.
      destruct (h - length (children st)) as [|n] eqn:En; [|by destruct n].
      simpl in Hc'. injection Hc' as <-.
      assert (h = length (children st)) as -> by lia.
      split; [done|]. split; [done|]. split; [done|].
      split; [by rewrite Hp, lookup_insert_eq | done].
  - left. unfold stop in Hc'. destruct (procMap st !! id) as [h0|]; cbn [snd] in Hc'.
    + rewrite stdin_write_lookup in Hc'.
      destruct (children st !! h) as [c|]; [|done]. simpl in Hc'.
      injection Hc' as <-. exists c. split; [done|].
      destruct (decide (h0 = h)); by repeat split.
    + eauto using same_child_refl.
  - left. unfold send_command in Hc'.
    destruct (procMap st !! id) as [h0|]; cbn [snd] in Hc';
      [destruct (str_falsy cmd); cbn [snd] in Hc'|]; eauto using same_child_refl.
    rewrite stdin_write_lookup in Hc'.
    destruct (children st !! h) as [c|]; [|done]. simpl in Hc'.
    injection Hc' as <-. exists c. split; [done|].
    destruct (decide (h0 = h)); by repeat split.
  - left. destruct (logs_frame id st) as (_ & Hch & _). rewrite Hch in Hc'.
    eauto using same_child_refl.
Qed.

Lemma launched_same_child d st st' h c c' s :
  same_child c c' →
  find_server (owner c) (registry st') = Some s →
  launched_from_record d st h c →
  find_server (owner c) (registry st) = Some s →
  launched_from_record d st' h c'.
Proof.
  intros (Ho & _ & Hcmd & Ha & Hcwd & Hl & _) Hs' (s0 & Hs0 & H1 & H2 & H3 & H4) Hs.
  assert (s0 = s) as -> by congruence.
  exists s. rewrite Ho, Hcmd, Ha, Hcwd, Hl. by repeat split.
Qed.

Lemma step_launched d e st :
  consistent st →
  (∀ h c, live st h c → launched_from_record d st h c) →
  ∀ h c, live (step d e st) h c → launched_from_record d (step d e st) h c.
Proof.
  intros [H1 H2] IH h c' [Hc' Hcl']. destruct e as [q|h0 chunk|h0 code].
  - simpl in *.
    destruct (handle_children_back d q st h c' Hc')
      as [(c & Hc & Hsame)|(id & p & s & -> & Hno & Hs & Hmap & ->)].
    + assert (closed c = false) as Hcl
        by (destruct Hsame as (_&_&_&_&_&_&E); congruence).
      pose proof (IH h c (conj Hc Hcl)) as Hl.
      pose proof Hl as (s & Hs & _).
      eapply launched_same_child; [done| |exact Hl|exact Hs].
      destruct (handle_registry d q st) as [->|[(x & ->)|(id' & Hid' & _ & ->)]].
      * done.
      * by rewrite find_server_app, Hs.
      * rewrite find_server_filter; [done|]. intros Heq.
        pose proof (H2 h c Hc Hcl) as Hm. congruence.
    + exists s. simpl. split; [|done].
      pose proof (handle_registry d (Start id p) st) as Hreg. simpl in Hreg.
      destruct Hreg as [->|[(x & ->)|(id' & Hid' & Hp & ->)]].
      * done.
      * by rewrite find_server_app, Hs.
      * rewrite find_server_filter; [done|]. intros ->.
        simpl in Hp, Hmap. rewrite Hp in Hmap. congruence.
  - simpl in *. unfold on_data in *.
    destruct (children st !! h0) as [c0|] eqn:E0; [|by apply IH].
    destruct (closed c0); [by apply IH|]. simpl in Hc'.
    destruct (IH h c' (conj Hc' Hcl')) as (s & Hs & Hrest).
    exists s. split; [|done].
    by rewrite (registry_stateFile st (set_disk _ st)).
  - simpl in *. unfold on_close in *.
    destruct (children st !! h0) as [c0|] eqn:E0; [|by apply IH].
    destruct (closed c0) eqn:Ecl0; [by apply IH|]. simpl in Hc'.
    destruct (decide (h0 = h)) as [->|Hne].
    { rewrite list_lookup_alter_eq, E0 in Hc'. simpl in Hc'.
      injection Hc' as <-. done. }
    rewrite list_lookup_alter_ne in Hc' by done.
    destruct (IH h c' (conj Hc' Hcl')) as (s & Hs & Hrest).
    exists s. split; [|done].
    match goal with |- context [registry ?x] =>
      by rewrite (registry_stateFile st x) end.
Qed.

Lemma reachable_launched d st :
  reachable d st → ∀ h c, live st h c → launched_from_record d st h c.
Proof.
  induction 1 as [file fs|e st Hr IH].
  - intros h c [Hc _]. by simpl in Hc.
  - apply step_launched; [by eapply reachable_consistent | done].
Qed.



Lemma start_disk (d id : string) (p : Z) (st : state) (s : Server.t) :
  procMap st !! id = None → find_server id (registry st) = Some s →
  Fs.existsSync (Path.join [JAR_DIR d; Server.jar s]) (disk st) = true →
  disk (start d id p st).2
  = Fs.open_append (Path.join [Server.dir s; "console.log"]) (disk st)
  ∧ stateFile (start d id p st).2 = stateFile st.
Proof.
  intros Hno Hs Hj. unfold start, getServer. rewrite (loadServers_pair st).
  pose proof (loadServers_frame st) as (Hp & Hc & Hf & Hd).
  rewrite bool_decide_false by (rewrite Hno; by intros [? ?]).
  rewrite Hs, Hd, Hj. simpl. by rewrite Hd, Hf.
Qed.

Lemma on_close_live (h : nat) (code : option Z) (st : state) (c : child) :
  children st !! h = Some c → closed c = false →
  procMap (on_close h code st) = delete (owner c) (procMap st)
  ∧ stateFile (on_close h code st) = stateFile st
  ∧ disk (on_close h code st)
    = Fs.append (logStream c)
        (Str.nl ++ "[process exited with code " ++ show_code code ++ "]" ++ Str.nl)
        (disk st)
  ∧ children (on_close h code st)
    = alter (λ c, mkChild (owner c) (pid c) (command c) (args c) (cwd c)
                    (stdin c) (logStream c) true) h (children st).
Proof. intros Hc Hcl. unfold on_close. by rewrite Hc, Hcl. Qed.

(** X8. When the close observer of a running instance has fired, the
    instance can be started again: its id is unmapped and still recorded,
    and as long as its jar is on disk [start] answers 200 and spawns a new
    child with the arguments, the working directory and the log file of
    the old one. The old child stays closed, and the log file is not
    truncated: it still holds the old output and the exit trailer. If the
    jar is gone, [start] answers 400 "JAR missing on disk". *)
Theorem closed_instance_restarts (d : string) (st : state) (h : nat) (c : child)
    (code : option Z) (p' : Z) :
  reachable d st → live st h c →
  let st1 := on_close h code st in
  let st2 := (start d (owner c) p' st1).2 in
  procMap st1 !! owner c = None
  ∧ ∃ s, find_server (owner c) (registry st1) = Some s
    ∧ (Fs.existsSync (Path.join [JAR_DIR d; Server.jar s]) (disk st1) = false →
       (start d (owner c) p' st1).1 = Res 400 (Error "JAR missing on disk"))
    ∧ (Fs.existsSync (Path.join [JAR_DIR d; Server.jar s]) (disk st1) = true →
       (start d (owner c) p' st1).1 = Res 200 (OkPid p')
       ∧ procMap st2 !! owner c = Some (length (children st))
       ∧ children st2 !! length (children st)
         = Some (mkChild (owner c) p' "java" (args c) (cwd c) [] (logStream c) false)
       ∧ children st2 !! h
         = Some (mkChild (owner c) (pid c) (command c) (args c) (cwd c)
                   (stdin c) (logStream c) true)
       ∧ Fs.content_of (logStream c) (disk st2)
         = Fs.content_of (logStream c) (disk st)
           ++ Str.nl ++ "[process exited with code " ++ show_code code ++ "]"
           ++ Str.nl).
Proof.
  intros Hr [Hc Hcl]. cbv zeta.
  destruct (on_close_live h code st c Hc Hcl) as (Hp1 & Hsf1 & Hd1 & Hch1).
  destruct (reachable_launched d st Hr h c (conj Hc Hcl))
    as (s & Hs & Hcmd & Hcwd & Hlog & Hargs).
  assert (procMap (on_close h code st) !! owner c = None) as Hno
    by (by rewrite Hp1, lookup_delete_eq).
  assert (find_server (owner c) (registry (on_close h code st)) = Some s) as Hs1
    by (by rewrite (registry_stateFile st _ Hsf1)).
  split; [done|]. exists s. split; [done|]. split.
  { intros Hj. by rewrite (start_jar_missing d (owner c) p' _ s Hno Hs1 Hj). }
  intros Hj.
  destruct (start_spawns d (owner c) p' _ s Hno Hs1 Hj) as (Hresp & Hch2 & Hp2).
  destruct (start_disk d (owner c) p' _ s Hno Hs1 Hj) as (Hd2 & _).
  assert (length (children (on_close h code st)) = length (children st)) as Hlen
    by (by rewrite Hch1, length_alter).
  assert (h < length (children st))%nat as Hh by (by eapply lookup_lt_Some).
  split; [done|]. split.
  { by rewrite Hp2, Hlen, lookup_insert_eq. }
  split.
  { rewrite Hch2, lookup_app_r by lia. rewrite Hlen, Nat.sub_diag. simpl.
    by rewrite Hargs, Hcwd, Hlog. }
  split.
  { rewrite Hch2, lookup_app_l by lia.
    by rewrite Hch1, list_lookup_alter_eq, Hc. }
  rewrite Hd2, <- Hlog, Hd1. unfold Fs.open_append.
  unfold Fs.append at 1. rewrite lookup_insert_eq. apply append_content.
Qed.

Lemma closed_instance_restarts_witness :
  reachable Demo.home Demo.running
  ∧ (start Demo.home Demo.lobby_id 5000 (on_close 0 (Some 0%Z) Demo.running)).1
    = Res 200 (OkPid 5000).
Proof.
  split; [exact running_reachable|].
  assert (∃ c, live Demo.running 0 c ∧ owner c = Demo.lobby_id) as (c & Hc & Ho).
  { eexists. split; [split|]; vm_compute; reflexivity. }
  destruct (closed_instance_restarts Demo.home Demo.running 0 c (Some 0%Z) 5000%Z
              running_reachable Hc) as (_ & s & Hs & _ & H).
  rewrite Ho in H, Hs.
  assert (s = Demo.lobby_record) as ->.
  { assert (find_server Demo.lobby_id (registry (on_close 0 (Some 0%Z) Demo.running))
            = Some Demo.lobby_record) as Hs' by (vm_compute; reflexivity).
    rewrite Hs' in Hs. by injection Hs as <-. }
  destruct H as (Hr & _); [vm_compute; reflexivity | exact Hr].
Defined.

(** ** The jar upload *)

Lemma ends_with_app (suffix pre : string) : ends_with suffix (pre ++ suffix) = true.
Proof.
  induction pre as [|c pre IH].
  - change ("" ++ suffix) with suffix.
    destruct suffix as [|x s]; [done|].
    change (ends_with (String x s) (String x s))
      with (String.eqb (String x s) (String x s) || ends_with (String x s) s).
    by rewrite String.eqb_refl.
  - change (String c pre ++ suffix) with (String c (pre ++ suffix)).
    change (ends_with suffix (String c (pre ++ suffix)))
      with (String.eqb (String c (pre ++ suffix)) suffix
            || ends_with suffix (pre ++ suffix)).
    rewrite IH. apply orb_true_r.
Qed.

Lemma ends_with_inv (suffix s : string) :
  ends_with suffix s = true → ∃ pre, s = pre ++ suffix.
Proof.
  induction s as [|c s IH].
  - change (ends_with suffix "") with (String.eqb "" suffix || false).
    rewrite orb_false_r. intros H%String.eqb_eq. by exists "".
  - change (ends_with suffix (String c s))
      with (String.eqb (String c s) suffix || ends_with suffix s).
    intros [H|H]%orb_prop.
    + apply String.eqb_eq in H. by exists "".
    + destruct (IH H) as [pre ->]. by exists (String c pre).
Qed.

Lemma split_on_app_plain (pre suffix : string) :
  Path.no_slash suffix = true →
  ∃ init final,
    Str.split_on Str.slash pre = (init ++ [final])%list
    ∧ Str.split_on Str.slash (pre ++ suffix) = (init ++ [(final ++ suffix)%string])%list.
Proof.
  intros Hs. induction pre as [|c pre (init & final & H1 & H2)].
  - exists [], "". split; [done|]. exact (split_on_no_slash suffix Hs).
  - change (String c pre ++ suffix) with (String c (pre ++ suffix)).
    simpl. rewrite H1, H2. destruct (Ascii.eqb c Str.slash).
    + by exists ("" :: init)%list, final.
    + destruct init as [|x init].
      * by exists [], (String c final).
      * by exists (String c x :: init)%list, final.
Qed.

Lemma last_nonempty_snoc (l : list string) (x : string) :
  x ≠ "" → Path.last_nonempty (l ++ [x]) = x.
Proof.
  intros Hx. induction l as [|y l IH]; simpl.
  - by destruct x.
  - rewrite IH. by destruct x.
Qed.

(** The base name of a path keeps an ending that has no separator. *)
Lemma basename_app (pre suffix : string) :
  Path.no_slash suffix = true → suffix ≠ "" →
  ∃ final, Path.basename (pre ++ suffix) = final ++ suffix.
Proof.
  intros Hs Hne.
  destruct (split_on_app_plain pre suffix Hs) as (init & final & _ & H).
  exists final. unfold Path.basename. rewrite H. apply last_nonempty_snoc.
  destruct final; [done | discriminate].
Qed.

(** A name without separator is its own base name. *)
Lemma basename_plain (s : string) :
  Path.no_slash s = true → s ≠ "" → Path.basename s = s.
Proof.
  intros Hs Hne. unfold Path.basename. rewrite (split_on_no_slash s Hs).
  simpl. by destruct s.
Qed.

Lemma sanitize_app (a b : string) : sanitize (a ++ b) = sanitize a ++ sanitize b.
Proof.
  induction a as [|c a IH]; [done|].
  exact (f_equal (String (if safe_char c then c else ascii_of_N 95)) IH).
Qed.

Lemma all_safe_sanitize (s : string) : all_safe (sanitize s) = true.
Proof.
  induction s as [|c s IH]; [done|]. simpl. rewrite IH.
  by destruct (safe_char c) eqn:E; [rewrite E|].
Qed.

Lemma sanitize_fixed (s : string) : all_safe s = true → sanitize s = s.
Proof.
  induction s as [|c s IH]; [done|]. simpl.
  intros [Hc Hs]%andb_prop. by rewrite Hc, (IH Hs).
Qed.

Lemma all_safe_no_slash (s : string) : all_safe s = true → Path.no_slash s = true.
Proof.
  induction s as [|c s IH]; [done|]. simpl.
  intros [Hc Hs]%andb_prop. rewrite (IH Hs), andb_true_r.
  destruct (Ascii.eqb c Str.slash) eqn:E; [|done].
  apply Ascii.eqb_eq in E. subst c. discriminate Hc.
Qed.

(** What the storage names an upload that passes the filter: the name
    ends in [.jar], is made of the safe characters only, and is a segment
    that [path.join] keeps as it is, so the file lands in the
    destination itself. *)
Lemma upload_filename_shape (originalname : string) :
  file_filter originalname = true →
  ends_with ".jar" (upload_filename originalname) = true
  ∧ all_safe (upload_filename originalname) = true
  ∧ Path.clean (upload_filename originalname) = true
  ∧ Path.basename (upload_filename originalname) = upload_filename originalname.
Proof.
  intros Hf. unfold file_filter in Hf.
  destruct (ends_with_inv _ _ Hf) as [pre ->].
  destruct (basename_app pre ".jar" eq_refl) as [final Hb]; [done|].
  unfold upload_filename. rewrite Hb, sanitize_app.
  change (sanitize ".jar") with ".jar".
  assert (all_safe (sanitize final ++ ".jar") = true) as Hsafe.
  { change ".jar" with (sanitize ".jar") at 1.
    rewrite <- sanitize_app. apply all_safe_sanitize. }
  pose proof (all_safe_no_slash _ Hsafe) as Hns.
  assert (4 ≤ String.length (sanitize final ++ ".jar"))%nat as Hlen
    by (rewrite str_length_app; simpl; lia).
  split; [apply ends_with_app|]. split; [done|].
  revert Hns Hlen. generalize (sanitize final ++ ".jar"). intros n Hns Hlen.
  assert (n ≠ "") as Hne by (intros ->; simpl in Hlen; lia).
  split; [|by apply basename_plain].
  unfold Path.clean, Path.is_dot, Path.is_dotdot. rewrite Hns, andb_true_r.
  destruct (String.eqb_spec n ".") as [->|_]; [simpl in Hlen; lia|].
  destruct (String.eqb_spec n "..") as [->|_]; [simpl in Hlen; lia|].
  by destruct n.
Qed.

(** ** The jar listing *)

Lemma str_drop_app (a b : string) : str_drop (String.length a) (a ++ b) = b.
Proof. induction a as [|c a IH]; [by destruct b | exact IH]. Qed.

Lemma prefix_inv (a b : string) : String.prefix a b = true → ∃ r, b = a ++ r.
Proof.
  revert b. induction a as [|c a IH]; intros b; [by exists b|].
  destruct b as [|x b]; [done|]. simpl.
  destruct (ascii_dec c x) as [->|]; [|done].
  intros [r ->]%IH. by exists r.
Qed.

Lemma child_name_spec (d p n : string) :
  child_name d p = Some n
  ↔ p = d ++ "/" ++ n ∧ Path.no_slash n = true ∧ n ≠ "".
Proof.
  unfold child_name. split.
  - destruct (Fs.under d p) eqn:Hu; [|done].
    apply prefix_inv in Hu as [r ->].
    replace (String.length d + 1)%nat with (String.length (d ++ "/"))
      by (rewrite str_length_app; simpl; lia).
    rewrite str_drop_app.
    destruct (Path.no_slash r) eqn:Hr; [|done].
    destruct r as [|c r]; [done|]. simpl. intros [= <-].
    by rewrite str_app_assoc.
  - intros (-> & Hn & Hne). rewrite under_child.
    replace (String.length d + 1)%nat with (String.length (d ++ "/"))
      by (rewrite str_length_app; simpl; lia).
    rewrite <- str_app_assoc, str_drop_app, Hn. by destruct n.
Qed.

(** The names [readdirSync] gives are the names of the entries that stand
    in the directory itself. *)
Lemma readdirSync_elem (d n : string) (fs : gmap string node) :
  n ∈ readdirSync d fs
  ↔ is_Some (fs !! (d ++ "/" ++ n)) ∧ Path.no_slash n = true ∧ n ≠ "".
Proof.
  unfold readdirSync. rewrite list_elem_of_omap. split.
  - intros (p & Hp & Hn). apply child_name_spec in Hn as (-> & Hns & Hne).
    split; [|done]. apply list_elem_of_fmap in Hp as ([k v] & -> & Hkv).
    apply elem_of_map_to_list in Hkv. by exists v.
  - intros ([v Hv] & Hns & Hne). exists (d ++ "/" ++ n). split.
    + apply list_elem_of_fmap. exists (d ++ "/" ++ n, v). split; [done|].
      by apply elem_of_map_to_list.
    + by apply child_name_spec.
Qed.

(** The jars the dashboard offers: the entries of the artifact directory
    whose names end in [.jar]. *)
Lemma list_jars_elem (d n : string) (st : state) :
  disk st !! JAR_DIR d = Some Dir →
  ∃ l, list_jars d st = Some l
       ∧ (n ∈ l ↔ ends_with ".jar" n = true
                  ∧ is_Some (disk st !! (JAR_DIR d ++ "/" ++ n))
                  ∧ Path.no_slash n = true).
Proof.
  intros Hd. unfold list_jars. rewrite Hd. eexists. split; [done|].
  rewrite list_elem_of_filter, readdirSync_elem. split.
  - by intros (? & ? & ? & ?).
  - intros (He & Hs & Hn). repeat split; try done. intros ->. done.
Qed.

(** The path an accepted upload is written to. *)
Lemma upload_path (cl0 : list string) (originalname : string) :
  forallb Path.clean cl0 = true → file_filter originalname = true →
  Path.join [JAR_DIR (Path.absolute cl0); upload_filename originalname]
  = JAR_DIR (Path.absolute cl0) ++ "/" ++ upload_filename originalname.
Proof.
  intros Hcl Hf.
  destruct (upload_filename_shape originalname Hf) as (_ & _ & Hclean & _).
  destruct (install_dirs cl0 Hcl) as (_ & Hjd & _ & Hjcl & _).
  rewrite Hjd. apply join_below; [done | by destruct cl0 | done].
Qed.

(** An upload that passes the filter, with the artifact directory in
    place and no directory in the way: stored when it is within the size
    limit, refused with nothing left at the path when it is not. *)
Lemma uploadJar_accepts (cl0 : list string) (originalname content : string)
    (st : state) :
  forallb Path.clean cl0 = true → file_filter originalname = true →
  disk st !! JAR_DIR (Path.absolute cl0) = Some Dir →
  disk st !! (JAR_DIR (Path.absolute cl0) ++ "/" ++ upload_filename originalname)
  ≠ Some Dir →
  uploadJar (Path.absolute cl0) (Some (originalname, content)) st
  = if (1024 * 1024 * 200 <? N.of_nat (String.length content))%N
    then (UploadFailed 500,
          set_disk (delete (JAR_DIR (Path.absolute cl0) ++ "/"
                            ++ upload_filename originalname) (disk st)) st)
    else (Uploaded (upload_filename originalname),
          set_disk (<[JAR_DIR (Path.absolute cl0) ++ "/"
                      ++ upload_filename originalname := File content]>
                      (disk st)) st).
Proof.
  intros Hcl Hf Hdir Hfree.
  destruct (upload_filename_shape originalname Hf) as (_ & _ & _ & Hbase).
  unfold uploadJar. rewrite Hf, (upload_path cl0 originalname Hcl Hf), Hdir, Hbase.
  cbn [negb]. by rewrite writeFileSync_Some by done.
Qed.

Lemma uploadJar_refuses (cl0 : list string) (originalname content : string)
    (st : state) :
  forallb Path.clean cl0 = true → file_filter originalname = true →
  disk st !! JAR_DIR (Path.absolute cl0) ≠ Some Dir
  ∨ disk st !! (JAR_DIR (Path.absolute cl0) ++ "/" ++ upload_filename originalname)
    = Some Dir →
  uploadJar (Path.absolute cl0) (Some (originalname, content)) st
  = (UploadFailed 500, st).
Proof.
  intros Hcl Hf Hbad.
  unfold uploadJar. rewrite Hf, (upload_path cl0 originalname Hcl Hf).
  cbn [negb]. destruct Hbad as [Hnd|Hd].
  - by destruct (disk st !! JAR_DIR (Path.absolute cl0)) as [[|?]|].
  - rewrite (writeFileSync_None _ _ _ Hd).
    by destruct (disk st !! JAR_DIR (Path.absolute cl0)) as [[|?]|].
Qed.

(** X9. What an upload does. A file whose original name does not end in
    [.jar] is refused and nothing is written. Otherwise the stored name is
    the base name of the original one with every character outside
    [a-zA-Z0-9._-] replaced by an underscore: it ends in [.jar], is made
    of those characters only, and is unchanged when the base name needed
    no cleaning. Without the artifact directory, or with a directory in
    the way, the upload fails and nothing changes. Otherwise a file of
    more than 200 MB (1024 * 1024 * 200 bytes) is refused: nothing is
    left at [JAR_DIR/<name>] and every other path is left alone, so the
    disk is as it was when nothing stood at that path; a file within the
    limit is answered with that name, its bytes are stored at
    [JAR_DIR/<name>] and nowhere else, and the jar listing offers the
    name. Records and processes are left alone throughout. *)
Theorem upload_stores_a_safe_jar (cl0 : list string) (originalname content : string)
    (st : state) :
  forallb Path.clean cl0 = true →
  let d := Path.absolute cl0 in
  let name := upload_filename originalname in
  let target := JAR_DIR d ++ "/" ++ name in
  let r := uploadJar d (Some (originalname, content)) st in
  (file_filter originalname = false → r = (UploadFailed 500, st))
  ∧ (file_filter originalname = true →
     ends_with ".jar" name = true ∧ all_safe name = true
     ∧ Path.no_slash name = true
     ∧ (all_safe (Path.basename originalname) = true →
        name = Path.basename originalname)
     ∧ Fs.under (JAR_DIR d) target = true
     ∧ procMap r.2 = procMap st ∧ children r.2 = children st
     ∧ stateFile r.2 = stateFile st
     ∧ (disk st !! JAR_DIR d ≠ Some Dir ∨ disk st !! target = Some Dir →
        r = (UploadFailed 500, st))
     ∧ (disk st !! JAR_DIR d = Some Dir → disk st !! target ≠ Some Dir →
        ((1024 * 1024 * 200 < N.of_nat (String.length content))%N →
         r.1 = UploadFailed 500
         ∧ disk r.2 !! target = None
         ∧ (∀ p, p ≠ target → disk r.2 !! p = disk st !! p)
         ∧ (disk st !! target = None → disk r.2 = disk st))
        ∧ ((N.of_nat (String.length content) ≤ 1024 * 1024 * 200)%N →
           r.1 = Uploaded name
           ∧ disk r.2 = <[target := File content]> (disk st)
           ∧ ∃ l, list_jars d r.2 = Some l ∧ name ∈ l))).
Proof.
  intros Hcl. cbv zeta. split.
  { intros Hf. unfold uploadJar. by rewrite Hf. }
  intros Hf.
  destruct (upload_filename_shape originalname Hf) as (Hend & Hsafe & Hclean & Hbase).
  pose proof (all_safe_no_slash _ Hsafe) as Hns.
  split; [done|]. split; [done|]. split; [done|]. split.
  { intros Hb. unfold upload_filename. by apply sanitize_fixed. }
  split; [apply under_child|].
  assert (disk st !! JAR_DIR (Path.absolute cl0) ≠ Some Dir
          ∨ disk st !! (JAR_DIR (Path.absolute cl0) ++ "/"
                        ++ upload_filename originalname) = Some Dir
          ∨ (disk st !! JAR_DIR (Path.absolute cl0) = Some Dir
             ∧ disk st !! (JAR_DIR (Path.absolute cl0) ++ "/"
                           ++ upload_filename originalname) ≠ Some Dir)) as Hcases.
  { destruct (disk st !! JAR_DIR (Path.absolute cl0)) as [[|?]|]; [|by left..].
    destruct (disk st !! (JAR_DIR (Path.absolute cl0) ++ "/"
                          ++ upload_filename originalname)) as [[|?]|];
      [right; by left | right; by right..]. }
  split; [|split; [|split; [|split]]].
  - destruct Hcases as [Hb|[Hb|[Hd Hfree]]];
      [by rewrite uploadJar_refuses by auto..|].
    rewrite (uploadJar_accepts cl0 originalname content st Hcl Hf Hd Hfree).
    by destruct (_ <? _)%N.
  - destruct Hcases as [Hb|[Hb|[Hd Hfree]]];
      [by rewrite uploadJar_refuses by auto..|].
    rewrite (uploadJar_accepts cl0 originalname content st Hcl Hf Hd Hfree).
    by destruct (_ <? _)%N.
  - destruct Hcases as [Hb|[Hb|[Hd Hfree]]];
      [by rewrite uploadJar_refuses by auto..|].
    rewrite (uploadJar_accepts cl0 originalname content st Hcl Hf Hd Hfree).
    by destruct (_ <? _)%N.
  - intros Hbad. by apply uploadJar_refuses.
  - intros Hdir Hfree.
    rewrite (uploadJar_accepts cl0 originalname content st Hcl Hf Hdir Hfree).
    split.
    + intros Hbig. apply N.ltb_lt in Hbig. rewrite Hbig.
      cbn [fst snd set_disk disk]. split; [done|].
      split; [apply lookup_delete_eq|].
      split; [intros p Hp; by apply lookup_delete_ne | apply delete_id].
    + intros Hfits. apply N.ltb_ge in Hfits. rewrite Hfits.
      cbn [fst snd set_disk disk]. split; [done|]. split; [done|].
      set (st' := set_disk _ st).
      destruct (list_jars_elem (Path.absolute cl0) (upload_filename originalname) st')
        as (l & Hl & Hin).
      { unfold st'. cbn [set_disk disk].
        rewrite lookup_insert_ne by apply child_not_self. exact Hdir. }
      exists l. split; [done|]. apply Hin. split; [done|]. split; [|done].
      unfold st'. cbn [set_disk disk]. by rewrite lookup_insert_eq.
Qed.

Lemma upload_stores_a_safe_jar_witness :
  (uploadJar Demo.home (Some (Demo.upload_name, "PK")) Demo.booted).1
  = Uploaded "paper_1.21.jar"
  ∧ disk (uploadJar Demo.home (Some (Demo.upload_name, "PK")) Demo.booted).2
    !! "/srv/data/jars/paper_1.21.jar" = Some (File "PK").
Proof.
  destruct (upload_stores_a_safe_jar ["srv"] Demo.upload_name "PK" Demo.booted eq_refl)
    as (_ & H).
  destruct (H eq_refl) as (_ & _ & _ & _ & _ & _ & _ & _ & _ & H').
  destruct H' as (_ & H'); [vm_compute; reflexivity | vm_compute; discriminate |].
  destruct H' as (Hr & Hd & _); [vm_compute; discriminate|].
  split; [exact Hr|].
  change Demo.home with (Path.absolute ["srv"]). rewrite Hd.
  vm_compute. reflexivity.
Defined.

(** ** From the upload to the running process *)

Lemma open_append_lookup (q p : string) (x : node) (fs : gmap string node) :
  fs !! p = Some x → Fs.open_append q fs !! p = Some x.
Proof.
  intros Hp. unfold Fs.open_append. destruct (fs !! q) eqn:E; [done|].
  rewrite lookup_insert_ne; [done | congruence].
Qed.

(** Nothing below the artifact directory lies below the instances. *)
Lemma jars_apart (cl0 : list string) (a b : string) :
  forallb Path.clean cl0 = true →
  JAR_DIR (Path.absolute cl0) ++ "/" ++ a ≠ SERVERS_DIR (Path.absolute cl0) ++ "/" ++ b.
Proof.
  intros Hcl. destruct (install_dirs cl0 Hcl) as (_ & -> & -> & _).
  rewrite (absolute_snoc (cl0 ++ ["data"]) "jars") by (by destruct cl0).
  rewrite (absolute_snoc (cl0 ++ ["data"]) "servers") by (by destruct cl0).
  rewrite !str_app_assoc. intros H.
  apply str_app_inv_head in H. apply (str_app_inv_head "/") in H.
  discriminate H.
Qed.

(** X10. An uploaded jar can be created from and launched. After an
    upload that is accepted (the name ends in [.jar], the file is within
    the 200 MB limit, the artifact directory is there and no directory is
    in the way), [create] with the name the upload answered passes both
    of its checks and, when no file stands at the instance directory and
    no directory where [eula.txt] goes, records that name as the jar;
    [start] of the new instance then answers 200 and spawns [java] with
    the heap arguments, [-jar], the path of the uploaded file in the
    artifact directory and [nogui]; and the file at that path still holds
    the uploaded bytes. *)
Theorem uploaded_jar_is_launched (cl0 : list string)
    (originalname content name r : string) (port : Z) (mem : option Z) (p : Z)
    (st : state) :
  let d := Path.absolute cl0 in
  let jar := upload_filename originalname in
  let id := generateId name r in
  let dir := SERVERS_DIR d ++ "/" ++ id in
  forallb Path.clean cl0 = true → radix36 r = true →
  file_filter originalname = true →
  (N.of_nat (String.length content) ≤ 1024 * 1024 * 200)%N →
  disk st !! JAR_DIR d = Some Dir →
  disk st !! (JAR_DIR d ++ "/" ++ jar) ≠ Some Dir →
  name ≠ "" → port ≠ 0%Z →
  find_server id (registry st) = None → procMap st !! id = None →
  (∀ content', disk st !! dir ≠ Some (File content')) →
  disk st !! (dir ++ "/eula.txt") ≠ Some Dir →
  let st1 := (uploadJar d (Some (originalname, content)) st).2 in
  let body := mkBody (Some name) (Some port) mem (Some jar) in
  let st2 := (create d body r st1).2 in
  let st3 := (start d id p st2).2 in
  let M := if num_falsy mem then 1024%Z else default 0%Z mem in
  (uploadJar d (Some (originalname, content)) st).1 = Uploaded jar
  ∧ (create d body r st1).1 = Res 200 (Record_ (Server.mk id name port M jar dir))
  ∧ (start d id p st2).1 = Res 200 (OkPid p)
  ∧ procMap st3 !! id = Some (length (children st))
  ∧ children st3 !! length (children st)
    = Some (mkChild id p "java" (heap_then_jar_args M (JAR_DIR d ++ "/" ++ jar))
              dir [] (dir ++ "/console.log") false)
  ∧ disk st3 !! (JAR_DIR d ++ "/" ++ jar) = Some (File content).
Proof.
  cbv zeta.
  intros Hcl Hr Hf Hfits Hdir Hfree Hname Hport Hold Hno Hnofile Hnodir.
  destruct (upload_filename_shape originalname Hf) as (_ & _ & Hclean & Hbase).
  pose proof (upload_path cl0 originalname Hcl Hf) as Hpath.
  rewrite (uploadJar_accepts cl0 originalname content st Hcl Hf Hdir Hfree).
  apply N.ltb_ge in Hfits. rewrite Hfits. cbn [fst snd].
  set (d := Path.absolute cl0) in *.
  set (jar := upload_filename originalname) in *.
  set (id := generateId name r) in *.
  set (dir := SERVERS_DIR d ++ "/" ++ id) in *.
  set (st1 := set_disk _ st).
  assert (disk st1 !! (JAR_DIR d ++ "/" ++ jar) = Some (File content)) as Hjar1
    by apply lookup_insert_eq.
  assert (∀ q, disk st1 !! (SERVERS_DIR d ++ "/" ++ q)
               = disk st !! (SERVERS_DIR d ++ "/" ++ q)) as Hsame.
  { intros q. apply lookup_insert_ne. by apply jars_apart. }
  set (body := mkBody (Some name) (Some port) mem (Some jar)).
  assert (jar ≠ "") as Hjne.
  { apply clean_parts in Hclean as (He & _). intros E. by rewrite E in He. }
  destruct (create_succeeds cl0 body r st1 name jar port Hcl Hr eq_refl Hname
              eq_refl Hport eq_refl Hjne)
    as (Hresp & Hpm & Hch & Hsf & _ & _ & _ & _ & Hother).
  { rewrite Hbase. fold d. rewrite Hpath. unfold Fs.existsSync.
    rewrite Hjar1. by apply bool_decide_eq_true_2. }
  { intros content'. fold d id dir. unfold dir. rewrite Hsame. apply Hnofile. }
  { fold d id dir. unfold st1. cbn [disk set_disk].
    rewrite lookup_insert_ne; [exact Hnodir|].
    unfold dir. rewrite str_app_assoc. apply jars_apart, Hcl. }
  fold d id dir in Hresp, Hpm, Hch, Hsf, Hother.
  rewrite Hbase in Hresp, Hsf.
  cbn [b_maxMemoryMB body] in Hresp, Hsf.
  set (M := if num_falsy mem then 1024%Z else default 0%Z mem) in *.
  set (st2 := (create d body r st1).2) in *.
  set (record := Server.mk id name port M jar dir) in *.
  assert (find_server id (registry st2) = Some record) as Hfound.
  { assert (registry st2 = (registry st1 ++ [record])%list) as ->
      by (unfold registry at 1, loadServers; by rewrite Hsf).
    rewrite (registry_stateFile st st1 eq_refl).
    rewrite find_server_app, Hold. unfold find_server. simpl.
    by rewrite String.eqb_refl. }
  assert (disk st2 !! (JAR_DIR d ++ "/" ++ jar) = Some (File content)) as Hjar2.
  { rewrite Hother; [done|..]; unfold dir; rewrite ?str_app_assoc;
      apply jars_apart, Hcl. }
  assert (Fs.existsSync (Path.join [JAR_DIR d; Server.jar record]) (disk st2) = true)
    as Hthere.
  { change (Server.jar record) with jar. rewrite Hpath. unfold Fs.existsSync.
    rewrite Hjar2. by apply bool_decide_eq_true_2. }
  assert (procMap st2 !! id = None) as Hno2 by (by rewrite Hpm).
  destruct (start_spawns d id p st2 record Hno2 Hfound Hthere) as (Hok & Hch3 & Hpm3).
  destruct (start_disk d id p st2 record Hno2 Hfound Hthere) as (Hd3 & _).
  destruct (instance_paths cl0 name r Hcl Hr) as (_ & _ & _ & Hf3).
  cbv zeta in Hf3. fold d id dir in Hf3.
  assert (launch_args record (JAR_DIR d ++ "/" ++ jar)
          = heap_then_jar_args M (JAR_DIR d ++ "/" ++ jar)) as Hargs.
  { unfold launch_args, heap_then_jar_args. change (Server.maxMemoryMB record) with M.
    assert (M ≠ 0%Z) as HM.
    { unfold M. destruct mem as [m|]; [|done]. simpl.
      by destruct (Z.eqb_spec m 0). }
    apply Z.eqb_neq in HM. by rewrite HM. }
  split; [done|]. split; [done|]. split; [done|]. split.
  { by rewrite Hpm3, Hch, lookup_insert_eq. }
  split.
  { rewrite Hch3, Hch. change (children st1) with (children st).
    rewrite lookup_app_r by lia. rewrite Nat.sub_diag. simpl.
    change (Server.jar record) with jar. change (Server.dir record) with dir.
    by rewrite Hpath, Hargs, Hf3. }
  rewrite Hd3. by apply open_append_lookup.
Qed.

Lemma uploaded_jar_is_launched_witness :
  let st1 := (uploadJar Demo.home (Some (Demo.upload_name, "PK")) Demo.booted).2 in
  let body := mkBody (Some "Lobby") (Some 25565%Z) (Some 2048%Z) (Some "paper_1.21.jar") in
  let st2 := (create Demo.home body "0.k3x9qzr1" st1).2 in
  (start Demo.home Demo.lobby_id 4242 st2).1 = Res 200 (OkPid 4242)
  ∧ disk (start Demo.home Demo.lobby_id 4242 st2).2 !! "/srv/data/jars/paper_1.21.jar"
    = Some (File "PK").
Proof.
  destruct (uploaded_jar_is_launched ["srv"] Demo.upload_name "PK" "Lobby"
              "0.k3x9qzr1" 25565%Z (Some 2048%Z) 4242%Z Demo.booted)
    as (_ & _ & H1 & _ & _ & H2).
  - reflexivity.
  - reflexivity.
  - reflexivity.
  - vm_compute; discriminate.
  - vm_compute; reflexivity.
  - vm_compute; discriminate.
  - discriminate.
  - discriminate.
  - vm_compute; reflexivity.
  - vm_compute; reflexivity.
  - intros content'. vm_compute. discriminate.
  - vm_compute; discriminate.
  - cbv zeta. split; [exact H1 | exact H2].
Defined.

(** ** A console session *)

(** X11. What is sent to a running instance reaches its process in the
    order of the requests: after a [command] request for each of the
    non-empty texts [cmds] and a [stop] request, the stdin of the child
    behind the id holds what it held, then each text trimmed and ended by
    a newline, then [stop] and a newline. The child is otherwise the same,
    and the other children, the live mapping, the disk and the registry
    file are as before. *)
Theorem console_session_in_order (d id : string) (h : nat) (c : child)
    (cmds : list string) (st : state) :
  procMap st !! id = Some h → children st !! h = Some c →
  Forall (λ t, t ≠ "") cmds →
  let st' :=
    run d (map (λ t, Request (Command id (Some t))) cmds
           ++ [Request (Stop id)])%list st in
  children st' !! h
  = Some (mkChild (owner c) (pid c) (command c) (args c) (cwd c)
            (stdin c ++ map (λ t, (Str.trim t ++ Str.nl)%string) cmds
             ++ [("stop" ++ Str.nl)%string])%list
            (logStream c) (closed c))
  ∧ (∀ h', h' ≠ h → children st' !! h' = children st !! h')
  ∧ procMap st' = procMap st ∧ disk st' = disk st
  ∧ stateFile st' = stateFile st.
Proof.
  intros Hp Hc Hne. cbv zeta. revert st c Hp Hc.
  induction Hne as [|t cmds Ht _ IH]; intros st c Hp Hc.
  - simpl. unfold stop. rewrite Hp. cbn [snd]. split.
    { rewrite stdin_write_lookup, Hc. simpl. by rewrite decide_True. }
    split; [|done].
    intros h' Hh'. rewrite stdin_write_lookup.
    destruct (children st !! h'); simpl; [by rewrite decide_False|done].
  - simpl.
    destruct (send_command_cases id (Some t) st) as (_ & _ & Hsend).
    rewrite (Hsend h t Hp eq_refl Ht). cbn [snd].
    set (st1 := stdin_write h (Str.trim t ++ Str.nl) st).
    assert (children st1 !! h
            = Some (mkChild (owner c) (pid c) (command c) (args c) (cwd c)
                      (stdin c ++ [(Str.trim t ++ Str.nl)%string])%list
                      (logStream c) (closed c))) as Hc1.
    { unfold st1. rewrite stdin_write_lookup, Hc. simpl. by rewrite decide_True. }
    destruct (IH st1 _ Hp Hc1) as (Hh & Hother & Hp1 & Hd1 & Hs1).
    split. { rewrite Hh. simpl. by rewrite <- app_assoc. }
    split; [|done].
    intros h' Hh'. rewrite (Hother h' Hh'). unfold st1.
    rewrite stdin_write_lookup.
    destruct (children st !! h'); simpl; [by rewrite decide_False|done].
Qed.

Lemma console_session_in_order_witness :
  stdin <$> children
    (run Demo.home
       [Request (Command Demo.lobby_id (Some " say hi "));
        Request (Command Demo.lobby_id (Some "list"));
        Request (Stop Demo.lobby_id)] Demo.running) !! 0
  = Some ["say hi" ++ Str.nl; "list" ++ Str.nl; "stop" ++ Str.nl].
Proof.
  assert (∃ c, children Demo.running !! 0 = Some c ∧ stdin c = []) as (c & Hc & Hin).
  { eexists. split; vm_compute; reflexivity. }
  destruct (console_session_in_order Demo.home Demo.lobby_id 0 c [" say hi "; "list"]
              Demo.running) as (H & _).
  - vm_compute; reflexivity.
  - exact Hc.
  - repeat constructor; discriminate.
  - simpl map in H. simpl app in H. rewrite H, Hin. vm_compute. reflexivity.
Defined.
